(** * tibiamaps/map-scripts: the decode direction ([from-maps.js])

    A shallow embedding of [src/from-maps.js] and [src/colors.js]:
    the two pixel palettes, the tile renderers [renderMap] and
    [renderPath], the marker decoder [parseMarkerData], the per-tile
    driver [drawMapSection] and the per-floor driver [renderFloor].

    Conventions of the embedding.
    - A Node [Buffer] is a [list byte]; offsets are [nat], the numbers
      read out of a buffer are [Z].
    - A JavaScript string is the list of its UTF-16 code units.
    - The module-level mutable objects ([GLOBALS], [markers]) and the
      console form an explicit [World] threaded through a state and
      exception monad [M]; a JavaScript exception that nothing catches
      is the outcome [Thrown].
    - Node and canvas primitives are embedded with their documented
      behaviour: the [Buffer] readers raise [RangeError] outside the
      buffer, [Buffer.slice] clamps, [console.assert] prints and
      carries on, and [putImageData] raises [TypeError] when it is not
      given an [ImageData]. *)

From Stdlib Require Import ZArith List Bool Lia.
From Stdlib.Strings Require Import Ascii String Byte.
From stdpp Require Import gmap strings list pretty sorting.

Local Open Scope nat_scope.

(** ** Bytes, buffers and JavaScript strings *)

Abbreviation Buffer := (list byte).

Definition byteVal (b : byte) : Z := Z.of_N (Byte.to_N b).

Global Instance byte_eq_decision : EqDecision byte := Byte.byte_eq_dec.

(** UTF-16 code units. *)
Abbreviation jsstring := (list N).

Definition lit (s : string) : jsstring :=
  map (fun a => N_of_ascii a) (list_ascii_of_string s).

(** [windows1252.decode]: the single-byte index of the WHATWG
    encoding standard; bytes below 0x80 and from 0xA0 on are their own
    code points. *)
Definition windows1252_high : list N :=
  [ 0x20AC; 0x0081; 0x201A; 0x0192; 0x201E; 0x2026; 0x2020; 0x2021;
    0x02C6; 0x2030; 0x0160; 0x2039; 0x0152; 0x008D; 0x017D; 0x008F;
    0x0090; 0x2018; 0x2019; 0x201C; 0x201D; 0x2022; 0x2013; 0x2014;
    0x02DC; 0x2122; 0x0161; 0x203A; 0x0153; 0x009D; 0x017E; 0x0178 ]%N.

Definition windows1252_codePoint (b : byte) : N :=
  let n := Byte.to_N b in
  if (n <? 0x80)%N then n
  else if (n <? 0xA0)%N
       then nth (N.to_nat (n - 0x80)) windows1252_high n
       else n.

(** [windows1252.decode(buffer.toString('binary'))]. *)
Definition windows1252_decode (bytes : Buffer) : jsstring :=
  map windows1252_codePoint bytes.

(** [String.prototype.toLowerCase], on the code units that
    [windows1252_decode] can produce (none of them has a
    context-dependent or multi-unit lower case); every other code
    unit is kept. *)
Definition toLowerCase_unit (c : N) : N :=
  if ((0x41 <=? c) && (c <=? 0x5A))%N then (c + 0x20)%N
  else if ((0xC0 <=? c) && (c <=? 0xDE) && negb (c =? 0xD7))%N then (c + 0x20)%N
  else if (c =? 0x160)%N then 0x161%N
  else if (c =? 0x152)%N then 0x153%N
  else if (c =? 0x17D)%N then 0x17E%N
  else if (c =? 0x178)%N then 0xFF%N
  else c.

Definition toLowerCase (s : jsstring) : jsstring := map toLowerCase_unit s.

(** ** Markers and their JSON text *)

(** A marker object after [sortObject]: the keys in alphabetical
    order. [icon] is [None] when [icons.byID] has no entry (the
    property then holds [undefined]). *)
Record marker := Marker {
  description : jsstring;
  icon : option jsstring;
  x : Z;
  y : Z;
  z : Z
}.

Global Instance marker_eq_dec : EqDecision marker.
Proof. solve_decision. Defined.

Definition hexDigit (n : N) : N :=
  if (n <? 10)%N then (0x30 + n)%N else (0x61 + (n - 10))%N.

(** The escape of one code unit inside a JSON string ([QuoteJSONString]). *)
Definition JSON_quote_unit (c : N) : jsstring :=
  if (c =? 0x22)%N then [0x5C; 0x22]%N
  else if (c =? 0x5C)%N then lit "\\"
  else if (c =? 0x08)%N then lit "\b"
  else if (c =? 0x0C)%N then lit "\f"
  else if (c =? 0x0A)%N then lit "\n"
  else if (c =? 0x0D)%N then lit "\r"
  else if (c =? 0x09)%N then lit "\t"
  else if (c <? 0x20)%N
       then lit "\u00" ++ [hexDigit (c / 16); hexDigit (c mod 16)]
       else [c].

Definition JSON_quote (s : jsstring) : jsstring :=
  [0x22%N] ++ concat (map JSON_quote_unit s) ++ [0x22%N].

Definition JSON_key (k : string) : jsstring :=
  [0x22%N] ++ lit k ++ [0x22%N] ++ lit ":".

Definition JSON_number (n : Z) : jsstring := lit (pretty n).

(** [JSON.stringify(marker)]: a property holding [undefined] is left out. *)
Definition JSON_stringify (m : marker) : jsstring :=
  lit "{" ++ JSON_key "description" ++ JSON_quote (description m)
  ++ match icon m with
     | Some name => lit "," ++ JSON_key "icon" ++ JSON_quote name
     | None => []
     end
  ++ lit "," ++ JSON_key "x" ++ JSON_number (x m)
  ++ lit "," ++ JSON_key "y" ++ JSON_number (y m)
  ++ lit "," ++ JSON_key "z" ++ JSON_number (z m)
  ++ lit "}".

(** ** Colors, image data and canvases *)

Record Color := RGB { r : Z; g : Z; b : Z }.

Record RGBA := Pixel { red : Z; green : Z; blue : Z; alpha : Z }.

(** An [ImageData]: its size and, for a column and a row, the four
    components stored for that pixel. *)
Record ImageData := {
  iwidth : Z;
  iheight : Z;
  idata : Z -> Z -> RGBA
}.

(** A canvas with its 2d context: its size and its pixels. *)
Record Canvas := {
  cwidth : Z;
  cheight : Z;
  cpixel : Z -> Z -> RGBA
}.

(** [new Canvas(w, h)]: transparent black. *)
Definition newCanvas (w h : Z) : Canvas :=
  {| cwidth := w; cheight := h; cpixel := fun _ _ => Pixel 0 0 0 0 |}.

(** [context.createImageData(w, h)]: transparent black. *)
Definition createImageData (w h : Z) : ImageData :=
  {| iwidth := w; iheight := h; idata := fun _ _ => Pixel 0 0 0 0 |}.

Definition inRect (x0 y0 w h col row : Z) : bool :=
  ((x0 <=? col) && (col <? x0 + w) && (y0 <=? row) && (row <? y0 + h))%Z.

(** [context.putImageData(imageData, dx, dy)] for an [ImageData]:
    the pixels are copied as they are, those falling outside the
    canvas are dropped. *)
Definition putPixels (img : ImageData) (dx dy : Z) (c : Canvas) : Canvas :=
  {| cwidth := cwidth c; cheight := cheight c;
     cpixel := fun col row =>
       if inRect dx dy (iwidth img) (iheight img) col row
          && inRect 0 0 (cwidth c) (cheight c) col row
       then idata img (col - dx)%Z (row - dy)%Z
       else cpixel c col row |}.

(** [context.getImageData(sx, sy, sw, sh)]; outside the canvas the
    result is transparent black. *)
Definition getImageData (sx sy sw sh : Z) (c : Canvas) : ImageData :=
  {| iwidth := sw; iheight := sh;
     idata := fun col row =>
       if inRect 0 0 (cwidth c) (cheight c) (sx + col)%Z (sy + row)%Z
       then cpixel c (sx + col)%Z (sy + row)%Z
       else Pixel 0 0 0 0 |}.

(** [context.fillStyle = color; context.fillRect(x0, y0, w, h)]. *)
Definition fillRect (fill : RGBA) (x0 y0 w h : Z) (c : Canvas) : Canvas :=
  {| cwidth := cwidth c; cheight := cheight c;
     cpixel := fun col row =>
       if inRect x0 y0 w h col row then fill else cpixel c col row |}.

(** ** The world: [GLOBALS], the marker accumulator and the console *)

Record Bounds := {
  xMin : Z; xMax : Z;
  yMin : Z; yMax : Z;
  width : Z; height : Z;
  floorIDs : list string
}.

Inductive LogLine :=
| console_assert_line (message : string)
| console_warn_line (message : string)
| console_log_line (message : string).

(** What the run hands to [saveCanvasToPNG] and [writeJSON]. *)
Inductive FileWrite :=
| PNG (path : string) (canvas : Canvas)
| JSON (path : string) (data : gmap string (list marker)).

Record World := {
  G_bounds : Bounds;
  G_mapCanvas : Canvas;
  G_pathCanvas : Canvas;
  markers : gmap string (list marker);
  console : list LogLine;
  written : list FileWrite
}.

Definition set_bounds (v : Bounds) (w : World) : World :=
  {| G_bounds := v; G_mapCanvas := G_mapCanvas w;
     G_pathCanvas := G_pathCanvas w; markers := markers w;
     console := console w; written := written w |}.
Definition set_mapCanvas (v : Canvas) (w : World) : World :=
  {| G_bounds := G_bounds w; G_mapCanvas := v;
     G_pathCanvas := G_pathCanvas w; markers := markers w;
     console := console w; written := written w |}.
Definition set_pathCanvas (v : Canvas) (w : World) : World :=
  {| G_bounds := G_bounds w; G_mapCanvas := G_mapCanvas w;
     G_pathCanvas := v; markers := markers w;
     console := console w; written := written w |}.
Definition set_markers (v : gmap string (list marker)) (w : World) : World :=
  {| G_bounds := G_bounds w; G_mapCanvas := G_mapCanvas w;
     G_pathCanvas := G_pathCanvas w; markers := v;
     console := console w; written := written w |}.
Definition set_console (v : list LogLine) (w : World) : World :=
  {| G_bounds := G_bounds w; G_mapCanvas := G_mapCanvas w;
     G_pathCanvas := G_pathCanvas w; markers := markers w;
     console := v; written := written w |}.
Definition set_written (v : list FileWrite) (w : World) : World :=
  {| G_bounds := G_bounds w; G_mapCanvas := G_mapCanvas w;
     G_pathCanvas := G_pathCanvas w; markers := markers w;
     console := console w; written := v |}.

Inductive JsError := RangeError | TypeError.

Global Instance JsError_eq_dec : EqDecision JsError.
Proof. solve_decision. Defined.

(** ** State and exception monad *)

Inductive Outcome (A : Type) :=
| Returned (a : A) (w : World)
| Thrown (e : JsError) (w : World).
Arguments Returned {A} a w.
Arguments Thrown {A} e w.

Definition M (A : Type) := World -> Outcome A.

Definition ret {A} (a : A) : M A := fun w => Returned a w.
Definition throw {A} (e : JsError) : M A := fun w => Thrown e w.
Definition bind {A B} (c : M A) (k : A -> M B) : M B :=
  fun w => match c w with
           | Returned a w' => k a w'
           | Thrown e w' => Thrown e w'
           end.

Notation "'let*' x ':=' c 'in' k" := (bind c (fun x => k))
  (at level 10, x binder, c at level 100, k at level 200).
Notation "c1 ';;' c2" := (bind c1 (fun _ => c2))
  (at level 100, c2 at level 200, right associativity).

Definition get {A} (field : World -> A) : M A := fun w => Returned (field w) w.
Definition modify (f : World -> World) : M unit := fun w => Returned tt (f w).

Definition print (l : LogLine) : M unit :=
  modify (fun w => set_console (console w ++ [l]) w).

(** [console.assert(value, message)]: prints when [value] is falsy. *)
Definition console_assert (value : bool) (message : string) : M unit :=
  if value then ret tt else print (console_assert_line message).
Definition console_warn (message : string) : M unit :=
  print (console_warn_line message).
Definition console_log (message : string) : M unit :=
  print (console_log_line message).

(** ** Node's [Buffer] *)

(** The little-endian value of a run of bytes. *)
Fixpoint leValue (bytes : list byte) : Z :=
  match bytes with
  | [] => 0
  | b :: rest => (byteVal b + 256 * leValue rest)%Z
  end.

(** [buffer.readUIntLE(offset, byteLength)]. *)
Definition readUIntLE (buffer : Buffer) (offset byteLength : nat) : M Z :=
  if decide (offset + byteLength <= length buffer)
  then ret (leValue (take byteLength (drop offset buffer)))
  else throw RangeError.

(** [buffer.readUInt8(offset, 1)]. The method has one parameter, the
    argument [1] is not used. (Before Node 10 it was read as
    [noAssert] and switched the bounds check off; in [parseMarkerData]
    the checked [readUIntLE] of the same turn reads further right and
    raises the same [RangeError] whenever such a read is out of
    bounds.) *)
Definition readUInt8 (buffer : Buffer) (offset : nat) : M Z :=
  match buffer !! offset with
  | Some b => ret (byteVal b)
  | None => throw RangeError
  end.

(** The list without its first [n] elements, and its first [n]
    elements, for a number [n] in binary. *)
Fixpoint dropN {A} (n : N) (l : list A) : list A :=
  match l with
  | [] => []
  | a :: rest => if (n =? 0)%N then l else dropN (N.pred n) rest
  end.

Fixpoint takeN {A} (n : N) (l : list A) : list A :=
  match l with
  | [] => []
  | a :: rest => if (n =? 0)%N then [] else a :: takeN (N.pred n) rest
  end.

(** [buffer.slice(start, end)] for non-negative arguments: both ends
    are clamped to the buffer. *)
Definition slice (buffer : Buffer) (start end_ : N) : Buffer :=
  takeN (end_ - start) (dropN start buffer).

(** [buffer.slice(start)]. *)
Definition sliceFrom (buffer : Buffer) (start : N) : Buffer :=
  dropN start buffer.

(** [buffer[index]] for a number [index]: [None] stands for [undefined]. *)
Definition bufferAt (buffer : Buffer) (index : Z) : option byte :=
  if (index <? 0)%Z then None else buffer !! Z.to_nat index.

(** ** [colors.js] *)

Global Instance Color_inhabited : Inhabited Color := populate (RGB 0 0 0).

Definition byByte : gmap Z Color :=
  list_to_map
    [ (0x00, RGB 0 0 0);
      (0x0C, RGB 0 102 0);
      (0x18, RGB 0 204 0);
      (0x33, RGB 51 102 153);
      (0x56, RGB 102 102 102);
      (0x72, RGB 153 51 0);
      (0x79, RGB 153 102 51);
      (0x81, RGB 153 153 153);
      (0x8C, RGB 153 255 102);
      (0xB3, RGB 204 255 255);
      (0xBA, RGB 255 51 0);
      (0xC0, RGB 255 102 0);
      (0xCF, RGB 255 204 153);
      (0xD2, RGB 255 255 0);
      (0xD7, RGB 255 255 255) ]%Z.

Definition unexploredMapByte : Z := 0x00.
Definition unexploredPathByte : Z := 0xFA.
Definition nonWalkablePathByte : Z := 0xFF.

Definition unexploredMap : Color := byByte !!! unexploredMapByte.
Definition nonWalkablePath : Color := byByte !!! 0xD2%Z.
Definition unexploredPath : Color := RGB 0xFA 0xFA 0xFA.

(** ** The pixel palettes of [from-maps.js] *)

(** A store into a [Uint8ClampedArray]. *)
Definition clampByte (v : Z) : Z := Z.max 0 (Z.min 255 v).

(** The 1x1 [ImageData] built for a palette color: [createImageData(1, 1)]
    followed by the four stores [data[0] = color.r], [data[1] = color.g],
    [data[2] = color.b], [data[3] = 0xFF]. *)
Definition pixelImage (color : Color) : ImageData :=
  let imageData := createImageData 1 1 in
  {| iwidth := iwidth imageData; iheight := iheight imageData;
     idata := fun col row =>
       if ((col =? 0) && (row =? 0))%Z
       then Pixel (clampByte (r color)) (clampByte (g color))
                  (clampByte (b color)) (clampByte 0xFF)
       else idata imageData col row |}.

Definition mapPixelPalette : gmap Z ImageData := pixelImage <$> byByte.

(** [lodash.range(start, end)]. *)
Definition range (start end_ : Z) : list Z := seqZ start (end_ - start).

Definition pathPixelPalette : gmap Z ImageData :=
  let palette :=
    foldl (fun (palette : gmap Z ImageData) pixelByte =>
             let isNonWalkable := bool_decide (pixelByte = nonWalkablePathByte) in
             let component := pixelByte in
             let color := if isNonWalkable then nonWalkablePath
                          else RGB component component component in
             <[pixelByte := pixelImage color]> palette)
          ∅ (range 0 (255 + 1)) in
  (* Add the special color for unexplored paths. *)
  <[unexploredPathByte := pixelImage unexploredPath]> palette.

(** A palette lookup with a byte read from a buffer; an [undefined]
    byte finds nothing. *)
Definition paletteAt (palette : gmap Z ImageData) (pixelByte : option byte)
  : option ImageData :=
  match pixelByte with
  | Some byte => palette !! byteVal byte
  | None => None
  end.

(** [context.putImageData(imageData, dx, dy)] on a canvas held in a
    local variable; anything but an [ImageData] is a [TypeError]. *)
Definition putImageData (imageData : option ImageData) (dx dy : Z)
    (canvas : Canvas) : M Canvas :=
  match imageData with
  | Some img => ret (putPixels img dx dy canvas)
  | None => throw TypeError
  end.

(** The text of [`${pixelByte}`]. *)
Definition showByte (pixelByte : option byte) : string :=
  match pixelByte with
  | Some byte => pretty (byteVal byte)
  | None => "undefined"
  end.

(** The body of a loop run for each index in turn, over the
    variables [S] that it updates. *)
Fixpoint forIndices {S : Type} (indices : list Z) (body : Z -> S -> M S)
    (s : S) : M S :=
  match indices with
  | [] => ret s
  | i :: rest => let* s' := body i s in forIndices rest body s'
  end.

(** [let i = -1; while (++i < n) { body }]: the body runs for
    [i = 0, ..., n - 1]. *)
Definition whileLess {S : Type} (n : Z) (body : Z -> S -> M S) (s : S) : M S :=
  forIndices (seqZ 0 n) body s.

Definition renderMap (buffer : Buffer) : M ImageData :=
  let canvas := newCanvas 256 256 in
  let bufferIndex := (-1)%Z in
  let* final :=
    whileLess 256 (fun xIndex =>
      whileLess 256 (fun yIndex '(canvas, bufferIndex) =>
        let bufferIndex := (bufferIndex + 1)%Z in
        let pixelByte := bufferAt buffer bufferIndex in
        let pixel := paletteAt mapPixelPalette pixelByte in
        console_assert (bool_decide (is_Some pixel))
          ("Unknown color ID: " ++ showByte pixelByte) ;;
        let* canvas :=
          putImageData (paletteAt mapPixelPalette pixelByte) xIndex yIndex canvas in
        ret (canvas, bufferIndex)))
      (canvas, bufferIndex) in
  ret (getImageData 0 0 256 256 (fst final)).

Definition renderPath (buffer : Buffer) : M ImageData :=
  let canvas := newCanvas 256 256 in
  let bufferIndex := (-1)%Z in
  let* final :=
    whileLess 256 (fun xIndex =>
      whileLess 256 (fun yIndex '(canvas, bufferIndex) =>
        let bufferIndex := (bufferIndex + 1)%Z in
        let pixelByte := bufferAt buffer bufferIndex in
        let* canvas :=
          putImageData (paletteAt pathPixelPalette pixelByte) xIndex yIndex canvas in
        ret (canvas, bufferIndex)))
      (canvas, bufferIndex) in
  ret (getImageData 0 0 256 256 (fst final)).

(** ** [parseMarkerData] *)

(** [markers.sort((a, b) => (a.x * 100000 + a.y) - (b.x * 100000 + b.y))]. *)
Definition compareMarkers (a b : marker) : Z :=
  ((x a * 100000 + y a) - (x b * 100000 + y b))%Z.

(** [Array.prototype.sort] is a stable sort: elements the comparator
    does not separate keep their order. The stably sorted arrangement
    of a list is unique, here computed by insertion from the right. *)
Fixpoint sortInsert (compare : marker -> marker -> Z) (a : marker)
    (sorted : list marker) : list marker :=
  match sorted with
  | [] => [a]
  | b :: rest =>
      if (compare a b <=? 0)%Z then a :: b :: rest
      else b :: sortInsert compare a rest
  end.

Definition arraySort (compare : marker -> marker -> Z) (array : list marker)
  : list marker :=
  foldr (sortInsert compare) [] array.

(** [markers.filter(...)] with the [Set] of serialized markers seen so
    far threaded through the calls of the predicate. *)
Fixpoint filterUnique (set : gset jsstring) (array : list marker)
  : list marker :=
  match array with
  | [] => []
  | marker :: rest =>
      let serialized := toLowerCase (JSON_stringify marker) in
      let isDuplicate := bool_decide (serialized ∈ set) in
      let set := set ∪ {[ serialized ]} in
      if negb isDuplicate then marker :: filterUnique set rest
      else filterUnique set rest
  end.

Section FromMaps.

(** [icons.js] is not part of the sources at hand: its table [byID]
    is a parameter. *)
Variable icons_byID : Z -> option jsstring.

(** One turn of the loop [while (markers.length < markerCount)]; the
    loop pushes one marker per turn, so that it runs [markerCount]
    times, counted down by [turns]. *)
Fixpoint readMarkers (turns : nat) (buffer : Buffer) (floor : Z)
    (index : nat) (markers : list marker) : M (list marker) :=
  match turns with
  | O => ret markers
  | S turns =>
      (* The first byte is the [x] offset within this 256x256px tile. *)
      let* xOffset := readUInt8 buffer index in
      let index := S index in
      (* The second byte is the map tile it is in on the [x] axis. *)
      let* xTile := readUInt8 buffer index in
      let index := S index in
      let marker_x := (xTile * 256 + xOffset)%Z in
      (* The next two bytes are blank. *)
      console_assert (negb (index =? 0)) "0" ;;
      let index := S index in
      console_assert (negb (index =? 0)) "0" ;;
      let index := S index in
      (* The next byte is the [y] offset within this 256x256px tile. *)
      let* yOffset := readUInt8 buffer index in
      let index := S index in
      (* The next byte is the map tile it is in on the [y] axis. *)
      let* yTile := readUInt8 buffer index in
      let index := S index in
      let marker_y := (yTile * 256 + yOffset)%Z in
      (* The next two bytes are blank. *)
      console_assert (negb (index =? 0)) "0" ;;
      let index := S index in
      console_assert (negb (index =? 0)) "0" ;;
      let index := S index in
      let marker_z := floor in
      (* The next 4 bytes are the image ID of the marker icon. *)
      let* id := readUIntLE buffer index 4 in
      let index := index + 4 in
      let marker_icon := icons_byID id in
      (* The next 2 bytes indicate the size of the string that follows. *)
      let* descriptionLength := readUIntLE buffer index 2 in
      let index := index + 2 in
      let descriptionBuffer :=
        slice buffer (N.of_nat index)
          (N.of_nat (index + Z.to_nat descriptionLength)) in
      let index := index + Z.to_nat descriptionLength in
      let marker_description := windows1252_decode descriptionBuffer in
      let sorted :=
        {| description := marker_description; icon := marker_icon;
           x := marker_x; y := marker_y; z := marker_z |} in
      readMarkers turns buffer floor index (markers ++ [sorted])
  end.

Definition parseMarkerData (buffer : Buffer) (floor : Z) : M (list marker) :=
  let index := 0 in
  (* The first 4 bytes indicate the number of markers on the map. *)
  let* markerCount := readUIntLE buffer index 4 in
  let index := index + 4 in
  (* If there are no markers, our work is done here. *)
  if (markerCount =? 0)%Z then ret []
  else
    let* markers := readMarkers (Z.to_nat markerCount) buffer floor index [] in
    let markers := arraySort compareMarkers markers in
    (* Remove duplicate markers. *)
    let uniqueMarkers := filterUnique ∅ markers in
    ret uniqueMarkers.

(** *** The collaborators of the drivers

    [id-to-xyz.js], Node's [path.basename], [fs.readFile] on a
    readable file, [glob] and the canvas parser of [fillStyle] texts
    are parameters. *)

Record Coordinates := { coord_x : Z; coord_y : Z; coord_z : Z }.

Variable idToXyz : string -> Coordinates.
Variable path_basename : string -> string -> string.
Variable fs_readFile : string -> Buffer.
Variable glob : string -> list string.
Variable fillStyleColor : string -> RGBA.

(** Modelled from the spec: [handle-sequence.js] is not part of the
    sources at hand; the items are handled one after the other, each
    one once the promise of the one before has resolved. *)
Fixpoint handleSequence {A} (items : list A) (callback : A -> M unit) : M unit :=
  match items with
  | [] => ret tt
  | item :: rest => callback item ;; handleSequence rest callback
  end.

(** Modelled from the spec: [save-canvas-to-png.js] is not part of the
    sources at hand; the canvas is handed over as it is at the call. *)
Definition saveCanvasToPNG (path : string) (canvas : Canvas) : M unit :=
  modify (fun w => set_written (written w ++ [PNG path canvas]) w).

(** Modelled from the spec: [write-json.js] is not part of the sources
    at hand; the object is handed over as it is at the call. *)
Definition writeJSON (path : string) (data : gmap string (list marker)) : M unit :=
  modify (fun w => set_written (written w ++ [JSON path data]) w).

Definition resetContext (context : Canvas) (fillStyle : string) : M Canvas :=
  let* bounds := get G_bounds in
  ret (fillRect (fillStyleColor fillStyle) 0 0 (width bounds) (height bounds)
         context).

Definition resetMarkers : M unit := modify (set_markers ∅).

Definition drawMapSection (fileName : string) (includeMarkers : bool) : M unit :=
  let id := path_basename fileName ".map" in
  let coordinates := idToXyz id in
  let* bounds := get G_bounds in
  let xOffset := ((coord_x coordinates - xMin bounds) * 256)%Z in
  let yOffset := ((coord_y coordinates - yMin bounds) * 256)%Z in
  let buffer := fs_readFile fileName in
  (* The first 0x10000 (256x256) bytes of the map file form the
     graphical portion of the map. *)
  let mapData := slice buffer 0 0x10000 in
  let* mapImageData := renderMap mapData in
  modify (fun w => set_mapCanvas
                     (putPixels mapImageData xOffset yOffset (G_mapCanvas w)) w) ;;
  (* The next 0x10000 bytes form the map that is used for pathfinding. *)
  let pathData := slice buffer 0x10000 0x20000 in
  let* pathImageData := renderPath pathData in
  modify (fun w => set_pathCanvas
                     (putPixels pathImageData xOffset yOffset (G_pathCanvas w)) w) ;;
  (* The remaining bytes are map marker data. *)
  let markerData := sliceFrom buffer 0x20000 in
  (if bool_decide (length markerData = 0)
   then console_warn ("File with invalid marker data: " ++ fileName ++ ". Fix:") ;;
        console_log ("printf '\0\0\0\0' >> " ++ fileName)
   else ret tt) ;;
  (if includeMarkers
   then let* results := parseMarkerData markerData (coord_z coordinates) in
        if bool_decide (length results = 0) then ret tt
        else modify (fun w => set_markers (<[id := results]> (markers w)) w)
   else ret tt) ;;
  (* resolve() *)
  ret tt.

Definition showColor (color : Color) : string :=
  "rgb(" ++ pretty (r color) ++ ", " ++ pretty (g color) ++ ", "
  ++ pretty (b color).

Definition renderFloor (floorID mapDirectory dataDirectory : string)
    (includeMarkers : bool) : M unit :=
  console_log ("Rendering floor " ++ floorID ++ "…") ;;
  let* mapCanvas := get G_mapCanvas in
  let* mapCanvas := resetContext mapCanvas (showColor unexploredMap) in
  modify (set_mapCanvas mapCanvas) ;;
  let* pathCanvas := get G_pathCanvas in
  let* pathCanvas := resetContext pathCanvas (showColor unexploredPath) in
  modify (set_pathCanvas pathCanvas) ;;
  resetMarkers ;;
  let files := glob (mapDirectory ++ "/*" ++ floorID ++ ".map") in
  (* Handle all map files for this floor sequentially. *)
  handleSequence files (fun fileName => drawMapSection fileName includeMarkers) ;;
  let* mapCanvas := get G_mapCanvas in
  saveCanvasToPNG (dataDirectory ++ "/floor-" ++ floorID ++ "-map.png") mapCanvas ;;
  let* pathCanvas := get G_pathCanvas in
  saveCanvasToPNG (dataDirectory ++ "/floor-" ++ floorID ++ "-path.png") pathCanvas ;;
  let* markers := get markers in
  writeJSON (dataDirectory ++ "/floor-" ++ floorID ++ "-markers.json")
    (if includeMarkers then markers else ∅).

Definition convertFromMaps (bounds : Bounds) (mapDirectory dataDirectory : string)
    (includeMarkers : bool) : M unit :=
  modify (set_bounds bounds) ;;
  modify (set_mapCanvas (newCanvas (width bounds) (height bounds))) ;;
  modify (set_pathCanvas (newCanvas (width bounds) (height bounds))) ;;
  let mapDirectory := if bool_decide (mapDirectory = EmptyString) then "Automap"
                      else mapDirectory in
  let dataDirectory := if bool_decide (dataDirectory = EmptyString) then "data"
                       else dataDirectory in
  handleSequence (floorIDs bounds) (fun floorID =>
    renderFloor floorID mapDirectory dataDirectory includeMarkers).

End FromMaps.


(** ** [colors.js]: the reverse table *)

(** [Object.keys] of an object whose keys are array indices: the keys
    in ascending order. *)
Definition Object_keys {A} (object : gmap Z A) : list Z :=
  merge_sort Z.le (elements (dom object)).

(** The text of [`${color.r},${color.g},${color.b}`]. *)
Definition colorId (color : Color) : string :=
  pretty (r color) ++ "," ++ pretty (g color) ++ "," ++ pretty (b color).

Definition byColor : gmap string Z :=
  foldl (fun (byColor : gmap string Z) key =>
           let byteValue := key in
           let color := byByte !!! byteValue in
           let id := colorId color in
           <[id := byteValue]> byColor)
        ∅ (Object_keys byByte).
(** * Vocabulary of the statements *)

(** ** The two renderers as one loop *)

Definition renderBody (assertKnown : bool) (palette : gmap Z ImageData)
    (buffer : Buffer) (xIndex yIndex : Z) (st : Canvas * Z) : M (Canvas * Z) :=
  let '(canvas, bufferIndex) := st in
  let bufferIndex := (bufferIndex + 1)%Z in
  let pixelByte := bufferAt buffer bufferIndex in
  (if assertKnown
   then console_assert (bool_decide (is_Some (paletteAt palette pixelByte)))
          ("Unknown color ID: " ++ showByte pixelByte)
   else ret tt) ;;
  let* canvas := putImageData (paletteAt palette pixelByte) xIndex yIndex canvas in
  ret (canvas, bufferIndex).

Definition renderWith (assertKnown : bool) (palette : gmap Z ImageData)
    (buffer : Buffer) : M ImageData :=
  let* final :=
    whileLess 256 (fun xIndex =>
      whileLess 256 (renderBody assertKnown palette buffer xIndex))
      (newCanvas 256 256, (-1)%Z) in
  ret (getImageData 0 0 256 256 (fst final)).

Definition knownAt (palette : gmap Z ImageData) (buffer : Buffer) (i : Z) : Prop :=
  is_Some (paletteAt palette (bufferAt buffer i)).

Definition colourAt (palette : gmap Z ImageData) (buffer : Buffer) (i : Z) : RGBA :=
  match paletteAt palette (bufferAt buffer i) with
  | Some img => idata img 0%Z 0%Z
  | None => Pixel 0 0 0 0
  end.

(** The canvas of a renderer after the positions [ks], all of them known. *)
Fixpoint paintAll (palette : gmap Z ImageData) (buffer : Buffer) (ks : list Z)
    (canvas : Canvas) : Canvas :=
  match ks with
  | [] => canvas
  | k :: ks =>
      match paletteAt palette (bufferAt buffer k) with
      | Some img =>
          paintAll palette buffer ks (putPixels img (k / 256) (k mod 256) canvas)
      | None => canvas
      end
  end.

(** The image that a renderer returns for a layer. *)
Definition renderedImage (palette : gmap Z ImageData) (buffer : Buffer)
  : ImageData :=
  getImageData 0 0 256 256
    (paintAll palette buffer (seqZ 0 65536) (newCanvas 256 256)).

(** Every image of the palette is a single pixel. *)
Definition unitPalette (palette : gmap Z ImageData) : Prop :=
  forall k img, palette !! k = Some img -> iwidth img = 1%Z /\ iheight img = 1%Z.

(** The world after the assertion of [renderMap] has failed on [pixelByte]. *)
Definition assertFailed (a : bool) (pixelByte : option byte) (w : World) : World :=
  if a
  then set_console
         (console w ++ [console_assert_line ("Unknown color ID: " ++ showByte pixelByte)]) w
  else w.

Global Instance knownAt_dec palette buffer i : Decision (knownAt palette buffer i).
Proof. unfold knownAt. apply _. Defined.

(** The color the specification gives to a pathfinding byte. *)
Definition spec_pathColor (value : Z) : Color :=
  if (value =? 0xFA)%Z then RGB 250 250 250
  else if (value =? 0xFF)%Z then RGB 255 255 0
  else RGB value value value.


(** ** The layout of a marker block *)

(** The byte at an offset, as a number ([0] outside the buffer). *)
Definition byteZ (buffer : Buffer) (i : nat) : Z :=
  from_option byteVal 0%Z (buffer !! i).

(** The count announced by the first four bytes. *)
Definition markerCountOf (buffer : Buffer) : nat :=
  Z.to_nat (leValue (take 4 buffer)).

(** The description length announced by the record at [index]. *)
Definition descriptionLengthAt (buffer : Buffer) (index : nat) : nat :=
  Z.to_nat (leValue (take 2 (drop (index + 12) buffer))).

(** Where the record after the one at [index] starts. *)
Definition nextRecord (buffer : Buffer) (index : nat) : nat :=
  index + 14 + descriptionLengthAt buffer index.

(** Where the [k]-th record after the one at [index] starts. *)
Fixpoint recordStartFrom (buffer : Buffer) (index k : nat) : nat :=
  match k with
  | O => index
  | S k => recordStartFrom buffer (nextRecord buffer index) k
  end.

(** The records of a block follow its four count bytes. *)
Definition recordStart (buffer : Buffer) (k : nat) : nat :=
  recordStartFrom buffer 4 k.

(** The fourteen fixed bytes of each of the first [n] records lie in
    the buffer. *)
Definition fixedPartsFit (buffer : Buffer) (index n : nat) : Prop :=
  forall k, k < n -> recordStartFrom buffer index k + 14 <= length buffer.

(** A well-formed block: the count and all the records it announces,
    descriptions included, lie in the buffer. *)
Definition wellFormedBlock (buffer : Buffer) : Prop :=
  4 <= length buffer
  /\ recordStart buffer (markerCountOf buffer) <= length buffer.

(** The four reserved offsets of each of the first [n] records. *)
Definition reservedOffset (buffer : Buffer) (index n : nat) (i : nat) : Prop :=
  exists k, k < n /\
    let start := recordStartFrom buffer index k in
    i = start + 2 \/ i = start + 3 \/ i = start + 6 \/ i = start + 7.

(** Two blocks that differ at most in reserved bytes. *)
Definition reservedVariant (buffer buffer' : Buffer) : Prop :=
  length buffer = length buffer'
  /\ forall i, ~ reservedOffset buffer 4 (markerCountOf buffer) i ->
               buffer !! i = buffer' !! i.

(** From [index] on, the two buffers agree outside the reserved
    offsets of the [n] records that start at [index]. *)
Definition agreeFrom (buffer buffer' : Buffer) (index n : nat) : Prop :=
  forall i, index <= i -> ~ reservedOffset buffer index n i ->
            buffer !! i = buffer' !! i.

Section MarkerVocabulary.

Variable icons_byID : Z -> option jsstring.

(** The marker that the record at [index] stands for. *)
Definition markerAt (buffer : Buffer) (floor : Z) (index : nat) : marker :=
  {| description :=
       windows1252_decode
         (take (descriptionLengthAt buffer index) (drop (index + 14) buffer));
     icon := icons_byID (leValue (take 4 (drop (index + 8) buffer)));
     x := (byteZ buffer (index + 1) * 256 + byteZ buffer index)%Z;
     y := (byteZ buffer (index + 5) * 256 + byteZ buffer (index + 4))%Z;
     z := floor |}.

(** The markers of [n] consecutive records, in the order of the block. *)
Fixpoint markersFrom (buffer : Buffer) (floor : Z) (index n : nat) : list marker :=
  match n with
  | O => []
  | S n => markerAt buffer floor index
           :: markersFrom buffer floor (nextRecord buffer index) n
  end.

End MarkerVocabulary.

(** The text under which [parseMarkerData] recognises a duplicate. *)
Definition serialized (m : marker) : jsstring := toLowerCase (JSON_stringify m).

(** Equal fields, the description compared without regard to case. *)
Definition sameIgnoringCase (a b : marker) : Prop :=
  x a = x b /\ y a = y b /\ z a = z b /\ icon a = icon b
  /\ toLowerCase (description a) = toLowerCase (description b).

(** The key of the ordering of markers. *)
Definition sortKey (m : marker) : Z := (x m * 100000 + y m)%Z.

(** ** What a run does with one file *)

(** A block that [parseMarkerData] decodes, and what it decodes to. *)
Definition decodable (buffer : Buffer) : Prop :=
  4 <= length buffer /\ fixedPartsFit buffer 4 (markerCountOf buffer).

Definition decodedMarkers (icons_byID : Z -> option jsstring)
    (buffer : Buffer) (floor : Z) : list marker :=
  filterUnique ∅ (arraySort compareMarkers
    (markersFrom icons_byID buffer floor 4 (markerCountOf buffer))).

Section TileVocabulary.

Variable icons_byID : Z -> option jsstring.
Variable idToXyz : string -> Coordinates.
Variable path_basename : string -> string -> string.
Variable fs_readFile : string -> Buffer.

Definition tileId (fileName : string) : string := path_basename fileName ".map".

Definition tileCoordinates (fileName : string) : Coordinates :=
  idToXyz (tileId fileName).

Definition mapData (fileName : string) : Buffer :=
  slice (fs_readFile fileName) 0 0x10000.

Definition pathData (fileName : string) : Buffer :=
  slice (fs_readFile fileName) 0x10000 0x20000.

Definition markerData (fileName : string) : Buffer :=
  sliceFrom (fs_readFile fileName) 0x20000.

(** Both layers of the file are complete and use known bytes only. *)
Definition layersDecode (fileName : string) : Prop :=
  (forall i, 0 <= i < 65536 -> knownAt mapPixelPalette (mapData fileName) i)%Z
  /\ (forall i, 0 <= i < 65536 -> knownAt pathPixelPalette (pathData fileName) i)%Z.

Definition tileOffsetX (fileName : string) (w : World) : Z :=
  ((coord_x (tileCoordinates fileName) - xMin (G_bounds w)) * 256)%Z.

Definition tileOffsetY (fileName : string) (w : World) : Z :=
  ((coord_y (tileCoordinates fileName) - yMin (G_bounds w)) * 256)%Z.

(** The world once both layers of the file are on the floor canvases. *)
Definition drawnLayers (fileName : string) (w : World) : World :=
  let w1 :=
    set_mapCanvas
      (putPixels (renderedImage mapPixelPalette (mapData fileName))
         (tileOffsetX fileName w) (tileOffsetY fileName w) (G_mapCanvas w)) w in
  set_pathCanvas
    (putPixels (renderedImage pathPixelPalette (pathData fileName))
       (tileOffsetX fileName w) (tileOffsetY fileName w) (G_pathCanvas w1)) w1.

(** The world once an empty marker block has been reported. *)
Definition warned (fileName : string) (w : World) : World :=
  if bool_decide (length (markerData fileName) = 0)
  then set_console
         (console w
          ++ [console_warn_line
                ("File with invalid marker data: " ++ fileName ++ ". Fix:");
              console_log_line ("printf '\0\0\0\0' >> " ++ fileName)]) w
  else w.

(** The world once the markers of the file are kept. *)
Definition stored (fileName : string) (results : list marker) (w : World) : World :=
  if bool_decide (length results = 0) then w
  else set_markers (<[tileId fileName := results]> (markers w)) w.

(** The part of [drawMapSection] that follows the two layers. *)
Definition markerSection (fileName : string) (includeMarkers : bool) : M unit :=
  let markerData := markerData fileName in
  (if bool_decide (length markerData = 0)
   then console_warn ("File with invalid marker data: " ++ fileName ++ ". Fix:") ;;
        console_log ("printf '\0\0\0\0' >> " ++ fileName)
   else ret tt) ;;
  (if includeMarkers
   then let* results := parseMarkerData icons_byID markerData
                          (coord_z (tileCoordinates fileName)) in
        if bool_decide (length results = 0) then ret tt
        else modify (fun w => set_markers
                                (<[tileId fileName := results]> (markers w)) w)
   else ret tt) ;;
  ret tt.

End TileVocabulary.

(** Two worlds that differ at most in the marker accumulator. *)
Definition sameButMarkers (w w' : World) : Prop :=
  G_bounds w = G_bounds w' /\ G_mapCanvas w = G_mapCanvas w'
  /\ G_pathCanvas w = G_pathCanvas w' /\ console w = console w'
  /\ written w = written w'.

(** ** What a run does with one floor *)

Section FloorVocabulary.

Variable glob : string -> list string.
Variable fillStyleColor : string -> RGBA.

(** The world once [renderFloor] has reset the canvases and the markers. *)
Definition floorStart (floorID : string) (w : World) : World :=
  let w1 :=
    set_console
      (console w ++ [console_log_line ("Rendering floor " ++ floorID ++ "…")]) w in
  let w2 :=
    set_mapCanvas
      (fillRect (fillStyleColor (showColor unexploredMap)) 0 0
         (width (G_bounds w1)) (height (G_bounds w1)) (G_mapCanvas w1)) w1 in
  let w3 :=
    set_pathCanvas
      (fillRect (fillStyleColor (showColor unexploredPath)) 0 0
         (width (G_bounds w2)) (height (G_bounds w2)) (G_pathCanvas w2)) w2 in
  set_markers ∅ w3.

Definition floorFiles (floorID mapDirectory : string) : list string :=
  glob (mapDirectory ++ "/*" ++ floorID ++ ".map").

(** What [renderFloor] hands over once every file has been drawn. *)
Definition floorOutput (floorID dataDirectory : string) (includeMarkers : bool)
    (w : World) : list FileWrite :=
  [ PNG (dataDirectory ++ "/floor-" ++ floorID ++ "-map.png") (G_mapCanvas w);
    PNG (dataDirectory ++ "/floor-" ++ floorID ++ "-path.png") (G_pathCanvas w);
    JSON (dataDirectory ++ "/floor-" ++ floorID ++ "-markers.json")
      (if includeMarkers then markers w else ∅) ].

End FloorVocabulary.

(** ** Sample inputs *)

(** A record as it lies in a block: the declared description length
    is given on its own, so that it may disagree with the description. *)
Definition sampleRecord (xOffset xTile yOffset yTile reserved declared : byte)
    (text : list byte) : Buffer :=
  [xOffset; xTile; reserved; reserved; yOffset; yTile; reserved; reserved;
   x00; x00; x00; x00; declared; x00] ++ text.

(** Markers at (10,20), (5,5) and (10,10), in this order. *)
Definition orderBlock : Buffer :=
  [x03; x00; x00; x00]
  ++ sampleRecord x0a x00 x14 x00 x00 x00 []
  ++ sampleRecord x05 x00 x05 x00 x00 x00 []
  ++ sampleRecord x0a x00 x0a x00 x00 x00 [].

(** Two markers at (10,20) described as "Ab" and "aB", then one at (5,5). *)
Definition duplicateBlock : Buffer :=
  [x03; x00; x00; x00]
  ++ sampleRecord x0a x00 x14 x00 x00 x02 [x41; x62]
  ++ sampleRecord x0a x00 x14 x00 x00 x02 [x61; x42]
  ++ sampleRecord x05 x00 x05 x00 x00 x00 [].

(** [duplicateBlock] with other reserved bytes. *)
Definition duplicateBlock_reserved : Buffer :=
  [x03; x00; x00; x00]
  ++ sampleRecord x0a x00 x14 x00 xff x02 [x41; x62]
  ++ sampleRecord x0a x00 x14 x00 x2a x02 [x61; x42]
  ++ sampleRecord x05 x00 x05 x00 x01 x00 [].

(** One marker that announces five description bytes and has two. *)
Definition cutDescriptionBlock : Buffer :=
  [x01; x00; x00; x00] ++ sampleRecord x0a x00 x14 x00 x00 x05 [x41; x62].

(** Two markers announced, one present. *)
Definition cutRecordBlock : Buffer :=
  [x02; x00; x00; x00] ++ sampleRecord x0a x00 x14 x00 x00 x02 [x41; x62].

Definition sample_icons (id : Z) : option jsstring :=
  if (id =? 0)%Z then Some (lit "checkmark") else None.

(** The reserved offsets of [n] records, listed. *)
Fixpoint reservedOffsets (buffer : Buffer) (index n : nat) : list nat :=
  match n with
  | O => []
  | S n => [index + 2; index + 3; index + 6; index + 7]
           ++ reservedOffsets buffer (nextRecord buffer index) n
  end.

(** [n] zero bytes. *)
Definition zeros (n : N) : Buffer := N.iter n (cons x00) [].

(** A small file system: one tile, 12712113, in several directories. *)
Definition sample_readFile (fileName : string) : Buffer :=
  if String.eqb fileName "zeros/12712113.map"
  then zeros 0x10000 ++ zeros 0x10000 ++ [x00; x00; x00; x00]
  else if String.eqb fileName "empty/12712113.map"
  then zeros 0x10000 ++ zeros 0x10000 ++ []
  else if String.eqb fileName "green/12712113.map"
  then ([x00; x0c] ++ zeros 0xFFFE) ++ zeros 0x10000 ++ [x00; x00; x00; x00]
  else if String.eqb fileName "unknown/12712113.map"
  then ([x01] ++ zeros 0xFFFF) ++ zeros 0x10000 ++ [x00; x00; x00; x00]
  else if String.eqb fileName "cut/12712113.map"
  then zeros 0x10000 ++ zeros 0x10000 ++ cutRecordBlock
  else if String.eqb fileName "marked/12712113.map"
  then zeros 0x10000 ++ zeros 0x10000 ++ duplicateBlock
  else [].

Definition sample_glob (pattern : string) : list string :=
  if String.eqb pattern "zeros/*13.map" then ["zeros/12712113.map"]
  else if String.eqb pattern "empty/*13.map" then ["empty/12712113.map"]
  else if String.eqb pattern "unknown/*13.map"
  then ["unknown/12712113.map"; "zeros/12712113.map"]
  else if String.eqb pattern "cut/*13.map"
  then ["cut/12712113.map"; "zeros/12712113.map"]
  else if String.eqb pattern "marked/*13.map"
  then ["marked/12712113.map"; "zeros/12712113.map"]
  else [].

Definition hasSlash (s : string) : bool :=
  existsb (fun a => Ascii.eqb a "/") (list_ascii_of_string s).

Fixpoint lastSegment (s : string) : string :=
  match s with
  | EmptyString => EmptyString
  | String _ rest => if hasSlash s then lastSegment rest else s
  end.

(** [path.basename(path, ext)] on the names above. *)
Definition sample_basename (path ext : string) : string :=
  let name := lastSegment path in
  let n := String.length name - String.length ext in
  if String.eqb (substring n (String.length ext) name) ext
  then substring 0 n name else name.

Definition digitsValue (s : string) : Z :=
  fold_left (fun acc a => (acc * 10 + (Z.of_N (N_of_ascii a) - 48))%Z)
    (list_ascii_of_string s) 0%Z.

(** Modelled from the spec: [id-to-xyz.js] is not part of the sources
    at hand; a tile identifier packs the three coordinates in a fixed
    number of decimal digits, three for [x], three for [y], two for [z]. *)
Definition sample_idToXyz (id : string) : Coordinates :=
  {| coord_x := digitsValue (substring 0 3 id);
     coord_y := digitsValue (substring 3 3 id);
     coord_z := digitsValue (substring 6 2 id) |}.

Definition sample_fillStyleColor (fillStyle : string) : RGBA := Pixel 0 0 0 255.

Definition sample_bounds : Bounds :=
  {| xMin := 127; xMax := 127; yMin := 121; yMax := 121;
     width := 256; height := 256; floorIDs := ["13"] |}.

Definition sample_world : World :=
  {| G_bounds := sample_bounds;
     G_mapCanvas := newCanvas 256 256;
     G_pathCanvas := newCanvas 256 256;
     markers := ∅; console := []; written := [] |}.

Abbreviation sample_draw :=
  (drawMapSection sample_icons sample_idToXyz sample_basename sample_readFile).

Abbreviation sample_floor :=
  (renderFloor sample_icons sample_idToXyz sample_basename sample_readFile
     sample_glob sample_fillStyleColor).

(** ** Vocabulary of the further properties *)

(** The color of a pathfinding byte as a pixel. *)
Definition pathPixel (byte : byte) : RGBA :=
  let color := spec_pathColor (byteVal byte) in
  Pixel (r color) (g color) (b color) 255.

(** A color as an opaque pixel. *)
Definition opaque (color : Color) : RGBA :=
  Pixel (r color) (g color) (b color) 255.

(** The world in which a computation ends, whichever way it ends. *)
Definition finalWorld {A} (o : Outcome A) : World :=
  match o with
  | Returned _ w => w
  | Thrown _ w => w
  end.

(** What no part of a conversion changes once the canvases exist: the
    bounds, the sizes of the two canvases and the files handed over so
    far; the console only grows. *)
Definition frame (w w' : World) : Prop :=
  G_bounds w' = G_bounds w
  /\ written w' = written w
  /\ cwidth (G_mapCanvas w') = cwidth (G_mapCanvas w)
  /\ cheight (G_mapCanvas w') = cheight (G_mapCanvas w)
  /\ cwidth (G_pathCanvas w') = cwidth (G_pathCanvas w)
  /\ cheight (G_pathCanvas w') = cheight (G_pathCanvas w)
  /\ exists lines, console w' = console w ++ lines.

(** Two canvases of the same size with the same pixels. *)
Definition sameRaster (c c' : Canvas) : Prop :=
  cwidth c = cwidth c' /\ cheight c = cheight c'
  /\ forall col row, cpixel c col row = cpixel c' col row.

Section FloorRasters.

Variable icons_byID : Z -> option jsstring.
Variable idToXyz : string -> Coordinates.
Variable path_basename : string -> string -> string.
Variable fs_readFile : string -> Buffer.

(** The square of the floor canvas that belongs to a tile. *)
Definition inTile (fileName : string) (w : World) (col row : Z) : Prop :=
  (tileOffsetX idToXyz path_basename fileName w <= col
   < tileOffsetX idToXyz path_basename fileName w + 256
   /\ tileOffsetY idToXyz path_basename fileName w <= row
      < tileOffsetY idToXyz path_basename fileName w + 256)%Z.

Definition mapLayer (fileName : string) : ImageData :=
  renderedImage mapPixelPalette (mapData fs_readFile fileName).

Definition pathLayer (fileName : string) : ImageData :=
  renderedImage pathPixelPalette (pathData fs_readFile fileName).

(** A canvas after the layers of the files have been put on it, one
    file after the other. *)
Definition composite (layer : string -> ImageData) (files : list string)
    (w : World) (canvas : Canvas) : Canvas :=
  foldl (fun canvas fileName =>
           putPixels (layer fileName)
             (tileOffsetX idToXyz path_basename fileName w)
             (tileOffsetY idToXyz path_basename fileName w) canvas)
        canvas files.

(** The marker accumulator after the blocks of the files have been
    decoded, one file after the other. *)
Definition collected (files : list string) (found : gmap string (list marker))
  : gmap string (list marker) :=
  foldl (fun found fileName =>
           let results :=
             decodedMarkers icons_byID (markerData fs_readFile fileName)
               (coord_z (tileCoordinates idToXyz path_basename fileName)) in
           if bool_decide (length results = 0) then found
           else <[tileId path_basename fileName := results]> found)
        found files.

(** The column and the row of a tile on its floor. *)
Definition tilePlace (fileName : string) : Z * Z :=
  (coord_x (tileCoordinates idToXyz path_basename fileName),
   coord_y (tileCoordinates idToXyz path_basename fileName)).

(** The world in which [drawMapSection] resolves. *)
Definition drawn (fileName : string) (includeMarkers : bool) (w : World) : World :=
  let w1 := warned fs_readFile fileName
              (drawnLayers idToXyz path_basename fs_readFile fileName w) in
  if includeMarkers
  then stored path_basename fileName
         (decodedMarkers icons_byID (markerData fs_readFile fileName)
            (coord_z (tileCoordinates idToXyz path_basename fileName))) w1
  else w1.

End FloorRasters.

(** The directory that [convertFromMaps] writes to. *)
Definition dataDirectoryOr (dataDirectory : string) : string :=
  if bool_decide (dataDirectory = EmptyString) then "data" else dataDirectory.

(** The three files of a floor, the two rasters as large as the bounds. *)
Definition floorFilesOf (bounds : Bounds) (dataDirectory : string)
    (includeMarkers : bool) (floorID : string) (files : list FileWrite) : Prop :=
  exists mapRaster pathRaster found,
    files = [ PNG (dataDirectory ++ "/floor-" ++ floorID ++ "-map.png") mapRaster;
              PNG (dataDirectory ++ "/floor-" ++ floorID ++ "-path.png") pathRaster;
              JSON (dataDirectory ++ "/floor-" ++ floorID ++ "-markers.json") found ]
    /\ cwidth mapRaster = width bounds /\ cheight mapRaster = height bounds
    /\ cwidth pathRaster = width bounds /\ cheight pathRaster = height bounds
    /\ (includeMarkers = false -> found = ∅).

(** The canvases of the world are as large as the bounds. *)
Definition sized (bounds : Bounds) (w : World) : Prop :=
  G_bounds w = bounds
  /\ cwidth (G_mapCanvas w) = width bounds
  /\ cheight (G_mapCanvas w) = height bounds
  /\ cwidth (G_pathCanvas w) = width bounds
  /\ cheight (G_pathCanvas w) = height bounds.

(** Two worlds with the same bounds and canvases of the same sizes. *)
Definition sameShape (w w' : World) : Prop :=
  G_bounds w' = G_bounds w
  /\ cwidth (G_mapCanvas w') = cwidth (G_mapCanvas w)
  /\ cheight (G_mapCanvas w') = cheight (G_mapCanvas w)
  /\ cwidth (G_pathCanvas w') = cwidth (G_pathCanvas w)
  /\ cheight (G_pathCanvas w') = cheight (G_pathCanvas w).

(** The world once [convertFromMaps] has set the bounds and created
    the two canvases. *)
Definition conversionStart (bounds : Bounds) (w : World) : World :=
  set_pathCanvas (newCanvas (width bounds) (height bounds))
    (set_mapCanvas (newCanvas (width bounds) (height bounds))
       (set_bounds bounds w)).

(** The directory that [convertFromMaps] reads from. *)
Definition mapDirectoryOr (mapDirectory : string) : string :=
  if bool_decide (mapDirectory = EmptyString) then "Automap" else mapDirectory.

(** The order of [x] first and [y] second. *)
Definition byPlace (a b : marker) : Prop :=
  (x a < x b \/ (x a = x b /\ y a <= y b))%Z.

Section Warnings.

Variable fs_readFile : string -> Buffer.

(** The two lines that [drawMapSection] prints for a file without
    marker block. *)
Definition warnLines (fileName : string) : list LogLine :=
  if bool_decide (length (markerData fs_readFile fileName) = 0)
  then [ console_warn_line
           ("File with invalid marker data: " ++ fileName ++ ". Fix:");
         console_log_line ("printf '\0\0\0\0' >> " ++ fileName) ]
  else [].

End Warnings.

(** ** Further sample inputs *)

(** The sample file system with a second tile, 12812113, to the right
    of the first. *)
Definition pair_readFile (fileName : string) : Buffer :=
  if String.eqb fileName "pair/12812113.map"
  then zeros 0x10000 ++ zeros 0x10000 ++ [x00; x00; x00; x00]
  else sample_readFile fileName.

Definition pair_bounds : Bounds :=
  {| xMin := 127; xMax := 128; yMin := 121; yMax := 121;
     width := 512; height := 256; floorIDs := ["13"] |}.

Definition pair_world : World :=
  {| G_bounds := pair_bounds;
     G_mapCanvas := newCanvas 512 256;
     G_pathCanvas := newCanvas 512 256;
     markers := ∅; console := []; written := [] |}.

(** The sample world after some other floor: the map canvas painted,
    a marker kept. *)
Definition used_world : World :=
  set_markers {[ "12712112" := [ {| description := lit "Ab"; icon := None;
                                    x := 10; y := 20; z := 12 |} ] ]}
    (set_mapCanvas (fillRect (Pixel 1 2 3 255) 0 0 256 256 (newCanvas 256 256))
       sample_world).

(** ** Reading a serialized marker back *)

(** The value of a hexadecimal digit in lower case. *)
Definition unhexDigit (d : N) : N :=
  if (d <? 0x3A)%N then (d - 0x30)%N else (d - 0x61 + 10)%N.

(** The first code unit of the inside of a lower-cased JSON string,
    with what follows it; nothing at the closing quote. *)
Definition unquoteUnit (s : jsstring) : option (N * jsstring) :=
  match s with
  | [] => None
  | c :: rest =>
      if (c =? 0x22)%N then None
      else if (c =? 0x5C)%N
      then match rest with
           | [] => None
           | e :: rest =>
               if (e =? 0x22)%N then Some (0x22%N, rest)
               else if (e =? 0x5C)%N then Some (0x5C%N, rest)
               else if (e =? 0x62)%N then Some (0x08%N, rest)
               else if (e =? 0x66)%N then Some (0x0C%N, rest)
               else if (e =? 0x6E)%N then Some (0x0A%N, rest)
               else if (e =? 0x72)%N then Some (0x0D%N, rest)
               else if (e =? 0x74)%N then Some (0x09%N, rest)
               else match rest with
                    | _ :: _ :: h1 :: h2 :: rest =>
                        Some ((unhexDigit h1 * 16 + unhexDigit h2)%N, rest)
                    | _ => None
                    end
           end
      else Some (c, rest)
  end.

(** A table of icon names in lower-case ASCII: on such names
    [toLowerCase] is exact and changes nothing. *)
Definition lowerCaseIcons (icons_byID : Z -> option jsstring) : Prop :=
  forall id name, icons_byID id = Some name ->
    Forall (fun c => (c < 0x41 \/ 0x5A < c < 0x80)%N) name.

(** Equal fields, the two texts compared without regard to case: what
    the filter of [parseMarkerData] takes for the same marker. *)
Definition sameUpToCase (a b : marker) : Prop :=
  x a = x b /\ y a = y b /\ z a = z b
  /\ toLowerCase <$> icon a = toLowerCase <$> icon b
  /\ toLowerCase (description a) = toLowerCase (description b).

(** The code units of a number: the digits and the sign. *)
Definition numeric (c : N) : Prop := (0x30 <= c <= 0x39 \/ c = 0x2D)%N.

(** The end of a serialized marker: its three numbers. *)
Definition positionText (m : marker) : jsstring :=
  toLowerCase (lit "," ++ JSON_key "x") ++ JSON_number (x m)
  ++ 0x2C%N :: toLowerCase (JSON_key "y") ++ JSON_number (y m)
  ++ 0x2C%N :: toLowerCase (JSON_key "z") ++ JSON_number (z m)
  ++ [0x7D%N].

(** The two-tile world after some other floor: the map canvas
    painted, a marker kept. *)
Definition painted_world : World :=
  set_markers {[ "12712112" := [ {| description := lit "Ab"; icon := None;
                                    x := 10; y := 20; z := 12 |} ] ]}
    (set_mapCanvas (fillRect (Pixel 1 2 3 255) 0 0 512 256 (newCanvas 512 256))
       pair_world).

(** Two floors of one tile each; the tile of the second floor starts
    with a byte that [byByte] does not know. *)
Definition floors_readFile (fileName : string) : Buffer :=
  if String.eqb fileName "floors/12712113.map"
  then zeros 0x10000 ++ zeros 0x10000 ++ [x00; x00; x00; x00]
  else if String.eqb fileName "floors/12712114.map"
  then ([x01] ++ zeros 0xFFFF) ++ zeros 0x10000 ++ [x00; x00; x00; x00]
  else [].

Definition floors_glob (pattern : string) : list string :=
  if String.eqb pattern "floors/*13.map" then ["floors/12712113.map"]
  else if String.eqb pattern "floors/*14.map" then ["floors/12712114.map"]
  else [].

Definition floors_bounds : Bounds :=
  {| xMin := 127; xMax := 127; yMin := 121; yMax := 121;
     width := 256; height := 256; floorIDs := ["13"; "14"] |}.
(** * Proofs *)

(** ** The monad *)

Lemma bind_Returned {A B} (c : M A) (k : A -> M B) w a w' :
  c w = Returned a w' -> bind c k w = k a w'.
Proof. intros H. unfold bind. now rewrite H. Qed.

Lemma bind_Thrown {A B} (c : M A) (k : A -> M B) w e w' :
  c w = Thrown e w' -> bind c k w = Thrown e w'.
Proof. intros H. unfold bind. now rewrite H. Qed.

Lemma Returned_inj {A} (a a' : A) w w' :
  Returned a w = Returned a' w' -> a = a' /\ w = w'.
Proof. intros H. injection H as -> ->. auto. Qed.

Lemma bind_inv_Returned {A B} (c : M A) (k : A -> M B) w b w'' :
  bind c k w = Returned b w'' ->
  exists a w', c w = Returned a w' /\ k a w' = Returned b w''.
Proof.
  unfold bind. destruct (c w) as [a w'|e w']; [eauto | discriminate].
Qed.

Lemma forIndices_app {S} (l1 l2 : list Z) (body : Z -> S -> M S) s w :
  forIndices (l1 ++ l2) body s w =
  bind (forIndices l1 body s) (forIndices l2 body) w.
Proof.
  revert s w. induction l1 as [|i l1 IH]; intros s w; simpl.
  - reflexivity.
  - unfold bind in *. destruct (body i s w) as [s' w'|e w']; [|reflexivity].
    apply IH.
Qed.

(** ** Slices *)

Lemma dropN_drop {A} (n : N) (l : list A) : dropN n l = drop (N.to_nat n) l.
Proof.
  revert n. induction l as [|a l IH]; intros n; cbn [dropN].
  - now rewrite drop_nil.
  - destruct (N.eqb_spec n 0) as [->|Hn]; [reflexivity|].
    rewrite IH. replace (N.to_nat n) with (S (N.to_nat (N.pred n))) by lia.
    reflexivity.
Qed.

Lemma takeN_take {A} (n : N) (l : list A) : takeN n l = take (N.to_nat n) l.
Proof.
  revert n. induction l as [|a l IH]; intros n; cbn [takeN].
  - now rewrite take_nil.
  - destruct (N.eqb_spec n 0) as [->|Hn]; [reflexivity|].
    rewrite IH. replace (N.to_nat n) with (S (N.to_nat (N.pred n))) by lia.
    reflexivity.
Qed.

Lemma slice_take_drop (buffer : Buffer) (start end_ : N) :
  slice buffer start end_
  = take (N.to_nat end_ - N.to_nat start) (drop (N.to_nat start) buffer).
Proof.
  unfold slice. rewrite takeN_take, dropN_drop. f_equal. lia.
Qed.

Lemma slice_of_nat (buffer : Buffer) (start len : nat) :
  slice buffer (N.of_nat start) (N.of_nat (start + len))
  = take len (drop start buffer).
Proof.
  rewrite slice_take_drop, !Nat2N.id. f_equal. lia.
Qed.

(** ** The two renderers as one loop *)

Lemma renderMap_renderWith buffer :
  renderMap buffer = renderWith true mapPixelPalette buffer.
Proof. reflexivity. Qed.

Lemma renderPath_renderWith buffer :
  renderPath buffer = renderWith false pathPixelPalette buffer.
Proof. reflexivity. Qed.

Lemma forIndices_row {S} (ys : list Z) (f : Z -> Z -> S -> M S) (x : Z) s w :
  Forall (fun y => 0 <= y < 256)%Z ys ->
  forIndices ((fun y => x * 256 + y)%Z <$> ys)
    (fun k => f (k / 256) (k mod 256))%Z s w
  = forIndices ys (f x) s w.
Proof.
  intros Hys. revert s w.
  induction Hys as [|y ys Hy _ IH]; intros s w; simpl; [reflexivity|].
  replace ((x * 256 + y) / 256)%Z with x by (zify; Z.div_mod_to_equations; lia).
  replace ((x * 256 + y) mod 256)%Z with y by (zify; Z.div_mod_to_equations; lia).
  unfold bind. destruct (f x y s w); [apply IH | reflexivity].
Qed.

Lemma forIndices_nested {S} (xs ys : list Z) (f : Z -> Z -> S -> M S) s w :
  Forall (fun y => 0 <= y < 256)%Z ys ->
  forIndices xs (fun x => forIndices ys (f x)) s w
  = forIndices (x ← xs; (fun y => x * 256 + y)%Z <$> ys)
      (fun k => f (k / 256) (k mod 256))%Z s w.
Proof.
  intros Hys. revert s w.
  induction xs as [|x xs IH]; intros s w; [reflexivity|].
  change ((x :: xs) ≫= (fun x => (fun y => x * 256 + y)%Z <$> ys))
    with (((fun y => x * 256 + y)%Z <$> ys)
          ++ (xs ≫= (fun x => (fun y => x * 256 + y)%Z <$> ys))).
  rewrite forIndices_app. simpl. unfold bind.
  rewrite forIndices_row by assumption.
  destruct (forIndices ys (f x) s w); [apply IH | reflexivity].
Qed.

Lemma seqZ_rows (b : Z) (n : nat) :
  (0 <= b)%Z ->
  (x ← seqZ 0 (Z.of_nat n); (fun y => x * b + y)%Z <$> seqZ 0 b)
  = seqZ 0 (Z.of_nat n * b).
Proof.
  intros Hb. induction n as [|n IH].
  - reflexivity.
  - rewrite seqZ_S, bind_app, IH. simpl. rewrite app_nil_r.
    replace (Z.of_nat (S n) * b)%Z with (Z.of_nat n * b + b)%Z by lia.
    rewrite seqZ_app by lia. f_equal.
    replace (0 + Z.of_nat n * b)%Z with (0 + Z.of_nat n * b + 0)%Z by lia.
    rewrite <- (fmap_add_seqZ (0 + Z.of_nat n * b) 0 b).
    apply list_fmap_ext. intros _ y _. lia.
Qed.

Lemma seqZ_rows_256 :
  (x ← seqZ 0 256; (fun y => x * 256 + y)%Z <$> seqZ 0 256) = seqZ 0 65536.
Proof. exact (seqZ_rows 256 256 ltac:(lia)). Qed.

Lemma seqZ_row_bounds : Forall (fun y => 0 <= y < 256)%Z (seqZ 0 256).
Proof.
  apply Forall_forall. intros y Hy. apply elem_of_seqZ in Hy. lia.
Qed.

(** The renderers visit the buffer positions [0, ..., 65535] in order;
    position [k] is drawn at column [k / 256], row [k mod 256]. *)
Lemma renderWith_flat a palette buffer w :
  renderWith a palette buffer w =
  bind (forIndices (seqZ 0 65536)
          (fun k => renderBody a palette buffer (k / 256) (k mod 256))%Z
          (newCanvas 256 256, (-1)%Z))
       (fun final => ret (getImageData 0 0 256 256 (fst final))) w.
Proof.
  unfold renderWith, whileLess, bind.
  rewrite (forIndices_nested _ _ (renderBody a palette buffer))
    by apply seqZ_row_bounds.
  rewrite seqZ_rows_256. reflexivity.
Qed.

(** ** One pass over a layer *)

Lemma inRect_spec x0 y0 w h col row :
  inRect x0 y0 w h col row = true <->
  (x0 <= col < x0 + w /\ y0 <= row < y0 + h)%Z.
Proof. unfold inRect. rewrite !andb_true_iff. lia. Qed.

Lemma inRect_false x0 y0 w h col row :
  inRect x0 y0 w h col row = false <->
  ~ (x0 <= col < x0 + w /\ y0 <= row < y0 + h)%Z.
Proof. rewrite <- inRect_spec. destruct (inRect _ _ _ _ _ _); intuition congruence. Qed.

Lemma renderBody_known a palette buffer xIndex yIndex canvas i img w :
  paletteAt palette (bufferAt buffer i) = Some img ->
  renderBody a palette buffer xIndex yIndex (canvas, (i - 1)%Z) w
  = Returned (putPixels img xIndex yIndex canvas, i) w.
Proof.
  intros Himg. unfold renderBody.
  replace (i - 1 + 1)%Z with i by lia. rewrite Himg.
  rewrite bool_decide_eq_true_2 by eauto.
  destruct a; reflexivity.
Qed.

Lemma renderBody_unknown a palette buffer xIndex yIndex canvas i w :
  ~ knownAt palette buffer i ->
  renderBody a palette buffer xIndex yIndex (canvas, (i - 1)%Z) w
  = Thrown TypeError (assertFailed a (bufferAt buffer i) w).
Proof.
  intros Hun. unfold renderBody, knownAt in *.
  replace (i - 1 + 1)%Z with i by lia.
  destruct (paletteAt palette (bufferAt buffer i)) as [img|] eqn:E.
  - exfalso. eauto.
  - rewrite bool_decide_eq_false_2 by (intros [? ?]; discriminate).
    destruct a; reflexivity.
Qed.

Lemma flatLoop_returned a palette buffer (n : nat) :
  unitPalette palette ->
  forall (k0 : Z) canvas w,
  (0 <= k0)%Z ->
  (forall i, k0 <= i < k0 + Z.of_nat n -> knownAt palette buffer i)%Z ->
  let canvas' := paintAll palette buffer (seqZ k0 (Z.of_nat n)) canvas in
    forIndices (seqZ k0 (Z.of_nat n))
      (fun k => renderBody a palette buffer (k / 256) (k mod 256))%Z
      (canvas, (k0 - 1)%Z) w
    = Returned (canvas', (k0 + Z.of_nat n - 1)%Z) w
    /\ cwidth canvas' = cwidth canvas
    /\ cheight canvas' = cheight canvas
    /\ forall col row,
         cpixel canvas' col row =
         if decide ((0 <= row < 256 /\ k0 <= col * 256 + row < k0 + Z.of_nat n)
                    /\ 0 <= col < cwidth canvas /\ 0 <= row < cheight canvas)%Z
         then colourAt palette buffer (col * 256 + row)
         else cpixel canvas col row.
Proof.
  intros Hunit. induction n as [|n IH]; intros k0 canvas w Hk0 Hknown canvas'.
  - subst canvas'. rewrite seqZ_nil by lia. cbn [paintAll forIndices].
    replace (k0 + Z.of_nat 0 - 1)%Z with (k0 - 1)%Z by lia.
    repeat split. intros col row. destruct (decide _); [lia | reflexivity].
  - subst canvas'. rewrite seqZ_cons by lia. cbn [paintAll forIndices].
    destruct (Hknown k0 ltac:(lia)) as [img Himg]. rewrite Himg.
    erewrite bind_Returned by (apply renderBody_known; exact Himg).
    replace (Z.pred (Z.of_nat (S n))) with (Z.of_nat n) by lia.
    destruct (IH (Z.succ k0) (putPixels img (k0 / 256) (k0 mod 256) canvas) w
                ltac:(lia) ltac:(intros; apply Hknown; lia))
      as (Hrun & Hw & Hh & Hpix).
    replace (Z.succ k0 - 1)%Z with k0 in Hrun by lia.
    cbn [cwidth cheight putPixels] in Hw, Hh, Hpix.
    rewrite Hrun. split; [f_equal; f_equal; lia|].
    split; [exact Hw|]. split; [exact Hh|].
    intros col row. rewrite Hpix. cbn [cpixel putPixels].
    assert (Hsz : iwidth img = 1%Z /\ iheight img = 1%Z).
    { unfold paletteAt in Himg. destruct (bufferAt buffer k0); [|discriminate].
      eapply Hunit, Himg. }
    destruct Hsz as [Hiw Hih]. rewrite Hiw, Hih.
    destruct (decide _) as [H1|H1]; destruct (decide _) as [H2|H2];
      try reflexivity; try (exfalso; lia).
    + assert (Hc : col = (k0 / 256)%Z /\ row = (k0 mod 256)%Z)
        by (assert (col * 256 + row = k0)%Z by lia;
            zify; Z.div_mod_to_equations; lia).
      destruct Hc as [-> ->].
      assert (Hin1 : inRect (k0 / 256) (k0 mod 256) 1 1 (k0 / 256) (k0 mod 256) = true)
        by (apply inRect_spec; lia).
      assert (Hin2 : inRect 0 0 (cwidth canvas) (cheight canvas)
                       (k0 / 256) (k0 mod 256) = true)
        by (apply inRect_spec; lia).
      rewrite Hin1, Hin2. simpl. rewrite !Z.sub_diag.
      unfold colourAt.
      replace (k0 / 256 * 256 + k0 mod 256)%Z with k0
        by (zify; Z.div_mod_to_equations; lia).
      now rewrite Himg.
    + destruct (inRect (k0 / 256) (k0 mod 256) 1 1 col row) eqn:E1;
        [|reflexivity].
      destruct (inRect 0 0 (cwidth canvas) (cheight canvas) col row) eqn:E2;
        [|reflexivity].
      exfalso. apply inRect_spec in E1, E2. apply H2.
      assert (col * 256 + row = k0)%Z by (zify; Z.div_mod_to_equations; lia).
      assert (0 <= row < 256)%Z by (zify; Z.div_mod_to_equations; lia).
      lia.
Qed.

Lemma flatLoop_thrown a palette buffer (j n : nat) (k0 : Z) canvas w :
  unitPalette palette ->
  (0 <= k0)%Z -> j < n ->
  (forall i, k0 <= i < k0 + Z.of_nat j -> knownAt palette buffer i)%Z ->
  ~ knownAt palette buffer (k0 + Z.of_nat j) ->
  forIndices (seqZ k0 (Z.of_nat n))
    (fun k => renderBody a palette buffer (k / 256) (k mod 256))%Z
    (canvas, (k0 - 1)%Z) w
  = Thrown TypeError (assertFailed a (bufferAt buffer (k0 + Z.of_nat j)) w).
Proof.
  intros Hunit Hk0 Hjn Hknown Hun.
  replace (Z.of_nat n) with (Z.of_nat j + Z.of_nat (n - j))%Z by lia.
  rewrite seqZ_app, forIndices_app by lia.
  destruct (flatLoop_returned a palette buffer j Hunit k0 canvas w Hk0 Hknown)
    as (Hrun & _).
  rewrite (bind_Returned _ _ _ _ _ Hrun).
  rewrite seqZ_cons by lia. simpl.
  apply bind_Thrown.
  replace (k0 + Z.of_nat j - 1)%Z with ((k0 + Z.of_nat j) - 1)%Z by lia.
  now apply renderBody_unknown.
Qed.

(** Either every position below [n] is known, or there is a first
    position that is not. *)
Lemma first_unknown palette buffer (n : nat) :
  (forall i, 0 <= i < Z.of_nat n -> knownAt palette buffer i)%Z
  \/ exists j, j < n
       /\ (forall i, 0 <= i < Z.of_nat j -> knownAt palette buffer i)%Z
       /\ ~ knownAt palette buffer (Z.of_nat j).
Proof.
  induction n as [|n [IH|(j & Hj & Hbefore & Hun)]].
  - left. intros i Hi. lia.
  - destruct (decide (knownAt palette buffer (Z.of_nat n))) as [Hn|Hn].
    + left. intros i Hi. destruct (decide (i = Z.of_nat n)) as [->|]; [exact Hn|].
      apply IH. lia.
    + right. exists n. split; [lia|]. split; [exact IH | exact Hn].
  - right. exists j. split; [lia|]. split; assumption.
Qed.

Lemma renderWith_returned a palette buffer w :
  unitPalette palette ->
  (forall i, 0 <= i < 65536 -> knownAt palette buffer i)%Z ->
  renderWith a palette buffer w = Returned (renderedImage palette buffer) w
  /\ forall col row, (0 <= col < 256)%Z -> (0 <= row < 256)%Z ->
       idata (renderedImage palette buffer) col row
       = colourAt palette buffer (col * 256 + row).
Proof.
  intros Hunit Hknown.
  destruct (flatLoop_returned a palette buffer (Z.to_nat 65536) Hunit 0
              (newCanvas 256 256) w ltac:(lia)
              ltac:(intros i Hi; apply Hknown; lia))
    as (Hrun & Hw & Hh & Hpix).
  replace (Z.of_nat (Z.to_nat 65536)) with 65536%Z in * by lia.
  rewrite renderWith_flat. unfold renderedImage.
  rewrite (bind_Returned _ _ _ _ _ Hrun).
  split; [reflexivity|].
  intros col row Hcol Hrow. cbn [getImageData idata].
  rewrite Hw, Hh. cbn [newCanvas cwidth cheight].
  rewrite !Z.add_0_l.
  assert (Hin : inRect 0 0 256 256 col row = true) by (apply inRect_spec; lia).
  rewrite Hin, Hpix. cbn [newCanvas cwidth cheight].
  destruct (decide _) as [_|Hn]; [reflexivity|]. exfalso. apply Hn. lia.
Qed.

Lemma renderWith_thrown a palette buffer w (k : Z) :
  unitPalette palette ->
  (0 <= k < 65536)%Z ->
  (forall i, 0 <= i < k -> knownAt palette buffer i)%Z ->
  ~ knownAt palette buffer k ->
  renderWith a palette buffer w
  = Thrown TypeError (assertFailed a (bufferAt buffer k) w).
Proof.
  intros Hunit Hk Hknown Hun.
  rewrite renderWith_flat.
  replace 65536%Z with (Z.of_nat (Z.to_nat 65536)) at 1 by lia.
  apply bind_Thrown.
  change (-1)%Z with (0 - 1)%Z.
  rewrite (flatLoop_thrown a palette buffer (Z.to_nat k) (Z.to_nat 65536) 0
             (newCanvas 256 256) w Hunit); try lia.
  - now replace (0 + Z.of_nat (Z.to_nat k))%Z with k by lia.
  - intros i Hi. apply Hknown. lia.
  - now replace (0 + Z.of_nat (Z.to_nat k))%Z with k by lia.
Qed.

(** A renderer returns exactly when every position of the layer is known. *)
Lemma renderWith_inv a palette buffer w img w' :
  unitPalette palette ->
  renderWith a palette buffer w = Returned img w' ->
  w' = w /\ img = renderedImage palette buffer
  /\ (forall i, 0 <= i < 65536 -> knownAt palette buffer i)%Z.
Proof.
  intros Hunit Hret.
  destruct (first_unknown palette buffer (Z.to_nat 65536))
    as [Hall|(j & Hj & Hbefore & Hun)].
  - assert (Hall' : (forall i, 0 <= i < 65536 -> knownAt palette buffer i)%Z)
      by (intros i Hi; apply Hall; lia).
    destruct (renderWith_returned a palette buffer w Hunit Hall') as (Hrun & _).
    rewrite Hrun in Hret. injection Hret as <- <-. auto.
  - rewrite (renderWith_thrown a palette buffer w (Z.of_nat j) Hunit) in Hret;
      [discriminate | lia | exact Hbefore | exact Hun].
Qed.

Lemma unitPalette_map : unitPalette mapPixelPalette.
Proof.
  intros k img. unfold mapPixelPalette. rewrite lookup_fmap.
  destruct (byByte !! k); simpl; [|discriminate].
  intros [= <-]. split; reflexivity.
Qed.

(** ** The pathfinding palette *)

Lemma pathPixelPalette_lookup (pixelByte : byte) :
  pathPixelPalette !! byteVal pixelByte
  = Some (pixelImage (spec_pathColor (byteVal pixelByte))).
Proof. destruct pixelByte; vm_compute; reflexivity. Qed.

Lemma renderedImage_size palette buffer :
  iwidth (renderedImage palette buffer) = 256%Z
  /\ iheight (renderedImage palette buffer) = 256%Z.
Proof. split; reflexivity. Qed.

(** The colors of [colors.byByte] are made of bytes. *)
Lemma byByte_range k color :
  byByte !! k = Some color ->
  (0 <= r color <= 255 /\ 0 <= g color <= 255 /\ 0 <= b color <= 255)%Z.
Proof.
  intros H. apply elem_of_list_to_map_2 in H.
  repeat (apply elem_of_cons in H as [H|H];
          [injection H as -> ->; cbn [r g b]; lia|]).
  inversion H.
Qed.

(** What a known position of the visual layer is drawn as. *)
Lemma colourAt_map buffer i :
  knownAt mapPixelPalette buffer i ->
  exists byte color,
    bufferAt buffer i = Some byte
    /\ byByte !! byteVal byte = Some color
    /\ colourAt mapPixelPalette buffer i = Pixel (r color) (g color) (b color) 255.
Proof.
  unfold knownAt, colourAt, paletteAt.
  destruct (bufferAt buffer i) as [byte|]; [|intros [? ?]; discriminate].
  unfold mapPixelPalette. rewrite lookup_fmap.
  destruct (byByte !! byteVal byte) as [color|] eqn:E;
    [|intros [? ?]; discriminate].
  intros _. exists byte, color. split; [reflexivity|].
  split; [first [reflexivity | exact E]|].
  destruct (byByte_range _ _ E) as (Hr & Hg & Hb).
  cbn. unfold clampByte. f_equal; lia.
Qed.

(** A position is known as soon as its byte is. *)
Lemma knownAt_Forall palette (buffer : Buffer) i :
  Forall (fun byte => is_Some (palette !! byteVal byte)) buffer ->
  (0 <= i < Z.of_nat (length buffer))%Z ->
  knownAt palette buffer i.
Proof.
  intros Hall Hi. unfold knownAt, bufferAt.
  destruct (Z.ltb_spec i 0) as [?|_]; [lia|].
  destruct (lookup_lt_is_Some_2 buffer (Z.to_nat i) ltac:(lia)) as [byte Hbyte].
  rewrite Hbyte. cbn. rewrite Forall_forall in Hall. apply Hall.
  apply list_elem_of_lookup. eauto.
Qed.

(** The three parts of a tile file. *)
Lemma tile_layout (visual path block : Buffer) :
  length visual = N.to_nat 0x10000 -> length path = N.to_nat 0x10000 ->
  slice (visual ++ path ++ block) 0 0x10000 = visual
  /\ slice (visual ++ path ++ block) 0x10000 0x20000 = path
  /\ sliceFrom (visual ++ path ++ block) 0x20000 = block.
Proof.
  intros Hv Hp. unfold sliceFrom. rewrite !slice_take_drop, dropN_drop.
  split; [|split].
  - change (N.to_nat 0) with 0. rewrite drop_0, Nat.sub_0_r.
    now apply take_app_length'.
  - rewrite drop_app_length' by (symmetry; exact Hv).
    apply take_app_length'. lia.
  - rewrite app_assoc. apply drop_app_length'. rewrite length_app. lia.
Qed.

(** ** Reading from a buffer *)

Lemma readUInt8_in buffer offset w :
  offset < length buffer ->
  readUInt8 buffer offset w = Returned (byteZ buffer offset) w.
Proof.
  intros H. unfold readUInt8, byteZ.
  destruct (lookup_lt_is_Some_2 buffer offset H) as [b Hb].
  now rewrite Hb.
Qed.

Lemma readUInt8_out buffer offset w :
  length buffer <= offset ->
  readUInt8 buffer offset w = Thrown RangeError w.
Proof.
  intros H. unfold readUInt8. now rewrite lookup_ge_None_2.
Qed.

Lemma readUIntLE_in buffer offset byteLength w :
  offset + byteLength <= length buffer ->
  readUIntLE buffer offset byteLength w
  = Returned (leValue (take byteLength (drop offset buffer))) w.
Proof. intros H. unfold readUIntLE. now rewrite decide_True. Qed.

Lemma readUIntLE_out buffer offset byteLength w :
  length buffer < offset + byteLength ->
  readUIntLE buffer offset byteLength w = Thrown RangeError w.
Proof. intros H. unfold readUIntLE. rewrite decide_False by lia. reflexivity. Qed.

Lemma byteVal_range b : (0 <= byteVal b < 256)%Z.
Proof. unfold byteVal. pose proof (Byte.to_N_bounded b). lia. Qed.

Lemma leValue_nonneg bytes : (0 <= leValue bytes)%Z.
Proof.
  induction bytes as [|b bytes IH]; simpl; [lia|].
  pose proof (byteVal_range b). lia.
Qed.

(** ** The loop of [parseMarkerData] *)

Section MarkerLoop.

Variable icons_byID : Z -> option jsstring.

Lemma readMarkers_step buffer floor index turns acc w :
  index + 14 <= length buffer ->
  readMarkers icons_byID (S turns) buffer floor index acc w
  = readMarkers icons_byID turns buffer floor (nextRecord buffer index)
      (acc ++ [markerAt icons_byID buffer floor index]) w.
Proof.
  intros Hfit. cbn [readMarkers].
  rewrite (bind_Returned _ _ _ _ _ (readUInt8_in buffer index w ltac:(lia))).
  rewrite (bind_Returned _ _ _ _ _ (readUInt8_in buffer (S index) w ltac:(lia))).
  cbn [Nat.eqb negb console_assert].
  rewrite (bind_Returned _ _ _ _ _ (eq_refl : ret tt w = Returned tt w)).
  rewrite (bind_Returned _ _ _ _ _ (eq_refl : ret tt w = Returned tt w)).
  rewrite (bind_Returned _ _ _ _ _
             (readUInt8_in buffer (S (S (S (S index)))) w ltac:(lia))).
  rewrite (bind_Returned _ _ _ _ _
             (readUInt8_in buffer (S (S (S (S (S index))))) w ltac:(lia))).
  rewrite (bind_Returned _ _ _ _ _ (eq_refl : ret tt w = Returned tt w)).
  rewrite (bind_Returned _ _ _ _ _ (eq_refl : ret tt w = Returned tt w)).
  rewrite (bind_Returned _ _ _ _ _
             (readUIntLE_in buffer (S (S (S (S (S (S (S (S index)))))))) 4 w
                ltac:(lia))).
  rewrite (bind_Returned _ _ _ _ _
             (readUIntLE_in buffer (S (S (S (S (S (S (S (S index))))))) + 4) 2 w
                ltac:(lia))).
  rewrite slice_of_nat.
  unfold nextRecord, markerAt, descriptionLengthAt.
  replace (S (S (S (S (S (S (S (S index))))))) + 4 + 2) with (index + 14) by lia.
  replace (S (S (S (S (S (S (S (S index)))))))) with (index + 8) by lia.
  replace (index + 8 + 4) with (index + 12) by lia.
  replace (S (S (S (S (S index))))) with (index + 5) by lia.
  replace (S (S (S (S index)))) with (index + 4) by lia.
  replace (S index) with (index + 1) by lia.
  reflexivity.
Qed.

Lemma readMarkers_short buffer floor index turns acc w :
  length buffer < index + 14 ->
  readMarkers icons_byID (S turns) buffer floor index acc w = Thrown RangeError w.
Proof.
  intros Hshort. cbn [readMarkers].
  destruct (decide (index < length buffer)) as [H0|H0];
    [rewrite (bind_Returned _ _ _ _ _ (readUInt8_in buffer index w H0))
    |apply bind_Thrown, readUInt8_out; lia].
  destruct (decide (S index < length buffer)) as [H1|H1];
    [rewrite (bind_Returned _ _ _ _ _ (readUInt8_in buffer (S index) w H1))
    |apply bind_Thrown, readUInt8_out; lia].
  cbn [Nat.eqb negb console_assert].
  rewrite (bind_Returned _ _ _ _ _ (eq_refl : ret tt w = Returned tt w)).
  rewrite (bind_Returned _ _ _ _ _ (eq_refl : ret tt w = Returned tt w)).
  destruct (decide (S (S (S (S index))) < length buffer)) as [H4|H4];
    [rewrite (bind_Returned _ _ _ _ _ (readUInt8_in buffer _ w H4))
    |apply bind_Thrown, readUInt8_out; lia].
  destruct (decide (S (S (S (S (S index)))) < length buffer)) as [H5|H5];
    [rewrite (bind_Returned _ _ _ _ _ (readUInt8_in buffer _ w H5))
    |apply bind_Thrown, readUInt8_out; lia].
  rewrite (bind_Returned _ _ _ _ _ (eq_refl : ret tt w = Returned tt w)).
  rewrite (bind_Returned _ _ _ _ _ (eq_refl : ret tt w = Returned tt w)).
  destruct (decide (S (S (S (S (S (S (S (S index))))))) + 4 <= length buffer))
    as [H8|H8];
    [rewrite (bind_Returned _ _ _ _ _ (readUIntLE_in buffer _ 4 w H8))
    |apply bind_Thrown, readUIntLE_out; lia].
  apply bind_Thrown, readUIntLE_out. lia.
Qed.

Lemma fixedPartsFit_S buffer index n :
  fixedPartsFit buffer index (S n) <->
  index + 14 <= length buffer /\ fixedPartsFit buffer (nextRecord buffer index) n.
Proof.
  unfold fixedPartsFit. split.
  - intros H. split; [apply (H 0); lia|].
    intros k Hk. apply (H (S k)). lia.
  - intros [H0 H] [|k] Hk; [exact H0|]. apply H. lia.
Qed.

Global Instance fixedPartsFit_dec buffer index n :
  Decision (fixedPartsFit buffer index n).
Proof.
  revert index. induction n as [|n IH]; intros index.
  - left. intros k Hk. lia.
  - destruct (decide (index + 14 <= length buffer)) as [H0|H0].
    + destruct (IH (nextRecord buffer index)) as [H|H].
      * left. apply fixedPartsFit_S. auto.
      * right. rewrite fixedPartsFit_S. tauto.
    + right. rewrite fixedPartsFit_S. tauto.
Defined.

Lemma readMarkers_returned buffer floor turns :
  forall index acc w,
  fixedPartsFit buffer index turns ->
  readMarkers icons_byID turns buffer floor index acc w
  = Returned (acc ++ markersFrom icons_byID buffer floor index turns) w.
Proof.
  induction turns as [|turns IH]; intros index acc w Hfit.
  - simpl. now rewrite app_nil_r.
  - apply fixedPartsFit_S in Hfit as [H0 Hfit].
    rewrite readMarkers_step by exact H0.
    rewrite IH by exact Hfit. cbn [markersFrom].
    now rewrite <- app_assoc.
Qed.

Lemma readMarkers_thrown buffer floor turns :
  forall index acc w,
  ~ fixedPartsFit buffer index turns ->
  readMarkers icons_byID turns buffer floor index acc w = Thrown RangeError w.
Proof.
  induction turns as [|turns IH]; intros index acc w Hfit.
  - exfalso. apply Hfit. intros k Hk. lia.
  - rewrite fixedPartsFit_S in Hfit.
    destruct (decide (index + 14 <= length buffer)) as [H0|H0].
    + rewrite readMarkers_step by exact H0. apply IH. tauto.
    + apply readMarkers_short. lia.
Qed.

(** What [parseMarkerData] does, case by case. *)
Lemma parseMarkerData_short buffer floor w :
  length buffer < 4 ->
  parseMarkerData icons_byID buffer floor w = Thrown RangeError w.
Proof.
  intros H. unfold parseMarkerData. apply bind_Thrown, readUIntLE_out. lia.
Qed.

Lemma parseMarkerData_none buffer floor w :
  4 <= length buffer -> markerCountOf buffer = 0 ->
  parseMarkerData icons_byID buffer floor w = Returned [] w.
Proof.
  intros H Hcount. unfold parseMarkerData.
  rewrite (bind_Returned _ _ _ _ _ (readUIntLE_in buffer 0 4 w ltac:(simpl; lia))).
  rewrite drop_0. unfold markerCountOf in Hcount.
  pose proof (leValue_nonneg (take 4 buffer)).
  replace (leValue (take 4 buffer)) with 0%Z by lia. reflexivity.
Qed.

Lemma parseMarkerData_returned buffer floor w :
  4 <= length buffer ->
  fixedPartsFit buffer 4 (markerCountOf buffer) ->
  parseMarkerData icons_byID buffer floor w
  = Returned (filterUnique ∅ (arraySort compareMarkers
                (markersFrom icons_byID buffer floor 4 (markerCountOf buffer)))) w.
Proof.
  intros H Hfit.
  destruct (decide (markerCountOf buffer = 0)) as [Hc|Hc].
  - rewrite parseMarkerData_none by assumption. now rewrite Hc.
  - unfold parseMarkerData.
    rewrite (bind_Returned _ _ _ _ _ (readUIntLE_in buffer 0 4 w ltac:(simpl; lia))).
    rewrite drop_0. unfold markerCountOf in *.
    destruct (Z.eqb_spec (leValue (take 4 buffer)) 0) as [E|_];
      [rewrite E in Hc; simpl in Hc; lia|].
    rewrite (bind_Returned _ _ _ _ _
               (readMarkers_returned buffer floor _ (0 + 4) [] w Hfit)).
    reflexivity.
Qed.

Lemma parseMarkerData_thrown buffer floor w :
  4 <= length buffer ->
  ~ fixedPartsFit buffer 4 (markerCountOf buffer) ->
  parseMarkerData icons_byID buffer floor w = Thrown RangeError w.
Proof.
  intros H Hfit.
  unfold parseMarkerData.
  rewrite (bind_Returned _ _ _ _ _ (readUIntLE_in buffer 0 4 w ltac:(simpl; lia))).
  rewrite drop_0. unfold markerCountOf in *.
  destruct (Z.eqb_spec (leValue (take 4 buffer)) 0) as [E|_].
  - exfalso. apply Hfit. rewrite E. intros k Hk. simpl in Hk. lia.
  - apply bind_Thrown. now apply (readMarkers_thrown buffer floor _ (0 + 4) [] w).
Qed.

(** The decoder neither prints nor changes anything else in the world. *)
Lemma parseMarkerData_world buffer floor w :
  (exists ms, parseMarkerData icons_byID buffer floor w = Returned ms w)
  \/ parseMarkerData icons_byID buffer floor w = Thrown RangeError w.
Proof.
  destruct (decide (4 <= length buffer)) as [H|H].
  - destruct (decide (fixedPartsFit buffer 4 (markerCountOf buffer))) as [Hf|Hf].
    + left. eexists. now apply parseMarkerData_returned.
    + right. now apply parseMarkerData_thrown.
  - right. apply parseMarkerData_short. lia.
Qed.

End MarkerLoop.

(** ** Sorting *)

Lemma compareMarkers_sortKey a b :
  (compareMarkers a b <= 0 <-> sortKey a <= sortKey b)%Z.
Proof. unfold compareMarkers, sortKey. lia. Qed.

Lemma sortInsert_Permutation compare a l :
  sortInsert compare a l ≡ₚ a :: l.
Proof.
  induction l as [|b l IH]; simpl; [reflexivity|].
  destruct (compare a b <=? 0)%Z; [reflexivity|].
  rewrite IH. apply Permutation_swap.
Qed.

Lemma arraySort_Permutation compare l : arraySort compare l ≡ₚ l.
Proof.
  induction l as [|a l IH]; simpl; [reflexivity|].
  now rewrite sortInsert_Permutation, IH.
Qed.

Lemma sortInsert_sorted a l :
  StronglySorted (fun m1 m2 => sortKey m1 <= sortKey m2)%Z l ->
  StronglySorted (fun m1 m2 => sortKey m1 <= sortKey m2)%Z
    (sortInsert compareMarkers a l).
Proof.
  induction 1 as [|b l Hl IH Hb]; simpl.
  - repeat constructor.
  - destruct (Z.leb_spec (compareMarkers a b) 0) as [Hab|Hab].
    + apply compareMarkers_sortKey in Hab.
      constructor; [constructor; assumption|].
      constructor; [exact Hab|].
      eapply Forall_impl; [exact Hb|]. simpl. intros c Hc. lia.
    + assert (Hba : (sortKey b <= sortKey a)%Z)
        by (unfold compareMarkers, sortKey in *; lia).
      constructor; [exact IH|].
      rewrite sortInsert_Permutation. constructor; assumption.
Qed.

Lemma arraySort_sorted l :
  StronglySorted (fun m1 m2 => sortKey m1 <= sortKey m2)%Z
    (arraySort compareMarkers l).
Proof.
  induction l as [|a l IH]; simpl; [constructor|].
  now apply sortInsert_sorted.
Qed.

(** ** Removing duplicates *)

Lemma not_elem_of_add (set : gset jsstring) k k' :
  (k ∉ set ∪ {[ k' ]}) <-> ((k ∉ set) /\ k <> k').
Proof. rewrite elem_of_union, elem_of_singleton. tauto. Qed.

Lemma filterUnique_elem_of set l m :
  m ∈ filterUnique set l -> m ∈ l.
Proof.
  revert set. induction l as [|a l IH]; intros set; cbn [filterUnique]; [auto|].
  destruct (negb _); rewrite ?elem_of_cons; intros H.
  - destruct H as [->|H]; [left|right]; eauto.
  - right. eauto.
Qed.

Lemma filterUnique_sorted (R : marker -> marker -> Prop) set l :
  StronglySorted R l -> StronglySorted R (filterUnique set l).
Proof.
  intros Hl. revert set. induction Hl as [|a l Hl IH Ha]; intros set; cbn [filterUnique].
  - constructor.
  - destruct (negb _); [|apply IH].
    constructor; [apply IH|].
    apply Forall_forall. intros m Hm.
    apply filterUnique_elem_of in Hm.
    rewrite Forall_forall in Ha. auto.
Qed.

(** The serialized texts of the markers kept are pairwise different
    and none of them was in the set beforehand. *)
Lemma filterUnique_fresh set l m :
  m ∈ filterUnique set l -> serialized m ∉ set.
Proof.
  revert set. induction l as [|a l IH]; intros set; cbn [filterUnique].
  - intros H. inversion H.
  - change (toLowerCase (JSON_stringify a)) with (serialized a). destruct (bool_decide_reflect (serialized a ∈ set)) as [Hin|Hin];
      cbn [negb].
    + intros H. apply IH in H. apply not_elem_of_add in H. tauto.
    + rewrite elem_of_cons. intros [->|H]; [exact Hin|].
      apply IH in H. apply not_elem_of_add in H. tauto.
Qed.

Lemma filterUnique_NoDup set l :
  NoDup (serialized <$> filterUnique set l).
Proof.
  revert set. induction l as [|a l IH]; intros set; cbn [filterUnique]; [constructor|].
  change (toLowerCase (JSON_stringify a)) with (serialized a). destruct (bool_decide_reflect (serialized a ∈ set)) as [Hin|Hin];
    cbn [negb fmap list_fmap]; [apply IH|].
  constructor; [|apply IH].
  rewrite list_elem_of_fmap. intros (m & Heq & Hm).
  apply filterUnique_fresh in Hm. apply not_elem_of_add in Hm.
  destruct Hm as [_ Hm]. congruence.
Qed.

(** Every marker whose text is not in the set yet is represented. *)
Lemma filterUnique_covers set l m :
  m ∈ l -> serialized m ∉ set ->
  exists m', m' ∈ filterUnique set l /\ serialized m' = serialized m.
Proof.
  revert set. induction l as [|a l IH]; intros set Hm Hfresh; cbn [filterUnique].
  - inversion Hm.
  - change (toLowerCase (JSON_stringify a)) with (serialized a).
    destruct (bool_decide_reflect (serialized a ∈ set)) as [Hin|Hin]; cbn [negb].
    + apply elem_of_cons in Hm as [->|Hm]; [contradiction|].
      apply IH; [exact Hm|]. apply not_elem_of_add. split; [exact Hfresh|].
      intros Heq. apply Hfresh. now rewrite Heq.
    + destruct (decide (serialized m = serialized a)) as [Heq|Hne].
      * exists a. split; [left | congruence].
      * apply elem_of_cons in Hm as [->|Hm]; [congruence|].
        destruct (IH (set ∪ {[serialized a]}) Hm
                    ltac:(apply not_elem_of_add; split; assumption))
          as (m' & Hm' & Heq).
        exists m'. split; [right; exact Hm' | exact Heq].
Qed.

(** ** Lower case and the JSON text *)

Lemma toLowerCase_app s1 s2 :
  toLowerCase (s1 ++ s2) = toLowerCase s1 ++ toLowerCase s2.
Proof. apply map_app. Qed.

Ltac N_cases :=
  repeat match goal with
  | |- context [(?a <=? ?b)%N] => destruct (N.leb_spec a b)
  | |- context [(?a <? ?b)%N] => destruct (N.ltb_spec a b)
  | |- context [(?a =? ?b)%N] => destruct (N.eqb_spec a b)
  | H : context [(?a <=? ?b)%N] |- _ => destruct (N.leb_spec a b)
  | H : context [(?a <? ?b)%N] |- _ => destruct (N.ltb_spec a b)
  | H : context [(?a =? ?b)%N] |- _ => destruct (N.eqb_spec a b)
  end.

Lemma JSON_quote_unit_plain c :
  (0x20 <= c)%N -> c <> 0x22%N -> c <> 0x5C%N -> JSON_quote_unit c = [c].
Proof.
  intros H1 H2 H3. unfold JSON_quote_unit. N_cases; try lia; reflexivity.
Qed.

(** The code units that lower case changes are letters, and their
    lower case is left alone. *)
Lemma toLowerCase_unit_changed c :
  toLowerCase_unit c <> c ->
  (0x41 <= c)%N /\ c <> 0x5C%N
  /\ (0x41 <= toLowerCase_unit c)%N /\ toLowerCase_unit c <> 0x5C%N
  /\ toLowerCase_unit (toLowerCase_unit c) = toLowerCase_unit c.
Proof.
  intros Hne.
  assert (Hc : ((0x41 <= c <= 0x5A) \/ (0xC0 <= c <= 0xDE /\ c <> 0xD7)
                \/ c = 0x160 \/ c = 0x152 \/ c = 0x17D \/ c = 0x178)%N).
  { unfold toLowerCase_unit in Hne. N_cases; cbn [andb negb] in Hne; lia. }
  assert (Hl : ((0x41 <= c <= 0x5A /\ toLowerCase_unit c = c + 0x20)
                \/ (0xC0 <= c <= 0xDE /\ c <> 0xD7 /\ toLowerCase_unit c = c + 0x20)
                \/ (c = 0x160 /\ toLowerCase_unit c = 0x161)
                \/ (c = 0x152 /\ toLowerCase_unit c = 0x153)
                \/ (c = 0x17D /\ toLowerCase_unit c = 0x17E)
                \/ (c = 0x178 /\ toLowerCase_unit c = 0xFF))%N).
  { unfold toLowerCase_unit. N_cases; cbn [andb negb]; lia. }
  assert (Hfix : forall d, ((0x61 <= d <= 0x7A) \/ (0xE0 <= d <= 0xFE /\ d <> 0xF7)
                            \/ d = 0x161 \/ d = 0x153 \/ d = 0x17E \/ d = 0xFF)%N ->
                           toLowerCase_unit d = d).
  { intros d Hd. unfold toLowerCase_unit. N_cases; cbn [andb negb]; lia. }
  destruct Hl as [(H & ->)|[(H & H' & ->)|[(-> & ->)|[(-> & ->)|[(-> & ->)|(-> & ->)]]]]];
    (split; [lia|]); (split; [lia|]); (split; [lia|]); (split; [lia|]);
    apply Hfix; lia.
Qed.

(** Lower-casing the escape of a code unit only depends on the
    lower case of that unit. *)
Lemma toLowerCase_quote_unit c :
  toLowerCase (JSON_quote_unit c)
  = toLowerCase (JSON_quote_unit (toLowerCase_unit c)).
Proof.
  destruct (decide (toLowerCase_unit c = c)) as [->|Hne]; [reflexivity|].
  destruct (toLowerCase_unit_changed c Hne) as (H1 & H2 & H3 & H4 & H5).
  rewrite !JSON_quote_unit_plain by lia.
  cbn [toLowerCase map]. now rewrite H5.
Qed.

Lemma toLowerCase_quote s1 s2 :
  toLowerCase s1 = toLowerCase s2 ->
  toLowerCase (JSON_quote s1) = toLowerCase (JSON_quote s2).
Proof.
  intros H. unfold JSON_quote. rewrite !toLowerCase_app. f_equal. f_equal.
  assert (Hpush : forall s,
    toLowerCase (concat (map JSON_quote_unit s))
    = concat (map (fun c => toLowerCase (JSON_quote_unit c)) (toLowerCase s))).
  { induction s as [|c s IH]; [reflexivity|].
    cbn [map concat toLowerCase]. rewrite toLowerCase_app.
    rewrite toLowerCase_quote_unit. f_equal. exact IH. }
  now rewrite !Hpush, H.
Qed.

Lemma sameIgnoringCase_serialized a b :
  sameIgnoringCase a b -> serialized a = serialized b.
Proof.
  intros (Hx & Hy & Hz & Hicon & Hdesc).
  unfold serialized, JSON_stringify.
  rewrite Hx, Hy, Hz, Hicon, !toLowerCase_app.
  f_equal. f_equal. f_equal. now apply toLowerCase_quote.
Qed.

(** ** Windows of a buffer *)

Lemma window_ext (buffer buffer' : Buffer) (lo n : nat) :
  (forall i, lo <= i < lo + n -> buffer !! i = buffer' !! i) ->
  take n (drop lo buffer) = take n (drop lo buffer').
Proof.
  intros H. apply list_eq. intros j.
  destruct (decide (j < n)) as [Hj|Hj].
  - rewrite !lookup_take_lt, !lookup_drop by exact Hj. apply H. lia.
  - rewrite !lookup_take_ge by lia. reflexivity.
Qed.

Lemma window_app (buffer extra : Buffer) (lo n : nat) :
  lo + n <= length buffer ->
  take n (drop lo (buffer ++ extra)) = take n (drop lo buffer).
Proof.
  intros H. apply window_ext. intros i Hi. apply lookup_app_l. lia.
Qed.

Lemma byteZ_ext (buffer buffer' : Buffer) i :
  buffer !! i = buffer' !! i -> byteZ buffer i = byteZ buffer' i.
Proof. unfold byteZ. now intros ->. Qed.

Lemma recordStartFrom_ge buffer k :
  forall index, index + 14 * k <= recordStartFrom buffer index k.
Proof.
  induction k as [|k IH]; intros index; cbn [recordStartFrom]; [lia|].
  specialize (IH (nextRecord buffer index)). unfold nextRecord in *. lia.
Qed.

Lemma recordStartFrom_S buffer index k :
  recordStartFrom buffer index (S k)
  = nextRecord buffer (recordStartFrom buffer index k).
Proof.
  revert index. induction k as [|k IH]; intros index; [reflexivity|].
  cbn [recordStartFrom] in *. now rewrite IH.
Qed.

(** ** Bytes after the last record *)

Section Trailing.

Variable icons_byID : Z -> option jsstring.

Lemma nextRecord_app buffer extra index :
  index + 14 <= length buffer ->
  nextRecord (buffer ++ extra) index = nextRecord buffer index.
Proof.
  intros H. unfold nextRecord, descriptionLengthAt.
  now rewrite window_app by lia.
Qed.

Lemma markerAt_app buffer extra floor index :
  nextRecord buffer index <= length buffer ->
  markerAt icons_byID (buffer ++ extra) floor index
  = markerAt icons_byID buffer floor index.
Proof.
  intros H. pose proof H as H'. unfold nextRecord in H'.
  unfold markerAt.
  assert (Hlen : descriptionLengthAt (buffer ++ extra) index
                 = descriptionLengthAt buffer index)
    by (unfold descriptionLengthAt; now rewrite window_app by lia).
  rewrite Hlen.
  rewrite !(window_app buffer extra) by lia.
  unfold byteZ. rewrite !(lookup_app_l buffer extra) by lia.
  reflexivity.
Qed.

Lemma markersFrom_app buffer extra floor n :
  forall index,
  recordStartFrom buffer index n <= length buffer ->
  markersFrom icons_byID (buffer ++ extra) floor index n
  = markersFrom icons_byID buffer floor index n.
Proof.
  induction n as [|n IH]; intros index H; [reflexivity|].
  cbn [markersFrom recordStartFrom] in *.
  pose proof (recordStartFrom_ge buffer n (nextRecord buffer index)) as Hge.
  assert (Hn : nextRecord buffer index <= length buffer) by lia.
  rewrite markerAt_app by exact Hn.
  rewrite nextRecord_app by (unfold nextRecord in Hn; lia).
  now rewrite IH.
Qed.

Lemma fixedPartsFit_whole buffer n :
  forall index,
  recordStartFrom buffer index n <= length buffer ->
  fixedPartsFit buffer index n.
Proof.
  induction n as [|n IH]; intros index H.
  - intros k Hk. lia.
  - cbn [recordStartFrom] in H.
    pose proof (recordStartFrom_ge buffer n (nextRecord buffer index)) as Hge.
    apply fixedPartsFit_S. split; [unfold nextRecord in *; lia|].
    now apply IH.
Qed.

Lemma recordStartFrom_app buffer extra n :
  forall index,
  recordStartFrom buffer index n <= length buffer ->
  recordStartFrom (buffer ++ extra) index n = recordStartFrom buffer index n.
Proof.
  induction n as [|n IH]; intros index H; [reflexivity|].
  cbn [recordStartFrom] in *.
  pose proof (recordStartFrom_ge buffer n (nextRecord buffer index)) as Hge.
  rewrite nextRecord_app by (unfold nextRecord in *; lia).
  now apply IH.
Qed.

End Trailing.

(** ** Reserved bytes *)

Section Reserved.

Variable icons_byID : Z -> option jsstring.

Lemma reservedOffset_first buffer index n i :
  reservedOffset buffer index (S n) i ->
  (i = index + 2 \/ i = index + 3 \/ i = index + 6 \/ i = index + 7)
  \/ reservedOffset buffer (nextRecord buffer index) n i.
Proof.
  intros ([|k] & Hk & Hi); cbn [recordStartFrom] in Hi.
  - left. exact Hi.
  - right. exists k. split; [lia | exact Hi].
Qed.

Lemma reservedOffset_ge buffer index n i :
  reservedOffset buffer index n i -> index + 2 <= i.
Proof.
  intros (k & Hk & Hi). cbn zeta in Hi.
  pose proof (recordStartFrom_ge buffer k index). lia.
Qed.

Lemma agreeFrom_inside buffer buffer' index n i :
  agreeFrom buffer buffer' index (S n) ->
  index <= i < nextRecord buffer index ->
  i <> index + 2 -> i <> index + 3 -> i <> index + 6 -> i <> index + 7 ->
  buffer !! i = buffer' !! i.
Proof.
  intros Hagree Hi H2 H3 H6 H7. apply Hagree; [lia|].
  intros Hres. apply reservedOffset_first in Hres as [Hres|Hres]; [lia|].
  apply reservedOffset_ge in Hres. lia.
Qed.

Lemma agreeFrom_next buffer buffer' index n :
  agreeFrom buffer buffer' index (S n) ->
  agreeFrom buffer buffer' (nextRecord buffer index) n.
Proof.
  intros Hagree i Hi Hres. apply Hagree; [unfold nextRecord in Hi; lia|].
  intros Hres'. apply reservedOffset_first in Hres' as [Hres'|Hres'];
    [unfold nextRecord in Hi; lia | contradiction].
Qed.

Lemma agreeFrom_nextRecord buffer buffer' index n :
  agreeFrom buffer buffer' index (S n) ->
  nextRecord buffer' index = nextRecord buffer index.
Proof.
  intros Hagree. unfold nextRecord, descriptionLengthAt.
  f_equal. f_equal. f_equal. symmetry. apply window_ext. intros i Hi.
  apply (agreeFrom_inside _ _ _ _ _ Hagree); unfold nextRecord; lia.
Qed.

Lemma agreeFrom_markerAt buffer buffer' floor index n :
  agreeFrom buffer buffer' index (S n) ->
  markerAt icons_byID buffer' floor index = markerAt icons_byID buffer floor index.
Proof.
  intros Hagree.
  pose proof (agreeFrom_nextRecord _ _ _ _ Hagree) as Hnext.
  assert (Hin : forall i, index <= i < nextRecord buffer index ->
            i <> index + 2 -> i <> index + 3 -> i <> index + 6 -> i <> index + 7 ->
            buffer' !! i = buffer !! i)
    by (intros; symmetry; now apply (agreeFrom_inside _ _ _ _ _ Hagree)).
  unfold markerAt.
  assert (Hlen : descriptionLengthAt buffer' index = descriptionLengthAt buffer index)
    by (unfold nextRecord in Hnext; lia).
  rewrite Hlen.
  assert (Hn : nextRecord buffer index
               = index + 14 + descriptionLengthAt buffer index) by reflexivity.
  f_equal.
  - f_equal. apply window_ext. intros i Hi. apply Hin; lia.
  - f_equal. f_equal. apply window_ext. intros i Hi. apply Hin; lia.
  - f_equal; [f_equal|]; apply byteZ_ext, Hin; lia.
  - f_equal; [f_equal|]; apply byteZ_ext, Hin; lia.
Qed.

Lemma agreeFrom_markersFrom buffer buffer' floor n :
  forall index,
  agreeFrom buffer buffer' index n ->
  markersFrom icons_byID buffer' floor index n
  = markersFrom icons_byID buffer floor index n.
Proof.
  induction n as [|n IH]; intros index Hagree; [reflexivity|].
  cbn [markersFrom].
  rewrite (agreeFrom_markerAt _ _ _ _ _ Hagree).
  rewrite (agreeFrom_nextRecord _ _ _ _ Hagree).
  f_equal. apply IH. now apply agreeFrom_next.
Qed.

Lemma agreeFrom_fixedPartsFit buffer buffer' n :
  length buffer = length buffer' ->
  forall index,
  agreeFrom buffer buffer' index n ->
  fixedPartsFit buffer' index n <-> fixedPartsFit buffer index n.
Proof.
  intros Hlen. induction n as [|n IH]; intros index Hagree.
  - split; intros _ k Hk; lia.
  - rewrite !fixedPartsFit_S, (agreeFrom_nextRecord _ _ _ _ Hagree), Hlen.
    rewrite (IH _ (agreeFrom_next _ _ _ _ Hagree)). reflexivity.
Qed.

Lemma reservedVariant_agreeFrom buffer buffer' :
  reservedVariant buffer buffer' ->
  agreeFrom buffer buffer' 4 (markerCountOf buffer).
Proof. intros [_ H] i _ Hi. now apply H. Qed.

Lemma reservedVariant_count buffer buffer' :
  reservedVariant buffer buffer' ->
  markerCountOf buffer' = markerCountOf buffer.
Proof.
  intros [_ H]. unfold markerCountOf. f_equal. f_equal.
  rewrite <- (drop_0 buffer), <- (drop_0 buffer').
  symmetry. apply window_ext. intros i Hi. apply H.
  intros Hres. apply reservedOffset_ge in Hres. lia.
Qed.

Lemma reservedVariant_parse buffer buffer' floor w :
  reservedVariant buffer buffer' ->
  parseMarkerData icons_byID buffer' floor w
  = parseMarkerData icons_byID buffer floor w.
Proof.
  intros Hvar. pose proof Hvar as [Hlen _].
  pose proof (reservedVariant_count _ _ Hvar) as Hcount.
  pose proof (reservedVariant_agreeFrom _ _ Hvar) as Hagree.
  destruct (decide (4 <= length buffer)) as [H4|H4].
  - destruct (decide (fixedPartsFit buffer 4 (markerCountOf buffer))) as [Hf|Hf].
    + rewrite !parseMarkerData_returned; try lia; try assumption.
      * rewrite Hcount. now rewrite (agreeFrom_markersFrom _ _ _ _ _ Hagree).
      * rewrite Hcount. now apply (agreeFrom_fixedPartsFit _ _ _ Hlen _ Hagree).
    + rewrite !parseMarkerData_thrown; try lia; try assumption; [reflexivity|].
      rewrite Hcount. now rewrite (agreeFrom_fixedPartsFit _ _ _ Hlen _ Hagree).
  - rewrite !parseMarkerData_short by lia. reflexivity.
Qed.

End Reserved.

(** ** The palettes hold single pixels *)

Lemma unitPalette_insert palette k color :
  unitPalette palette -> unitPalette (<[k := pixelImage color]> palette).
Proof.
  intros H k' img. rewrite lookup_insert. destruct (decide (k = k')).
  - intros [= <-]. split; reflexivity.
  - apply H.
Qed.

Lemma unitPalette_path : unitPalette pathPixelPalette.
Proof.
  unfold pathPixelPalette. apply unitPalette_insert.
  generalize (range 0 (255 + 1)).
  assert (H0 : unitPalette ∅) by (intros k img; rewrite lookup_empty; discriminate).
  revert H0. generalize (∅ : gmap Z ImageData).
  intros palette Hp l. revert palette Hp.
  induction l as [|k l IH]; intros palette Hp; [exact Hp|].
  cbn [foldl]. apply IH. now apply unitPalette_insert.
Qed.

(** In the pathfinding layer every byte is known. *)
Lemma knownAt_path buffer i :
  knownAt pathPixelPalette buffer i <-> is_Some (bufferAt buffer i).
Proof.
  unfold knownAt, paletteAt. destruct (bufferAt buffer i) as [byte|].
  - rewrite pathPixelPalette_lookup. split; eauto.
  - split; intros [? ?]; discriminate.
Qed.

(** ** [drawMapSection] *)

Section Drivers.

Variable icons_byID : Z -> option jsstring.
Variable idToXyz : string -> Coordinates.
Variable path_basename : string -> string -> string.
Variable fs_readFile : string -> Buffer.

Local Abbreviation draw :=
  (drawMapSection icons_byID idToXyz path_basename fs_readFile).
Local Abbreviation markerSection' :=
  (markerSection icons_byID idToXyz path_basename fs_readFile).
Local Abbreviation layersDecode' := (layersDecode fs_readFile).
Local Abbreviation drawnLayers' := (drawnLayers idToXyz path_basename fs_readFile).
Local Abbreviation warned' := (warned fs_readFile).
Local Abbreviation stored' := (stored path_basename).
Local Abbreviation markerData' := (markerData fs_readFile).
Local Abbreviation floorOf :=
  (fun fileName => coord_z (tileCoordinates idToXyz path_basename fileName)).

Local Opaque N.to_nat Z.to_nat renderedImage.

Lemma drawMapSection_layers fileName includeMarkers w :
  layersDecode' fileName ->
  draw fileName includeMarkers w
  = markerSection' fileName includeMarkers (drawnLayers' fileName w).
Proof.
  intros [Hmap Hpath].
  destruct (renderWith_returned true _ _ w unitPalette_map Hmap) as [Hrun1 _].
  pose proof (fun w1 => proj1 (renderWith_returned false _ _ w1 unitPalette_path Hpath))
    as Hrun2.
  rewrite <- renderMap_renderWith in Hrun1.
  unfold drawMapSection.
  etransitivity; [apply bind_Returned; reflexivity|].
  etransitivity; [apply (bind_Returned _ _ _ _ _ Hrun1)|].
  etransitivity; [apply bind_Returned; reflexivity|].
  etransitivity; [apply (bind_Returned _ _ _ _ _ (Hrun2 _))|].
  etransitivity; [apply bind_Returned; reflexivity|].
  reflexivity.
Qed.

Lemma print_twice l1 l2 w :
  (print l1 ;; print l2) w = Returned tt (set_console (console w ++ [l1; l2]) w).
Proof.
  unfold bind, print, modify, set_console.
  cbn [console G_bounds G_mapCanvas G_pathCanvas markers written].
  now rewrite <- app_assoc.
Qed.

(** The report of an empty block comes first; the markers follow. *)
Lemma markerSection_split fileName includeMarkers w :
  markerSection' fileName includeMarkers w
  = bind (if includeMarkers
          then let* results := parseMarkerData icons_byID (markerData' fileName)
                                 (floorOf fileName) in
               if bool_decide (length results = 0) then ret tt
               else modify (fun w => set_markers
                              (<[tileId path_basename fileName := results]>
                                 (markers w)) w)
          else ret tt) (fun _ => ret tt) (warned' fileName w).
Proof.
  unfold markerSection, warned.
  destruct (bool_decide (length (markerData' fileName) = 0)); [|reflexivity].
  unfold bind at 1. unfold console_warn, console_log.
  now rewrite print_twice.
Qed.

Lemma markerSection_off fileName w :
  markerSection' fileName false w = Returned tt (warned' fileName w).
Proof. now rewrite markerSection_split. Qed.

Lemma markerSection_on fileName w :
  decodable (markerData' fileName) ->
  markerSection' fileName true w
  = Returned tt
      (stored' fileName
         (decodedMarkers icons_byID (markerData' fileName) (floorOf fileName))
         (warned' fileName w)).
Proof.
  intros [H4 Hfit]. rewrite markerSection_split.
  unfold bind at 1. unfold bind at 1.
  rewrite (parseMarkerData_returned icons_byID _ _ _ H4 Hfit).
  unfold stored. fold (decodedMarkers icons_byID (markerData' fileName) (floorOf fileName)).
  destruct (bool_decide
              (length (decodedMarkers icons_byID (markerData' fileName)
                         (floorOf fileName)) = 0)); reflexivity.
Qed.

Lemma markerSection_thrown fileName w :
  ~ decodable (markerData' fileName) ->
  markerSection' fileName true w = Thrown RangeError (warned' fileName w).
Proof.
  intros Hdec. rewrite markerSection_split.
  assert (Hparse : forall w1, parseMarkerData icons_byID (markerData' fileName)
                     (floorOf fileName) w1 = Thrown RangeError w1).
  { intros w1. destruct (decide (4 <= length (markerData' fileName))) as [H4|H4].
    - apply parseMarkerData_thrown; [exact H4|]. intros Hfit. apply Hdec.
      split; assumption.
    - apply parseMarkerData_short. lia. }
  unfold bind at 1. unfold bind at 1. now rewrite Hparse.
Qed.

Global Instance decodable_dec buffer : Decision (decodable buffer).
Proof. unfold decodable. apply _. Defined.

(** The outcomes of [drawMapSection] on a file whose layers decode. *)
Lemma drawMapSection_off fileName w :
  layersDecode' fileName ->
  draw fileName false w = Returned tt (warned' fileName (drawnLayers' fileName w)).
Proof.
  intros H. rewrite drawMapSection_layers by exact H. apply markerSection_off.
Qed.

Lemma drawMapSection_on fileName w :
  layersDecode' fileName -> decodable (markerData' fileName) ->
  draw fileName true w
  = Returned tt
      (stored' fileName
         (decodedMarkers icons_byID (markerData' fileName) (floorOf fileName))
         (warned' fileName (drawnLayers' fileName w))).
Proof.
  intros H Hdec. rewrite drawMapSection_layers by exact H.
  now apply markerSection_on.
Qed.

Lemma drawMapSection_thrown_markers fileName w :
  layersDecode' fileName -> ~ decodable (markerData' fileName) ->
  draw fileName true w
  = Thrown RangeError (warned' fileName (drawnLayers' fileName w)).
Proof.
  intros H Hdec. rewrite drawMapSection_layers by exact H.
  now apply markerSection_thrown.
Qed.

(** An unknown byte in the visual layer. *)
Lemma drawMapSection_thrown_map fileName includeMarkers w (k : Z) :
  (0 <= k < 65536)%Z ->
  (forall i, 0 <= i < k -> knownAt mapPixelPalette (mapData fs_readFile fileName) i)%Z ->
  ~ knownAt mapPixelPalette (mapData fs_readFile fileName) k ->
  draw fileName includeMarkers w
  = Thrown TypeError
      (assertFailed true (bufferAt (mapData fs_readFile fileName) k) w).
Proof.
  intros Hk Hbefore Hun.
  pose proof (renderWith_thrown true _ _ w k unitPalette_map Hk Hbefore Hun) as Hrun.
  rewrite <- renderMap_renderWith in Hrun.
  unfold drawMapSection.
  etransitivity; [apply bind_Returned; reflexivity|].
  apply (bind_Thrown _ _ _ _ _ Hrun).
Qed.

(** [drawMapSection] resolves only if both layers decode. *)
Lemma drawMapSection_inv fileName includeMarkers w w' :
  draw fileName includeMarkers w = Returned tt w' ->
  layersDecode' fileName.
Proof.
  unfold drawMapSection. intros H.
  apply bind_inv_Returned in H as (bounds & w0 & Hget & H).
  injection Hget as <- <-.
  apply bind_inv_Returned in H as (img1 & w1 & Hmap & H).
  rewrite renderMap_renderWith in Hmap.
  apply renderWith_inv in Hmap as (-> & -> & Hmap); [|exact unitPalette_map].
  apply bind_inv_Returned in H as ([] & w2 & Hmod & H).
  apply bind_inv_Returned in H as (img2 & w3 & Hpath & H).
  rewrite renderPath_renderWith in Hpath.
  apply renderWith_inv in Hpath as (-> & -> & Hpath); [|exact unitPalette_path].
  split; assumption.
Qed.

(** The marker part leaves the canvases alone. *)
Lemma markerSection_canvases fileName includeMarkers w w' :
  markerSection' fileName includeMarkers w = Returned tt w' ->
  G_mapCanvas w' = G_mapCanvas w /\ G_pathCanvas w' = G_pathCanvas w.
Proof.
  assert (Hwarned : G_mapCanvas (warned' fileName w) = G_mapCanvas w
                    /\ G_pathCanvas (warned' fileName w) = G_pathCanvas w)
    by (unfold warned; destruct (bool_decide _); split; reflexivity).
  destruct includeMarkers.
  - destruct (decide (decodable (markerData' fileName))) as [Hdec|Hdec].
    + rewrite markerSection_on by exact Hdec. intros H.
      apply Returned_inj in H as [_ <-].
      unfold stored. destruct (bool_decide _); [exact Hwarned|].
      cbn [set_markers G_mapCanvas G_pathCanvas]. exact Hwarned.
    + rewrite markerSection_thrown by exact Hdec. discriminate.
  - rewrite markerSection_off. intros H. apply Returned_inj in H as [_ <-].
    exact Hwarned.
Qed.

(** Where the bytes of the visual layer end up on the floor canvas. *)
Lemma drawMapSection_pixel fileName includeMarkers w w' (i : Z) :
  draw fileName includeMarkers w = Returned tt w' ->
  (0 <= i < 65536)%Z ->
  let col := (tileOffsetX idToXyz path_basename fileName w + i / 256)%Z in
  let row := (tileOffsetY idToXyz path_basename fileName w + i mod 256)%Z in
  (0 <= col < cwidth (G_mapCanvas w))%Z ->
  (0 <= row < cheight (G_mapCanvas w))%Z ->
  exists byte color,
    fs_readFile fileName !! Z.to_nat i = Some byte
    /\ byByte !! byteVal byte = Some color
    /\ cpixel (G_mapCanvas w') col row = Pixel (r color) (g color) (b color) 255.
Proof.
  intros Hdraw Hi col row Hcol Hrow.
  pose proof (drawMapSection_inv _ _ _ _ Hdraw) as Hlayers.
  rewrite drawMapSection_layers in Hdraw by exact Hlayers.
  apply markerSection_canvases in Hdraw as [-> _].
  destruct Hlayers as [Hmap _].
  destruct (colourAt_map _ i (Hmap i Hi)) as (byte & color & Hbyte & Hcolor & Hpix).
  exists byte, color. split; [|split; [exact Hcolor|]].
  - unfold bufferAt, mapData in Hbyte. rewrite slice_take_drop in Hbyte.
    destruct (Z.ltb_spec i 0) as [?|_]; [lia|].
    apply lookup_take_Some in Hbyte as [Hbyte _].
    now rewrite lookup_drop in Hbyte.
  - rewrite <- Hpix.
    destruct (renderWith_returned true _ _ w unitPalette_map Hmap) as [_ Himg].
    unfold drawnLayers.
    cbn [G_mapCanvas set_pathCanvas set_mapCanvas putPixels cpixel].
    destruct (renderedImage_size mapPixelPalette (mapData fs_readFile fileName))
      as [-> ->].
    fold col row.
    assert (Hin1 : inRect (tileOffsetX idToXyz path_basename fileName w)
                     (tileOffsetY idToXyz path_basename fileName w) 256 256 col row
                   = true)
      by (apply inRect_spec; subst col row;
          zify; Z.div_mod_to_equations; lia).
    assert (Hin2 : inRect 0 0 (cwidth (G_mapCanvas w)) (cheight (G_mapCanvas w))
                     col row = true)
      by (apply inRect_spec; lia).
    rewrite Hin1, Hin2. cbn [andb].
    rewrite Himg by (subst col row; zify; Z.div_mod_to_equations; lia).
    f_equal. subst col row. zify; Z.div_mod_to_equations; lia.
Qed.

(** A file made of two layers of known bytes and a block. *)
Lemma layersDecode_intro fileName (visual path block : Buffer) :
  fs_readFile fileName = visual ++ path ++ block ->
  length visual = N.to_nat 0x10000 -> length path = N.to_nat 0x10000 ->
  Forall (fun byte => is_Some (mapPixelPalette !! byteVal byte)) visual ->
  layersDecode' fileName /\ markerData' fileName = block.
Proof.
  intros Hfile Hv Hp Hknown.
  destruct (tile_layout visual path block Hv Hp) as (H1 & H2 & H3).
  unfold layersDecode, mapData, pathData, markerData. rewrite Hfile, H1, H2, H3.
  split; [|reflexivity]. split; intros i Hi.
  - apply knownAt_Forall; [exact Hknown | lia].
  - apply knownAt_path. unfold bufferAt.
    destruct (Z.ltb_spec i 0) as [?|_]; [lia|].
    apply lookup_lt_is_Some_2. lia.
Qed.

End Drivers.

(** ** [renderFloor] *)

Section Floors.

Variable icons_byID : Z -> option jsstring.
Variable idToXyz : string -> Coordinates.
Variable path_basename : string -> string -> string.
Variable fs_readFile : string -> Buffer.
Variable glob : string -> list string.
Variable fillStyleColor : string -> RGBA.

Local Abbreviation draw :=
  (drawMapSection icons_byID idToXyz path_basename fs_readFile).
Local Abbreviation floor' :=
  (renderFloor icons_byID idToXyz path_basename fs_readFile glob fillStyleColor).
Local Abbreviation layersDecode' := (layersDecode fs_readFile).
Local Abbreviation drawnLayers' := (drawnLayers idToXyz path_basename fs_readFile).
Local Abbreviation warned' := (warned fs_readFile).
Local Abbreviation stored' := (stored path_basename).
Local Abbreviation markerData' := (markerData fs_readFile).

Local Opaque N.to_nat Z.to_nat renderedImage.

Lemma handleSequence_cons_Returned {A} (item : A) rest (callback : A -> M unit) w w1 :
  callback item w = Returned tt w1 ->
  handleSequence (item :: rest) callback w = handleSequence rest callback w1.
Proof. intros H. cbn [handleSequence]. unfold bind. now rewrite H. Qed.

Lemma handleSequence_cons_Thrown {A} (item : A) rest (callback : A -> M unit) w e w1 :
  callback item w = Thrown e w1 ->
  handleSequence (item :: rest) callback w = Thrown e w1.
Proof. intros H. cbn [handleSequence]. unfold bind. now rewrite H. Qed.

Lemma renderFloor_steps floorID mapDirectory dataDirectory includeMarkers w :
  floor' floorID mapDirectory dataDirectory includeMarkers w
  = match handleSequence (floorFiles glob floorID mapDirectory)
            (fun fileName => draw fileName includeMarkers)
            (floorStart fillStyleColor floorID w) with
    | Returned _ w1 =>
        Returned tt
          (set_written
             (written w1 ++ floorOutput floorID dataDirectory includeMarkers w1) w1)
    | Thrown e w1 => Thrown e w1
    end.
Proof.
  unfold renderFloor.
  etransitivity; [apply bind_Returned; reflexivity|].
  etransitivity; [apply bind_Returned; reflexivity|].
  etransitivity; [apply bind_Returned; reflexivity|].
  etransitivity; [apply bind_Returned; reflexivity|].
  etransitivity; [apply bind_Returned; reflexivity|].
  etransitivity; [apply bind_Returned; reflexivity|].
  etransitivity; [apply bind_Returned; reflexivity|].
  etransitivity; [apply bind_Returned; reflexivity|].
  unfold bind at 1. fold (floorFiles glob floorID mapDirectory).
  match goal with
  | |- match handleSequence _ _ ?w0 with _ => _ end = _ =>
      change w0 with (floorStart fillStyleColor floorID w)
  end.
  destruct (handleSequence _ _ _) as [[] w1|e w1]; [|reflexivity].
  unfold bind, get, saveCanvasToPNG, writeJSON, modify, floorOutput, set_written.
  cbn [written G_bounds G_mapCanvas G_pathCanvas markers console].
  now rewrite <- !app_assoc.
Qed.

Lemma sameButMarkers_drawn fileName w w' :
  sameButMarkers w w' ->
  sameButMarkers (warned' fileName (drawnLayers' fileName w))
                 (warned' fileName (drawnLayers' fileName w')).
Proof.
  intros (Hb & Hm & Hp & Hc & Hw).
  unfold warned, drawnLayers, tileOffsetX, tileOffsetY, sameButMarkers.
  destruct (bool_decide _);
    cbn [set_console set_mapCanvas set_pathCanvas
         G_bounds G_mapCanvas G_pathCanvas console written markers];
    rewrite Hb, Hm, Hp, Hc, Hw; repeat split; reflexivity.
Qed.

Lemma sameButMarkers_stored fileName results w w' :
  sameButMarkers w w' -> sameButMarkers (stored' fileName results w) w'.
Proof.
  intros H. unfold stored. destruct (bool_decide _); [exact H|].
  exact H.
Qed.

Lemma markers_drawn fileName w :
  markers (warned' fileName (drawnLayers' fileName w)) = markers w.
Proof. unfold warned, drawnLayers. destruct (bool_decide _); reflexivity. Qed.

(** Whatever the run with markers resolves to, the run without
    resolves to the same canvases, console and output. *)
Lemma handleSequence_flag files :
  forall w w' w1,
  sameButMarkers w w' ->
  handleSequence files (fun fileName => draw fileName true) w = Returned tt w1 ->
  exists w1',
    handleSequence files (fun fileName => draw fileName false) w' = Returned tt w1'
    /\ sameButMarkers w1 w1' /\ markers w1' = markers w'.
Proof.
  induction files as [|fileName files IH]; intros w w' w1 Hsame Hrun.
  - injection Hrun as <-. exists w'.
    split; [reflexivity|]. split; [exact Hsame | reflexivity].
  - cbn [handleSequence] in Hrun.
    apply bind_inv_Returned in Hrun as ([] & wa & Hdraw & Hrun).
    pose proof (drawMapSection_inv _ _ _ _ _ _ _ _ Hdraw) as Hlayers.
    destruct (decide (decodable (markerData' fileName))) as [Hdec|Hdec].
    + rewrite drawMapSection_on in Hdraw by assumption.
      apply Returned_inj in Hdraw as [_ <-].
      destruct (IH _ (warned' fileName (drawnLayers' fileName w')) _
                  (sameButMarkers_stored _ _ _ _ (sameButMarkers_drawn fileName _ _ Hsame))
                  Hrun) as (w1' & Hrun' & Hsame' & Hmarkers).
      exists w1'. split; [|split; [exact Hsame'|]].
      * rewrite (handleSequence_cons_Returned fileName files
                   (fun fileName => draw fileName false) w' _
                   (drawMapSection_off icons_byID idToXyz path_basename
                      fs_readFile fileName w' Hlayers)).
        exact Hrun'.
      * rewrite Hmarkers. apply markers_drawn.
    + rewrite drawMapSection_thrown_markers in Hdraw by assumption.
      discriminate.
Qed.

Lemma written_drawn fileName results w :
  written (stored' fileName results (warned' fileName (drawnLayers' fileName w)))
  = written w
  /\ written (warned' fileName (drawnLayers' fileName w)) = written w.
Proof.
  unfold stored, warned, drawnLayers.
  destruct (bool_decide (length results = 0));
    destruct (bool_decide (length (markerData' fileName) = 0));
    split; reflexivity.
Qed.

(** Drawing the files of a floor hands nothing over yet. *)
Lemma handleSequence_written includeMarkers files :
  forall w w1,
  handleSequence files (fun fileName => draw fileName includeMarkers) w
  = Returned tt w1 ->
  written w1 = written w.
Proof.
  induction files as [|fileName files IH]; intros w w1 Hrun.
  - apply Returned_inj in Hrun as [_ <-]. reflexivity.
  - cbn [handleSequence] in Hrun.
    apply bind_inv_Returned in Hrun as ([] & wa & Hdraw & Hrun).
    pose proof (drawMapSection_inv _ _ _ _ _ _ _ _ Hdraw) as Hlayers.
    rewrite (IH _ _ Hrun).
    destruct includeMarkers.
    + destruct (decide (decodable (markerData' fileName))) as [Hdec|Hdec].
      * rewrite drawMapSection_on in Hdraw by assumption.
        apply Returned_inj in Hdraw as [_ <-]. apply written_drawn.
      * rewrite drawMapSection_thrown_markers in Hdraw by assumption.
        discriminate.
    + rewrite drawMapSection_off in Hdraw by assumption.
      apply Returned_inj in Hdraw as [_ <-].
      apply (written_drawn fileName []).
Qed.

(** Files that decode are all drawn. *)
Lemma handleSequence_returns includeMarkers files :
  Forall (fun fileName =>
            layersDecode' fileName
            /\ (includeMarkers = true -> decodable (markerData' fileName))) files ->
  forall w, exists w1,
    handleSequence files (fun fileName => draw fileName includeMarkers) w
    = Returned tt w1.
Proof.
  induction 1 as [|fileName files [Hlayers Hdec] _ IH]; intros w.
  - exists w. reflexivity.
  - destruct includeMarkers.
    + destruct (IH (stored' fileName
                      (decodedMarkers icons_byID (markerData' fileName)
                         (coord_z (tileCoordinates idToXyz path_basename fileName)))
                      (warned' fileName (drawnLayers' fileName w)))) as [w1 Hrun].
      exists w1. rewrite <- Hrun. apply handleSequence_cons_Returned.
      apply drawMapSection_on; auto.
    + destruct (IH (warned' fileName (drawnLayers' fileName w))) as [w1 Hrun].
      exists w1. rewrite <- Hrun. apply handleSequence_cons_Returned.
      now apply drawMapSection_off.
Qed.

Lemma renderFloor_returns floorID mapDirectory dataDirectory includeMarkers w :
  Forall (fun fileName =>
            layersDecode' fileName
            /\ (includeMarkers = true -> decodable (markerData' fileName)))
         (floorFiles glob floorID mapDirectory) ->
  exists w1,
    floor' floorID mapDirectory dataDirectory includeMarkers w = Returned tt w1.
Proof.
  intros Hfiles.
  destruct (handleSequence_returns includeMarkers _ Hfiles
              (floorStart fillStyleColor floorID w)) as [w1 Hrun].
  rewrite renderFloor_steps, Hrun. eexists. reflexivity.
Qed.

(** An error in the first file ends the run over the floor: nothing
    is handed over. *)
Lemma renderFloor_thrown floorID mapDirectory dataDirectory includeMarkers w
    fileName rest e w1 :
  floorFiles glob floorID mapDirectory = fileName :: rest ->
  draw fileName includeMarkers (floorStart fillStyleColor floorID w) = Thrown e w1 ->
  floor' floorID mapDirectory dataDirectory includeMarkers w = Thrown e w1.
Proof.
  intros Hfiles Hdraw. rewrite renderFloor_steps, Hfiles.
  now rewrite (handleSequence_cons_Thrown fileName rest
                 (fun fileName => draw fileName includeMarkers) _ _ _ Hdraw).
Qed.

End Floors.

(** ** The decoder as a whole *)

Section Decoder.

Variable icons_byID : Z -> option jsstring.

Lemma parseMarkerData_decodable buffer floor w :
  decodable buffer ->
  parseMarkerData icons_byID buffer floor w
  = Returned (decodedMarkers icons_byID buffer floor) w.
Proof. intros [H4 Hfit]. now apply parseMarkerData_returned. Qed.

Lemma parseMarkerData_undecodable buffer floor w :
  ~ decodable buffer ->
  parseMarkerData icons_byID buffer floor w = Thrown RangeError w.
Proof.
  intros Hdec. destruct (decide (4 <= length buffer)) as [H4|H4].
  - apply parseMarkerData_thrown; [exact H4|]. intros Hfit. apply Hdec.
    split; assumption.
  - apply parseMarkerData_short. lia.
Qed.

Lemma parseMarkerData_inv buffer floor w out w' :
  parseMarkerData icons_byID buffer floor w = Returned out w' ->
  decodable buffer /\ w' = w /\ out = decodedMarkers icons_byID buffer floor.
Proof.
  intros H. destruct (decide (decodable buffer)) as [Hdec|Hdec].
  - rewrite parseMarkerData_decodable in H by exact Hdec.
    apply Returned_inj in H as [<- <-]. auto.
  - rewrite parseMarkerData_undecodable in H by exact Hdec. discriminate.
Qed.

Lemma markersFrom_length buffer floor n :
  forall index, length (markersFrom icons_byID buffer floor index n) = n.
Proof.
  induction n as [|n IH]; intros index; cbn [markersFrom length]; [reflexivity|].
  now rewrite IH.
Qed.

Lemma markersFrom_lookup buffer floor n :
  forall index k, k < n ->
  markersFrom icons_byID buffer floor index n !! k
  = Some (markerAt icons_byID buffer floor (recordStartFrom buffer index k)).
Proof.
  induction n as [|n IH]; intros index k Hk; [lia|].
  destruct k as [|k]; [reflexivity|].
  cbn [markersFrom recordStartFrom]. apply IH. lia.
Qed.

Lemma decodedMarkers_elem_of buffer floor m :
  m ∈ decodedMarkers icons_byID buffer floor ->
  m ∈ markersFrom icons_byID buffer floor 4 (markerCountOf buffer).
Proof.
  intros H. apply filterUnique_elem_of in H.
  now rewrite arraySort_Permutation in H.
Qed.

Lemma decodedMarkers_sorted buffer floor :
  StronglySorted (fun m1 m2 => sortKey m1 <= sortKey m2)%Z
    (decodedMarkers icons_byID buffer floor).
Proof. apply filterUnique_sorted, arraySort_sorted. Qed.

(** A well-formed block is decoded, whatever follows it. *)
Lemma wellFormedBlock_app buffer extra :
  wellFormedBlock buffer ->
  decodable (buffer ++ extra)
  /\ markerCountOf (buffer ++ extra) = markerCountOf buffer
  /\ forall floor,
       markersFrom icons_byID (buffer ++ extra) floor 4 (markerCountOf buffer)
       = markersFrom icons_byID buffer floor 4 (markerCountOf buffer).
Proof.
  intros [H4 Hend]. unfold recordStart in Hend.
  assert (Hcount : markerCountOf (buffer ++ extra) = markerCountOf buffer)
    by (unfold markerCountOf; now rewrite take_app_le by lia).
  split; [|split; [exact Hcount|]].
  - split; [rewrite length_app; lia|].
    rewrite Hcount. apply fixedPartsFit_whole.
    rewrite recordStartFrom_app by exact Hend. rewrite length_app. lia.
  - intros floor. now apply markersFrom_app.
Qed.

(** Markers whose texts differ pairwise are all kept. *)
Lemma filterUnique_all set l :
  (forall m, m ∈ l -> serialized m ∉ set) ->
  NoDup (serialized <$> l) ->
  filterUnique set l = l.
Proof.
  revert set. induction l as [|a l IH]; intros set Hfresh Hnodup; [reflexivity|].
  cbn [filterUnique]. change (toLowerCase (JSON_stringify a)) with (serialized a).
  rewrite bool_decide_eq_false_2 by (apply Hfresh; left).
  cbn [negb]. f_equal.
  cbn [fmap list_fmap] in Hnodup. apply NoDup_cons in Hnodup as [Ha Hnodup].
  apply IH; [|exact Hnodup].
  intros m Hm. apply not_elem_of_add. split; [apply Hfresh; now right|].
  intros Heq. apply Ha. rewrite <- Heq. now apply list_elem_of_fmap_2.
Qed.

End Decoder.

(** ** The serialized text determines the marker *)

Lemma toLowerCase_unit_plain c :
  (0x20 <= c)%N -> c <> 0x22%N -> c <> 0x5C%N ->
  (0x20 <= toLowerCase_unit c)%N
  /\ toLowerCase_unit c <> 0x22%N /\ toLowerCase_unit c <> 0x5C%N.
Proof.
  intros H1 H2 H3. destruct (decide (toLowerCase_unit c = c)) as [->|Hne]; [auto|].
  destruct (toLowerCase_unit_changed c Hne) as (_ & _ & H4 & H5 & _).
  repeat split; lia.
Qed.

Lemma escaped_units c :
  (c < 0x20 \/ c = 0x22 \/ c = 0x5C)%N ->
  c ∈ (0x22 :: 0x5C :: (N.of_nat <$> seq 0 32))%N.
Proof.
  intros [H|[-> | ->]]; [|left|right; left].
  right. right. apply list_elem_of_fmap. exists (N.to_nat c).
  split; [lia|]. apply elem_of_seq. lia.
Qed.

(** [unquoteUnit] reads the escape of a code unit back. *)
Lemma unquoteUnit_quote c rest :
  unquoteUnit (toLowerCase (JSON_quote_unit c) ++ rest)
  = Some (toLowerCase_unit c, rest).
Proof.
  destruct (decide (c < 0x20 \/ c = 0x22 \/ c = 0x5C)%N) as [Hc|Hc].
  - apply escaped_units in Hc. cbn [seq fmap list_fmap] in Hc.
    repeat (apply elem_of_cons in Hc as [->|Hc]; [reflexivity|]).
    inversion Hc.
  - rewrite JSON_quote_unit_plain by lia.
    destruct (toLowerCase_unit_plain c) as (H1 & H2 & H3); [lia..|].
    cbn [toLowerCase map app unquoteUnit].
    destruct (N.eqb_spec (toLowerCase_unit c) 0x22); [contradiction|].
    destruct (N.eqb_spec (toLowerCase_unit c) 0x5C); [contradiction|].
    reflexivity.
Qed.

(** Two lower-cased JSON strings that are followed by their closing
    quotes and agree hold the same text up to case, and what follows
    them agrees as well. *)
Lemma quoted_inv s1 :
  forall s2 rest1 rest2,
  toLowerCase (concat (map JSON_quote_unit s1)) ++ 0x22%N :: rest1
  = toLowerCase (concat (map JSON_quote_unit s2)) ++ 0x22%N :: rest2 ->
  toLowerCase s1 = toLowerCase s2 /\ rest1 = rest2.
Proof.
  induction s1 as [|c1 s1 IH]; intros [|c2 s2] rest1 rest2 H;
    cbn [map concat] in H; rewrite ?toLowerCase_app, <- ?app_assoc in H.
  - injection H as ->. auto.
  - apply (f_equal unquoteUnit) in H. rewrite unquoteUnit_quote in H. discriminate.
  - apply (f_equal unquoteUnit) in H. rewrite unquoteUnit_quote in H. discriminate.
  - apply (f_equal unquoteUnit) in H. rewrite !unquoteUnit_quote in H.
    injection H as Hc H. apply IH in H as [Hs ->].
    split; [|reflexivity]. cbn [toLowerCase map]. unfold toLowerCase in Hs.
    now rewrite Hc, Hs.
Qed.

Lemma lit_cons a s : lit (String a s) = N_of_ascii a :: lit s.
Proof. reflexivity. Qed.

Lemma lit_inj s1 : forall s2, lit s1 = lit s2 -> s1 = s2.
Proof.
  induction s1 as [|a1 s1 IH]; intros [|a2 s2] H; try discriminate; [reflexivity|].
  rewrite !lit_cons in H. injection H as Ha Hs.
  apply (f_equal ascii_of_N) in Ha. rewrite !ascii_N_embedding in Ha.
  now rewrite Ha, (IH _ Hs).
Qed.

Lemma pretty_N_char_numeric d : numeric (N_of_ascii (pretty_N_char d)).
Proof. unfold pretty_N_char, numeric. repeat case_match; cbn; lia. Qed.

Lemma pretty_N_go_numeric x :
  forall s, Forall numeric (lit s) -> Forall numeric (lit (pretty_N_go x s)).
Proof.
  induction (N.lt_wf_0 x) as [x _ IH]. intros s Hs.
  destruct (decide (x = 0%N)) as [->|Hx]; [rewrite pretty_N_go_0; exact Hs|].
  rewrite pretty_N_go_step by lia. apply IH; [apply N.div_lt; lia|].
  rewrite lit_cons. constructor; [apply pretty_N_char_numeric | exact Hs].
Qed.

Lemma pretty_N_numeric (n : N) : Forall numeric (lit (pretty n)).
Proof.
  unfold pretty, pretty_N. destruct (decide (n = 0%N)).
  - change (Forall numeric [0x30%N]).
    constructor; [unfold numeric; lia | constructor].
  - apply pretty_N_go_numeric. constructor.
Qed.

Lemma JSON_number_numeric n : Forall numeric (JSON_number n).
Proof.
  unfold JSON_number. destruct n as [|p|p].
  - change (Forall numeric [0x30%N]).
    constructor; [unfold numeric; lia | constructor].
  - apply (pretty_N_numeric (N.pos p)).
  - change (pretty (Z.neg p)) with (String "-" (pretty (N.pos p))).
    rewrite lit_cons. constructor; [right; reflexivity | apply pretty_N_numeric].
Qed.

Lemma JSON_number_inj n1 n2 : JSON_number n1 = JSON_number n2 -> n1 = n2.
Proof. intros H. apply lit_inj in H. exact (inj pretty _ _ H). Qed.

Lemma toLowerCase_numeric s : Forall numeric s -> toLowerCase s = s.
Proof.
  induction 1 as [|c s Hc Hs IH]; [reflexivity|].
  cbn [toLowerCase map]. unfold toLowerCase in IH. rewrite IH. f_equal.
  unfold numeric in Hc. unfold toLowerCase_unit. N_cases; cbn [andb negb]; lia.
Qed.

(** Two numbers followed by the same separator. *)
Lemma separated_inv (sep : N) (s1 : jsstring) :
  ~ numeric sep ->
  forall s2 rest1 rest2,
  Forall numeric s1 -> Forall numeric s2 ->
  s1 ++ sep :: rest1 = s2 ++ sep :: rest2 ->
  s1 = s2 /\ rest1 = rest2.
Proof.
  intros Hsep. induction s1 as [|c1 s1 IH]; intros [|c2 s2] rest1 rest2 H1 H2 H;
    cbn [app] in H.
  - injection H as ->. auto.
  - injection H as -> _. apply Forall_cons in H2 as [H2 _]. contradiction.
  - injection H as -> _. apply Forall_cons in H1 as [H1 _]. contradiction.
  - injection H as -> H. apply Forall_cons in H1 as [_ H1].
    apply Forall_cons in H2 as [_ H2].
    destruct (IH _ _ _ H1 H2 H) as [-> ->]. auto.
Qed.

Lemma positionText_inv a b :
  positionText a = positionText b -> x a = x b /\ y a = y b /\ z a = z b.
Proof.
  unfold positionText. intros H. apply app_inv_head in H.
  apply separated_inv in H as [Hx H];
    [|unfold numeric; lia | apply JSON_number_numeric..].
  apply app_inv_head in H.
  apply separated_inv in H as [Hy H];
    [|unfold numeric; lia | apply JSON_number_numeric..].
  apply app_inv_head in H.
  apply separated_inv in H as [Hz _];
    [|unfold numeric; lia | apply JSON_number_numeric..].
  auto using JSON_number_inj.
Qed.

Lemma serialized_unfold m :
  serialized m
  = toLowerCase (lit "{" ++ JSON_key "description" ++ [0x22%N])
    ++ toLowerCase (concat (map JSON_quote_unit (description m)))
    ++ 0x22%N
       :: match icon m with
          | Some name =>
              toLowerCase (lit "," ++ JSON_key "icon" ++ [0x22%N])
              ++ toLowerCase (concat (map JSON_quote_unit name))
              ++ 0x22%N :: positionText m
          | None => positionText m
          end.
Proof.
  unfold serialized, JSON_stringify, JSON_quote, positionText.
  pose proof (toLowerCase_numeric _ (JSON_number_numeric (x m))) as Hx.
  pose proof (toLowerCase_numeric _ (JSON_number_numeric (y m))) as Hy.
  pose proof (toLowerCase_numeric _ (JSON_number_numeric (z m))) as Hz.
  destruct (icon m) as [name|];
    rewrite !toLowerCase_app, Hx, Hy, Hz, <- !app_assoc; reflexivity.
Qed.

(** The text under which the filter recognises a duplicate determines
    the marker up to the case of its two texts. *)
Lemma serialized_sameUpToCase a b :
  serialized a = serialized b <-> sameUpToCase a b.
Proof.
  rewrite !serialized_unfold. unfold sameUpToCase. split.
  - intros H. apply app_inv_head in H. apply quoted_inv in H as [Hdesc H].
    destruct (icon a) as [na|], (icon b) as [nb|].
    + apply app_inv_head in H. apply quoted_inv in H as [Hicon H].
      apply positionText_inv in H as (Hx & Hy & Hz).
      cbn [fmap option_fmap option_map]. rewrite Hicon. auto.
    + exfalso. unfold positionText in H. cbn in H. discriminate.
    + exfalso. unfold positionText in H. cbn in H. discriminate.
    + apply positionText_inv in H as (Hx & Hy & Hz). auto.
  - intros (Hx & Hy & Hz & Hicon & Hdesc).
    assert (Hbody : forall s1 s2, toLowerCase s1 = toLowerCase s2 ->
              toLowerCase (concat (map JSON_quote_unit s1))
              = toLowerCase (concat (map JSON_quote_unit s2))).
    { intros s1 s2 Hs. apply toLowerCase_quote in Hs. unfold JSON_quote in Hs.
      rewrite !toLowerCase_app in Hs.
      apply app_inv_head, app_inv_tail in Hs. exact Hs. }
    rewrite (Hbody _ _ Hdesc).
    assert (Hpos : positionText a = positionText b)
      by (unfold positionText; now rewrite Hx, Hy, Hz).
    destruct (icon a) as [na|], (icon b) as [nb|]; try discriminate.
    + injection Hicon as Hicon. now rewrite (Hbody _ _ Hicon), Hpos.
    + now rewrite Hpos.
Qed.

(** ** The markers that stand for a record *)

Lemma lowerCase_fixed name :
  Forall (fun c => (c < 0x41 \/ 0x5A < c < 0x80)%N) name -> toLowerCase name = name.
Proof.
  induction 1 as [|c s Hc Hs IH]; [reflexivity|].
  cbn [toLowerCase map]. unfold toLowerCase in IH. rewrite IH. f_equal.
  unfold toLowerCase_unit. N_cases; cbn [andb negb]; lia.
Qed.

Lemma filterUnique_length set l : length (filterUnique set l) <= length l.
Proof.
  revert set. induction l as [|a l IH]; intros set; [reflexivity|].
  cbn [filterUnique]. destruct (negb _); cbn [length]; specialize (IH (set ∪ {[toLowerCase (JSON_stringify a)]})); lia.
Qed.

Section Represented.

Variable icons_byID : Z -> option jsstring.

Lemma markersFrom_record buffer floor n m :
  forall index,
  m ∈ markersFrom icons_byID buffer floor index n ->
  exists k, k < n
            /\ m = markerAt icons_byID buffer floor (recordStartFrom buffer index k).
Proof.
  intros index Hm. apply list_elem_of_lookup in Hm as [k Hk].
  assert (Hlt : k < n).
  { apply lookup_lt_Some in Hk. now rewrite markersFrom_length in Hk. }
  rewrite markersFrom_lookup in Hk by exact Hlt.
  exists k. split; [exact Hlt | congruence].
Qed.

(** With icon names in lower case, what the filter takes for the same
    marker agrees in every field but the case of the description. *)
Lemma sameUpToCase_records buffer floor n index a b :
  lowerCaseIcons icons_byID ->
  a ∈ markersFrom icons_byID buffer floor index n ->
  b ∈ markersFrom icons_byID buffer floor index n ->
  sameUpToCase a b -> sameIgnoringCase a b.
Proof.
  intros Hicons Ha Hb (Hx & Hy & Hz & Hicon & Hdesc).
  repeat split; try assumption.
  apply markersFrom_record in Ha as (ka & _ & ->).
  apply markersFrom_record in Hb as (kb & _ & ->).
  cbn [markerAt icon] in *.
  destruct (icons_byID _) as [na|] eqn:Ea in Hicon |- *;
    destruct (icons_byID _) as [nb|] eqn:Eb in Hicon |- *;
    try discriminate; [|reflexivity].
  injection Hicon as Hicon.
  rewrite (lowerCase_fixed _ (Hicons _ _ Ea)) in Hicon.
  rewrite (lowerCase_fixed _ (Hicons _ _ Eb)) in Hicon.
  now rewrite Hicon.
Qed.

(** Each record is represented in the result. *)
Lemma decodedMarkers_represents buffer floor r :
  lowerCaseIcons icons_byID ->
  r ∈ markersFrom icons_byID buffer floor 4 (markerCountOf buffer) ->
  exists i m,
    decodedMarkers icons_byID buffer floor !! i = Some m
    /\ m ∈ markersFrom icons_byID buffer floor 4 (markerCountOf buffer)
    /\ serialized m = serialized r
    /\ sameIgnoringCase m r.
Proof.
  intros Hicons Hr.
  destruct (filterUnique_covers ∅
              (arraySort compareMarkers
                 (markersFrom icons_byID buffer floor 4 (markerCountOf buffer))) r)
    as (m & Hm & Hkey).
  { now rewrite arraySort_Permutation. }
  { apply not_elem_of_empty. }
  fold (decodedMarkers icons_byID buffer floor) in Hm.
  pose proof (decodedMarkers_elem_of _ _ _ _ Hm) as Hrecord.
  apply list_elem_of_lookup in Hm as [i Hi].
  exists i, m. split; [exact Hi|]. split; [exact Hrecord|]. split; [exact Hkey|].
  apply (sameUpToCase_records buffer floor (markerCountOf buffer) 4);
    [assumption..|].
  apply serialized_sameUpToCase, Hkey.
Qed.

(** No two entries of the result are the same marker to the filter. *)
Lemma decodedMarkers_single buffer floor i j m m' :
  decodedMarkers icons_byID buffer floor !! i = Some m ->
  decodedMarkers icons_byID buffer floor !! j = Some m' ->
  sameUpToCase m' m -> j = i.
Proof.
  intros Hi Hj Hsame. apply serialized_sameUpToCase in Hsame.
  pose proof (filterUnique_NoDup ∅
                (arraySort compareMarkers
                   (markersFrom icons_byID buffer floor 4 (markerCountOf buffer))))
    as Hnodup.
  fold (decodedMarkers icons_byID buffer floor) in Hnodup.
  apply (NoDup_lookup _ j i (serialized m) Hnodup).
  - rewrite list_lookup_fmap, Hj.
    change (Some (serialized m') = Some (serialized m)). now rewrite Hsame.
  - rewrite list_lookup_fmap, Hi. reflexivity.
Qed.

Lemma sameIgnoringCase_sameUpToCase a b : sameIgnoringCase a b -> sameUpToCase a b.
Proof.
  intros (Hx & Hy & Hz & Hicon & Hdesc). repeat split; try assumption.
  now rewrite Hicon.
Qed.

End Represented.

(** ** How a tile and a floor end *)

Section Outcomes.

Variable icons_byID : Z -> option jsstring.
Variable idToXyz : string -> Coordinates.
Variable path_basename : string -> string -> string.
Variable fs_readFile : string -> Buffer.
Variable glob : string -> list string.
Variable fillStyleColor : string -> RGBA.

Local Abbreviation draw :=
  (drawMapSection icons_byID idToXyz path_basename fs_readFile).
Local Abbreviation floor' :=
  (renderFloor icons_byID idToXyz path_basename fs_readFile glob fillStyleColor).
Local Abbreviation layersDecode' := (layersDecode fs_readFile).
Local Abbreviation drawnLayers' := (drawnLayers idToXyz path_basename fs_readFile).
Local Abbreviation warned' := (warned fs_readFile).
Local Abbreviation markerData' := (markerData fs_readFile).
Local Abbreviation offsetX := (tileOffsetX idToXyz path_basename).
Local Abbreviation offsetY := (tileOffsetY idToXyz path_basename).
Local Abbreviation mapLayer' := (mapLayer fs_readFile).
Local Abbreviation pathLayer' := (pathLayer fs_readFile).

Local Opaque N.to_nat Z.to_nat renderedImage.

Lemma layer_cases palette buffer :
  (forall i, 0 <= i < 65536 -> knownAt palette buffer i)%Z
  \/ exists k, (0 <= k < 65536)%Z
       /\ (forall i, 0 <= i < k -> knownAt palette buffer i)%Z
       /\ ~ knownAt palette buffer k.
Proof.
  destruct (first_unknown palette buffer (Z.to_nat 65536))
    as [Hall|(j & Hj & Hbefore & Hun)].
  - left. intros i Hi. apply Hall. lia.
  - right. exists (Z.of_nat j). split; [lia|]. split; assumption.
Qed.

(** A pathfinding layer that is too short. *)
Lemma drawMapSection_thrown_path fileName includeMarkers w (k : Z) :
  (forall i, 0 <= i < 65536 -> knownAt mapPixelPalette (mapData fs_readFile fileName) i)%Z ->
  (0 <= k < 65536)%Z ->
  (forall i, 0 <= i < k -> knownAt pathPixelPalette (pathData fs_readFile fileName) i)%Z ->
  ~ knownAt pathPixelPalette (pathData fs_readFile fileName) k ->
  draw fileName includeMarkers w
  = Thrown TypeError
      (set_mapCanvas
         (putPixels (mapLayer' fileName) (offsetX fileName w) (offsetY fileName w)
            (G_mapCanvas w)) w).
Proof.
  intros Hmap Hk Hbefore Hun.
  destruct (renderWith_returned true _ _ w unitPalette_map Hmap) as [Hrun1 _].
  rewrite <- renderMap_renderWith in Hrun1.
  assert (Hrun2 : forall w1,
            renderPath (pathData fs_readFile fileName) w1 = Thrown TypeError w1).
  { intros w1. rewrite renderPath_renderWith.
    exact (renderWith_thrown false _ _ w1 k unitPalette_path Hk Hbefore Hun). }
  unfold drawMapSection.
  etransitivity; [apply bind_Returned; reflexivity|].
  etransitivity; [apply (bind_Returned _ _ _ _ _ Hrun1)|].
  etransitivity; [apply bind_Returned; reflexivity|].
  apply (bind_Thrown _ _ _ _ _ (Hrun2 _)).
Qed.

Lemma layersDecode_cases fileName :
  layersDecode' fileName
  \/ (~ layersDecode' fileName
      /\ forall includeMarkers w,
           exists w', draw fileName includeMarkers w = Thrown TypeError w').
Proof.
  destruct (layer_cases mapPixelPalette (mapData fs_readFile fileName))
    as [Hmap|(k & Hk & Hbefore & Hun)].
  - destruct (layer_cases pathPixelPalette (pathData fs_readFile fileName))
      as [Hpath|(k & Hk & Hbefore & Hun)].
    + left. split; assumption.
    + right. split; [intros [_ Hpath]; apply Hun, Hpath, Hk|].
      intros includeMarkers w. eexists.
      apply (drawMapSection_thrown_path _ _ _ k); assumption.
  - right. split; [intros [Hmap _]; apply Hun, Hmap, Hk|].
    intros includeMarkers w. eexists.
    apply (drawMapSection_thrown_map _ _ _ _ _ _ _ k); assumption.
Qed.

(** A tile without marker block, markers included: the condition is
    reported, then the decoder raises. *)
Lemma drawMapSection_empty_block fileName includeMarkers w :
  layersDecode' fileName -> length (markerData' fileName) = 0 ->
  console (finalWorld (draw fileName includeMarkers w))
  = console w
    ++ [console_warn_line ("File with invalid marker data: " ++ fileName ++ ". Fix:");
        console_log_line ("printf '\0\0\0\0' >> " ++ fileName)]
  /\ draw fileName true w
     = Thrown RangeError (warned' fileName (drawnLayers' fileName w)).
Proof.
  intros Hlayers Hlength.
  assert (Hdec : ~ decodable (markerData' fileName))
    by (intros [H4 _]; lia).
  assert (Hconsole : console (warned' fileName (drawnLayers' fileName w))
                     = console w
                       ++ [console_warn_line
                             ("File with invalid marker data: " ++ fileName ++ ". Fix:");
                           console_log_line ("printf '\0\0\0\0' >> " ++ fileName)]).
  { unfold warned. rewrite bool_decide_eq_true_2 by exact Hlength. reflexivity. }
  split; [|now apply drawMapSection_thrown_markers].
  destruct includeMarkers.
  - rewrite drawMapSection_thrown_markers by assumption. exact Hconsole.
  - rewrite drawMapSection_off by assumption. exact Hconsole.
Qed.

(** Without markers a tile resolves or ends in a [TypeError]; the
    markers kept are left as they were. *)
Lemma drawMapSection_off_outcome fileName w :
  (exists w', draw fileName false w = Returned tt w' /\ markers w' = markers w)
  \/ (exists w', draw fileName false w = Thrown TypeError w'
                 /\ markers w' = markers w).
Proof.
  destruct (layer_cases mapPixelPalette (mapData fs_readFile fileName))
    as [Hmap|(k & Hk & Hbefore & Hun)].
  - destruct (layer_cases pathPixelPalette (pathData fs_readFile fileName))
      as [Hpath|(k & Hk & Hbefore & Hun)].
    + left. eexists. split; [apply drawMapSection_off; split; assumption|].
      apply markers_drawn.
    + right. eexists.
      split; [apply (drawMapSection_thrown_path _ _ _ k); assumption | reflexivity].
  - right. eexists.
    split; [apply (drawMapSection_thrown_map _ _ _ _ _ _ _ k); assumption|].
    reflexivity.
Qed.

Lemma handleSequence_off_outcome files :
  forall w,
  (exists w', handleSequence files (fun fileName => draw fileName false) w
              = Returned tt w'
              /\ markers w' = markers w)
  \/ (exists w', handleSequence files (fun fileName => draw fileName false) w
                 = Thrown TypeError w'
                 /\ markers w' = markers w).
Proof.
  induction files as [|fileName files IH]; intros w.
  - left. exists w. split; reflexivity.
  - destruct (drawMapSection_off_outcome fileName w)
      as [(w1 & Hdraw & Hmarkers)|(w1 & Hdraw & Hmarkers)].
    + rewrite (handleSequence_cons_Returned fileName files
                 (fun fileName => draw fileName false) w w1 Hdraw).
      rewrite <- Hmarkers. apply IH.
    + right. exists w1. split; [|exact Hmarkers].
      exact (handleSequence_cons_Thrown fileName files
               (fun fileName => draw fileName false) w TypeError w1 Hdraw).
Qed.

(** Without markers a floor resolves, handing over the empty object
    for the markers, or ends in a [TypeError]; no marker is kept. *)
Lemma renderFloor_off_outcome floorID mapDirectory dataDirectory w :
  (exists w',
     floor' floorID mapDirectory dataDirectory false w = Returned tt w'
     /\ markers w' = ∅
     /\ exists mapRaster pathRaster,
          written w'
          = written w
            ++ [ PNG (dataDirectory ++ "/floor-" ++ floorID ++ "-map.png") mapRaster;
                 PNG (dataDirectory ++ "/floor-" ++ floorID ++ "-path.png") pathRaster;
                 JSON (dataDirectory ++ "/floor-" ++ floorID ++ "-markers.json") ∅ ])
  \/ (exists w',
        floor' floorID mapDirectory dataDirectory false w = Thrown TypeError w'
        /\ markers w' = ∅).
Proof.
  rewrite renderFloor_steps.
  destruct (handleSequence_off_outcome (floorFiles glob floorID mapDirectory)
              (floorStart fillStyleColor floorID w))
    as [(w1 & Hrun & Hmarkers)|(w1 & Hrun & Hmarkers)]; rewrite Hrun.
  - left. eexists. split; [reflexivity|].
    split; [exact Hmarkers|].
    apply handleSequence_written in Hrun.
    cbn [set_written written]. rewrite Hrun. eexists _, _. reflexivity.
  - right. exists w1. split; [reflexivity | exact Hmarkers].
Qed.

End Outcomes.

(** * The claims *)

Local Opaque N.to_nat Z.to_nat renderedImage.

Section MarkerClaims.

Variable icons_byID : Z -> option jsstring.


(** The three markers of [orderBlock] have different texts. *)
Lemma orderBlock_decoded floor :
  decodedMarkers icons_byID orderBlock floor
  = [ markerAt icons_byID orderBlock floor 18;
      markerAt icons_byID orderBlock floor 32;
      markerAt icons_byID orderBlock floor 4 ].
Proof.
  unfold decodedMarkers.
  change (arraySort compareMarkers
            (markersFrom icons_byID orderBlock floor 4 (markerCountOf orderBlock)))
    with [ markerAt icons_byID orderBlock floor 18;
           markerAt icons_byID orderBlock floor 32;
           markerAt icons_byID orderBlock floor 4 ].
  apply filterUnique_all; [intros m _; apply not_elem_of_empty|].
  pose (f := fun s : jsstring =>
    toLowerCase (lit "{" ++ JSON_key "description" ++ JSON_quote [])
    ++ toLowerCase (match icons_byID 0%Z with
                    | Some name => lit "," ++ JSON_key "icon" ++ JSON_quote name
                    | None => []
                    end)
    ++ s
    ++ toLowerCase (lit "," ++ JSON_key "z" ++ JSON_number floor ++ lit "}")).
  assert (Hsplit : forall px py : Z,
    serialized {| description := []; icon := icons_byID 0%Z;
                  x := px; y := py; z := floor |}
    = f (toLowerCase (lit "," ++ JSON_key "x" ++ JSON_number px
                      ++ lit "," ++ JSON_key "y" ++ JSON_number py))).
  { intros px py. unfold f, serialized, JSON_stringify. cbn [description icon x y z].
    rewrite <- !toLowerCase_app. f_equal. now rewrite <- !app_assoc. }
  assert (Hinj : Inj (=) (=) f).
  { intros s s' H. unfold f in H.
    now apply app_inv_head, app_inv_head, app_inv_tail in H. }
  change (markerAt icons_byID orderBlock floor 18)
    with {| description := []; icon := icons_byID 0%Z;
            x := 5; y := 5; z := floor |}.
  change (markerAt icons_byID orderBlock floor 32)
    with {| description := []; icon := icons_byID 0%Z;
            x := 10; y := 10; z := floor |}.
  change (markerAt icons_byID orderBlock floor 4)
    with {| description := []; icon := icons_byID 0%Z;
            x := 10; y := 20; z := floor |}.
  cbn [fmap list_fmap]. rewrite !Hsplit.
  match goal with
  | |- NoDup [f ?a; f ?b; f ?c] => change (NoDup (f <$> [a; b; c]))
  end.
  apply (NoDup_fmap_2 f).
  apply (bool_decide_unpack _). vm_compute. reflexivity.
Qed.

(** C4. The list that the decoder returns is sorted by ascending
    [x * 100000 + y]; markers at (10,20), (5,5), (10,10) in one block
    come out in the order (5,5), (10,10), (10,20). *)
Theorem C4_markers_sorted :
  (forall buffer floor w out w',
     parseMarkerData icons_byID buffer floor w = Returned out w' ->
     StronglySorted
       (fun m1 m2 => x m1 * 100000 + y m1 <= x m2 * 100000 + y m2)%Z out)
  /\ (forall floor w,
        exists out,
          parseMarkerData icons_byID orderBlock floor w = Returned out w
          /\ (fun m => (x m, y m)) <$> markersFrom icons_byID orderBlock floor 4 3
             = [(10, 20); (5, 5); (10, 10)]%Z
          /\ (fun m => (x m, y m)) <$> out = [(5, 5); (10, 10); (10, 20)]%Z).
Proof.
  split.
  - intros buffer floor w out w' H.
    apply parseMarkerData_inv in H as (_ & _ & ->).
    apply decodedMarkers_sorted.
  - intros floor w. eexists. split; [|split].
    + apply parseMarkerData_decodable. split; [vm_compute; lia|].
      apply fixedPartsFit_whole. vm_compute. lia.
    + reflexivity.
    + rewrite orderBlock_decoded. reflexivity.
Qed.


(** C10. Two blocks that differ only in reserved bytes (the two bytes
    after the x pair and the two bytes after the y pair of a record)
    are decoded alike: the same list or the same error, and in both
    cases nothing is printed, since the reserved bytes are stepped
    over without being read. *)
Theorem C10_reserved_bytes_ignored (buffer buffer' : Buffer) (floor : Z)
    (w : World) :
  reservedVariant buffer buffer' ->
  parseMarkerData icons_byID buffer' floor w
  = parseMarkerData icons_byID buffer floor w
  /\ ((exists out, parseMarkerData icons_byID buffer floor w = Returned out w)
      \/ parseMarkerData icons_byID buffer floor w = Thrown RangeError w).
Proof.
  intros Hvar. split.
  - now apply reservedVariant_parse.
  - apply parseMarkerData_world.
Qed.

End MarkerClaims.

(** C6. The pathfinding palette has an entry for every byte: byte
    0xFA holds {250,250,250}, byte 0xFF holds the color of
    non-walkable paths, which is the yellow {255,255,0} that the
    visual palette gives to stairs and ladders (byte 0xD2), and every
    other byte [b] holds the gray {b,b,b}; each entry is one opaque
    pixel of that color. *)
Theorem C6_path_palette_total (pixelByte : byte) :
  pathPixelPalette !! byteVal pixelByte
  = Some (pixelImage (spec_pathColor (byteVal pixelByte)))
  /\ idata (pixelImage (spec_pathColor (byteVal pixelByte))) 0%Z 0%Z
     = (let c := spec_pathColor (byteVal pixelByte) in Pixel (r c) (g c) (b c) 255)
  /\ spec_pathColor 0xFF = nonWalkablePath
  /\ byByte !! 0xD2%Z = Some nonWalkablePath.
Proof.
  split; [apply pathPixelPalette_lookup|].
  split; [destruct pixelByte; reflexivity|].
  split; reflexivity.
Qed.

Section DriverClaims.

Variable icons_byID : Z -> option jsstring.
Variable idToXyz : string -> Coordinates.
Variable path_basename : string -> string -> string.
Variable fs_readFile : string -> Buffer.
Variable glob : string -> list string.
Variable fillStyleColor : string -> RGBA.

Local Abbreviation draw :=
  (drawMapSection icons_byID idToXyz path_basename fs_readFile).
Local Abbreviation floor' :=
  (renderFloor icons_byID idToXyz path_basename fs_readFile glob fillStyleColor).

(** C1, as amended. For a tile whose marker block is empty (no byte
    after offset 0x20000) and whose two layers decode, [drawMapSection]
    reports the condition on the console: a warning that names the
    file, then the command that repairs it, whether markers are
    included or not. In a run without markers the tile resolves and
    the marker accumulator is left as it was. A block that holds only
    the four zero bytes of the count decodes to the empty list. *)
Theorem C1_empty_block_reported (fileName : string) (w : World) :
  layersDecode fs_readFile fileName ->
  length (markerData fs_readFile fileName) = 0 ->
  (forall includeMarkers,
     console (finalWorld (draw fileName includeMarkers w))
     = console w
       ++ [console_warn_line
             ("File with invalid marker data: " ++ fileName ++ ". Fix:");
           console_log_line ("printf '\0\0\0\0' >> " ++ fileName)])
  /\ exists w',
       draw fileName false w = Returned tt w'
       /\ console w'
          = console w
            ++ [console_warn_line
                  ("File with invalid marker data: " ++ fileName ++ ". Fix:");
                console_log_line ("printf '\0\0\0\0' >> " ++ fileName)]
       /\ markers w' = markers w
       /\ forall floor w0,
            parseMarkerData icons_byID [x00; x00; x00; x00] floor w0
            = Returned [] w0.
Proof.
  intros Hlayers Hempty. split.
  - intros includeMarkers.
    apply (drawMapSection_empty_block icons_byID idToXyz path_basename fs_readFile
             fileName includeMarkers w Hlayers Hempty).
  - eexists. split; [now apply drawMapSection_off|].
    unfold warned. rewrite bool_decide_eq_true_2 by exact Hempty.
    split; [reflexivity|]. split; [reflexivity|].
    intros floor w0. now apply parseMarkerData_none.
Qed.

(** C2, as amended. The visual layer is laid out column by column:
    once [drawMapSection] has resolved for a tile at [(x, y)], byte
    [i] of its visual layer ([0 <= i < 65536]) is the pixel of the
    floor raster at column [(x - bounds.xMin) * 256 + i div 256] and
    row [(y - bounds.yMin) * 256 + i mod 256], where that pixel lies on
    the raster; it has the color that [colors.byByte] gives to the
    byte, fully opaque. *)
Theorem C2_column_major (fileName : string) (includeMarkers : bool)
    (w w' : World) (i : Z) :
  draw fileName includeMarkers w = Returned tt w' ->
  (0 <= i < 65536)%Z ->
  let tile := idToXyz (path_basename fileName ".map") in
  let col := ((coord_x tile - xMin (G_bounds w)) * 256 + i / 256)%Z in
  let row := ((coord_y tile - yMin (G_bounds w)) * 256 + i mod 256)%Z in
  (0 <= col < cwidth (G_mapCanvas w))%Z ->
  (0 <= row < cheight (G_mapCanvas w))%Z ->
  exists byte color,
    fs_readFile fileName !! Z.to_nat i = Some byte
    /\ byByte !! byteVal byte = Some color
    /\ cpixel (G_mapCanvas w') col row = Pixel (r color) (g color) (b color) 255.
Proof.
  intros Hdraw Hi tile col row Hcol Hrow.
  exact (drawMapSection_pixel icons_byID idToXyz path_basename fs_readFile
           fileName includeMarkers w w' i Hdraw Hi Hcol Hrow).
Qed.

(** C7, as amended. When the visual layer of a tile holds a byte that
    the visual palette does not know, [renderMap] prints the assertion
    message "Unknown color ID: <byte>" for the first such byte and
    then raises a [TypeError] in drawing that position: no later
    position is drawn, no image is returned, the floor rasters are not
    touched, and the error is caught neither by [drawMapSection] nor
    by the sequence over the files of the floor, whose other files are
    not handled. *)
Theorem C7_unknown_byte_raises (fileName : string) (includeMarkers : bool)
    (rest : list string) (w : World) (k : Z) (byte : byte) :
  (0 <= k < 65536)%Z ->
  bufferAt (mapData fs_readFile fileName) k = Some byte ->
  byByte !! byteVal byte = None ->
  (forall i, 0 <= i < k ->
     exists known, bufferAt (mapData fs_readFile fileName) i = Some known
                   /\ is_Some (byByte !! byteVal known))%Z ->
  let w' :=
    set_console
      (console w
       ++ [console_assert_line ("Unknown color ID: " ++ pretty (byteVal byte))]) w in
  renderMap (mapData fs_readFile fileName) w = Thrown TypeError w'
  /\ draw fileName includeMarkers w = Thrown TypeError w'
  /\ handleSequence (fileName :: rest)
       (fun fileName => draw fileName includeMarkers) w
     = Thrown TypeError w'.
Proof.
  intros Hk Hbyte Hnone Hbefore w'.
  assert (Hun : ~ knownAt mapPixelPalette (mapData fs_readFile fileName) k).
  { unfold knownAt, paletteAt, mapPixelPalette. rewrite Hbyte, lookup_fmap, Hnone.
    intros [? ?]. discriminate. }
  assert (Hknown : (forall i, 0 <= i < k ->
                      knownAt mapPixelPalette (mapData fs_readFile fileName) i)%Z).
  { intros i Hi. destruct (Hbefore i Hi) as (known & Hb & [color Hc]).
    unfold knownAt, paletteAt, mapPixelPalette. rewrite Hb, lookup_fmap, Hc.
    eexists. reflexivity. }
  assert (Hw : assertFailed true (bufferAt (mapData fs_readFile fileName) k) w = w')
    by (unfold assertFailed; now rewrite Hbyte).
  pose proof (drawMapSection_thrown_map icons_byID idToXyz path_basename
                fs_readFile fileName includeMarkers w k Hk Hknown Hun) as Hdraw.
  rewrite Hw in Hdraw.
  split; [|split].
  - rewrite renderMap_renderWith, <- Hw.
    now apply renderWith_thrown; [apply unitPalette_map | | |].
  - exact Hdraw.
  - now apply handleSequence_cons_Thrown.
Qed.

(** C8, as amended. When the four count bytes, or the fourteen
    fixed-width bytes of one of the records that the count announces,
    do not lie within the marker block, decoding raises a [RangeError]
    and returns no list. [drawMapSection] does not catch the error: it
    does not resolve, the markers of the tile are not stored, and the
    files that follow in the sequence of the floor are not handled. *)
Theorem C8_short_block_raises (fileName : string) (rest : list string)
    (w : World) :
  layersDecode fs_readFile fileName ->
  let block := markerData fs_readFile fileName in
  (length block < 4
   \/ exists k, k < markerCountOf block
                /\ length block < recordStart block k + 14) ->
  (forall floor w0,
     parseMarkerData icons_byID block floor w0 = Thrown RangeError w0)
  /\ exists w',
       draw fileName true w = Thrown RangeError w'
       /\ markers w' = markers w
       /\ handleSequence (fileName :: rest) (fun fileName => draw fileName true) w
          = Thrown RangeError w'.
Proof.
  intros Hlayers block Hshort.
  assert (Hdec : ~ decodable block).
  { intros [H4 Hfit]. destruct Hshort as [Hshort|(k & Hk & Hshort)]; [lia|].
    specialize (Hfit k Hk). unfold recordStart in Hshort. lia. }
  split.
  - intros floor w0. now apply parseMarkerData_undecodable.
  - eexists. split; [now apply drawMapSection_thrown_markers|].
    split; [apply markers_drawn|].
    apply handleSequence_cons_Thrown. now apply drawMapSection_thrown_markers.
Qed.

(** C9, as amended. With the flag off no marker is decoded: however
    the run over a floor ends, the marker accumulator is empty, the
    run does not end in the [RangeError] of the decoder, and when it
    resolves the marker output of the floor is the empty object.
    Whenever the run over a floor with the flag on resolves, the run
    with the flag off over the same inputs resolves as well, hands
    over the same visual raster and the same pathfinding raster under
    the same names, and prints the same lines. *)
Theorem C9_flag_only_markers (floorID mapDirectory dataDirectory : string)
    (w : World) :
  markers (finalWorld (floor' floorID mapDirectory dataDirectory false w)) = ∅
  /\ (forall e w',
        floor' floorID mapDirectory dataDirectory false w = Thrown e w' ->
        e = TypeError)
  /\ (forall wOff,
        floor' floorID mapDirectory dataDirectory false w = Returned tt wOff ->
        markers wOff = ∅
        /\ exists mapRaster pathRaster,
             written wOff
             = written w
               ++ [ PNG (dataDirectory ++ "/floor-" ++ floorID ++ "-map.png")
                      mapRaster;
                    PNG (dataDirectory ++ "/floor-" ++ floorID ++ "-path.png")
                      pathRaster;
                    JSON (dataDirectory ++ "/floor-" ++ floorID ++ "-markers.json")
                      ∅ ])
  /\ forall wOn,
       floor' floorID mapDirectory dataDirectory true w = Returned tt wOn ->
       exists wOff mapRaster pathRaster found,
         floor' floorID mapDirectory dataDirectory false w = Returned tt wOff
         /\ written wOn
            = written w
              ++ [ PNG (dataDirectory ++ "/floor-" ++ floorID ++ "-map.png") mapRaster;
                   PNG (dataDirectory ++ "/floor-" ++ floorID ++ "-path.png") pathRaster;
                   JSON (dataDirectory ++ "/floor-" ++ floorID ++ "-markers.json") found ]
         /\ written wOff
            = written w
              ++ [ PNG (dataDirectory ++ "/floor-" ++ floorID ++ "-map.png") mapRaster;
                   PNG (dataDirectory ++ "/floor-" ++ floorID ++ "-path.png") pathRaster;
                   JSON (dataDirectory ++ "/floor-" ++ floorID ++ "-markers.json") ∅ ]
         /\ markers wOff = ∅
         /\ console wOff = console wOn.
Proof.
  split; [|split; [|split]].
  - destruct (renderFloor_off_outcome icons_byID idToXyz path_basename fs_readFile
                glob fillStyleColor floorID mapDirectory dataDirectory w)
      as [(w' & -> & Hmarkers & _)|(w' & -> & Hmarkers)]; exact Hmarkers.
  - intros e w' H.
    destruct (renderFloor_off_outcome icons_byID idToXyz path_basename fs_readFile
                glob fillStyleColor floorID mapDirectory dataDirectory w)
      as [(w1 & H1 & _)|(w1 & H1 & _)]; rewrite H1 in H; [discriminate|].
    now injection H as <- _.
  - intros wOff H.
    destruct (renderFloor_off_outcome icons_byID idToXyz path_basename fs_readFile
                glob fillStyleColor floorID mapDirectory dataDirectory w)
      as [(w1 & H1 & Hmarkers & Hwritten)|(w1 & H1 & _)]; rewrite H1 in H;
      [|discriminate].
    apply Returned_inj in H as [_ <-]. split; [exact Hmarkers | exact Hwritten].
  - intros wOn Hon. rewrite renderFloor_steps in Hon.
    destruct (handleSequence _ _ _) as [[] w1|e w1] eqn:Hrun; [|discriminate].
    apply Returned_inj in Hon as [_ <-].
    destruct (handleSequence_flag icons_byID idToXyz path_basename fs_readFile _
                _ (floorStart fillStyleColor floorID w) _
                ltac:(repeat split) Hrun)
      as (w1' & Hrun' & (Hb & Hm & Hp & Hc & Hw) & Hmarkers).
    pose proof (handleSequence_written icons_byID idToXyz path_basename fs_readFile
                  true _ _ _ Hrun) as Hwritten.
    exists (set_written (written w1' ++ floorOutput floorID dataDirectory false w1') w1'),
      (G_mapCanvas w1), (G_pathCanvas w1), (markers w1).
    split; [rewrite renderFloor_steps, Hrun'; reflexivity|].
    split; [cbn [written set_written]; rewrite Hwritten; reflexivity|].
    split; [cbn [written set_written]; unfold floorOutput;
            rewrite <- Hw, Hwritten, <- Hm, <- Hp; reflexivity|].
    split; [exact Hmarkers | exact (eq_sym Hc)].
Qed.

End DriverClaims.

(** * The claims on sample inputs *)

Lemma zeros_replicate n : zeros n = replicate (N.to_nat n) x00.
Proof.
  unfold zeros. rewrite N2Nat.inj_iter.
  induction (N.to_nat n) as [|k IH]; [reflexivity|].
  cbn [Nat.iter nat_rect replicate]. now rewrite <- IH.
Qed.

Lemma length_zeros n : length (zeros n) = N.to_nat n.
Proof. now rewrite zeros_replicate, length_replicate. Qed.

Lemma lookup_zeros n i : i < N.to_nat n -> zeros n !! i = Some x00.
Proof. intros H. rewrite zeros_replicate. now apply lookup_replicate_2. Qed.

Lemma zeros_known n :
  Forall (fun byte => is_Some (mapPixelPalette !! byteVal byte)) (zeros n).
Proof.
  rewrite zeros_replicate. apply Forall_replicate. eexists. reflexivity.
Qed.

(** The sample files whose layers decode, with their marker blocks. *)
Lemma sample_zeros :
  layersDecode sample_readFile "zeros/12712113.map"
  /\ markerData sample_readFile "zeros/12712113.map" = [x00; x00; x00; x00].
Proof.
  apply (layersDecode_intro sample_readFile _ (zeros 0x10000) (zeros 0x10000));
    [reflexivity | apply length_zeros | apply length_zeros | apply zeros_known].
Qed.

Lemma sample_empty :
  layersDecode sample_readFile "empty/12712113.map"
  /\ markerData sample_readFile "empty/12712113.map" = [].
Proof.
  apply (layersDecode_intro sample_readFile _ (zeros 0x10000) (zeros 0x10000));
    [reflexivity | apply length_zeros | apply length_zeros | apply zeros_known].
Qed.

Lemma sample_cut :
  layersDecode sample_readFile "cut/12712113.map"
  /\ markerData sample_readFile "cut/12712113.map" = cutRecordBlock.
Proof.
  apply (layersDecode_intro sample_readFile _ (zeros 0x10000) (zeros 0x10000));
    [reflexivity | apply length_zeros | apply length_zeros | apply zeros_known].
Qed.

Lemma sample_marked :
  layersDecode sample_readFile "marked/12712113.map"
  /\ markerData sample_readFile "marked/12712113.map" = duplicateBlock.
Proof.
  apply (layersDecode_intro sample_readFile _ (zeros 0x10000) (zeros 0x10000));
    [reflexivity | apply length_zeros | apply length_zeros | apply zeros_known].
Qed.

Lemma sample_green :
  layersDecode sample_readFile "green/12712113.map"
  /\ markerData sample_readFile "green/12712113.map" = [x00; x00; x00; x00].
Proof.
  apply (layersDecode_intro sample_readFile _
           ([x00; x0c] ++ zeros 0xFFFE) (zeros 0x10000));
    [reflexivity | | apply length_zeros |].
  - rewrite length_app, length_zeros. cbn [length]. lia.
  - apply Forall_app. split; [|apply zeros_known].
    repeat constructor; eexists; reflexivity.
Qed.

(** ** Markers *)

Lemma duplicateBlock_wellFormed : wellFormedBlock duplicateBlock.
Proof. split; vm_compute; lia. Qed.

Lemma sample_icons_lowerCase : lowerCaseIcons sample_icons.
Proof.
  intros id name H. unfold sample_icons in H.
  destruct (id =? 0)%Z; [injection H as <-|discriminate].
  change (lit "checkmark")
    with [0x63; 0x68; 0x65; 0x63; 0x6B; 0x6D; 0x61; 0x72; 0x6B]%N.
  repeat (constructor; [lia|]). constructor.
Qed.


Lemma duplicateBlock_decodable : decodable duplicateBlock.
Proof.
  split; [vm_compute; lia|]. apply fixedPartsFit_whole. vm_compute. lia.
Qed.

Lemma C4_witness :
  parseMarkerData sample_icons duplicateBlock 13 sample_world
  = Returned (decodedMarkers sample_icons duplicateBlock 13) sample_world
  /\ StronglySorted
       (fun m1 m2 => x m1 * 100000 + y m1 <= x m2 * 100000 + y m2)%Z
       (decodedMarkers sample_icons duplicateBlock 13).
Proof.
  pose proof (parseMarkerData_decodable sample_icons duplicateBlock 13 sample_world
                duplicateBlock_decodable) as Hparse.
  split; [exact Hparse|].
  exact (proj1 (C4_markers_sorted sample_icons) _ _ _ _ _ Hparse).
Defined.


(** A check of [reservedVariant] that can be computed. *)
Lemma reservedOffsets_spec buffer n :
  forall index i,
  i ∈ reservedOffsets buffer index n <-> reservedOffset buffer index n i.
Proof.
  induction n as [|n IH]; intros index i; cbn [reservedOffsets].
  - split; [intros H; inversion H | intros (k & Hk & _); lia].
  - rewrite elem_of_app, IH, !elem_of_cons. split.
    + intros [[->|[->|[->|[->|H]]]]|(k & Hk & Hi)];
        try (exists 0; split; [lia|]; cbn; lia);
        [inversion H | exists (S k); split; [lia | exact Hi]].
    + intros ([|k] & Hk & Hi); cbn [recordStartFrom] in Hi.
      * left. cbn zeta in Hi. intuition.
      * right. exists k. split; [lia | exact Hi].
Qed.

Lemma reservedVariant_check (buffer buffer' : Buffer) :
  length buffer = length buffer' ->
  forallb (fun i =>
             bool_decide (i ∈ reservedOffsets buffer 4 (markerCountOf buffer))
             || bool_decide (buffer !! i = buffer' !! i))
          (seq 0 (length buffer)) = true ->
  reservedVariant buffer buffer'.
Proof.
  intros Hlen Hcheck. split; [exact Hlen|]. intros i Hres.
  destruct (decide (i < length buffer)) as [Hi|Hi].
  - rewrite forallb_forall in Hcheck.
    specialize (Hcheck i ltac:(apply in_seq; lia)).
    apply orb_true_iff in Hcheck as [Hcheck|Hcheck].
    + apply bool_decide_eq_true_1 in Hcheck.
      apply reservedOffsets_spec in Hcheck. contradiction.
    + now apply bool_decide_eq_true_1 in Hcheck.
  - rewrite !lookup_ge_None_2 by lia. reflexivity.
Qed.

Lemma duplicateBlock_variant : reservedVariant duplicateBlock duplicateBlock_reserved.
Proof. apply reservedVariant_check; vm_compute; reflexivity. Qed.

Lemma C10_witness :
  reservedVariant duplicateBlock duplicateBlock_reserved
  /\ duplicateBlock <> duplicateBlock_reserved
  /\ parseMarkerData sample_icons duplicateBlock_reserved 13 sample_world
     = parseMarkerData sample_icons duplicateBlock 13 sample_world.
Proof.
  split; [exact duplicateBlock_variant|]. split; [discriminate|].
  exact (proj1 (C10_reserved_bytes_ignored sample_icons duplicateBlock
                  duplicateBlock_reserved 13 sample_world duplicateBlock_variant)).
Defined.

(** ** Tiles and floors *)

Lemma C1_witness :
  layersDecode sample_readFile "empty/12712113.map"
  /\ length (markerData sample_readFile "empty/12712113.map") = 0
  /\ console (finalWorld (sample_draw "empty/12712113.map" true sample_world))
     = [console_warn_line
          "File with invalid marker data: empty/12712113.map. Fix:";
        console_log_line "printf '\0\0\0\0' >> empty/12712113.map"]
  /\ exists w',
       sample_draw "empty/12712113.map" false sample_world = Returned tt w'
       /\ console w'
          = [console_warn_line
               "File with invalid marker data: empty/12712113.map. Fix:";
             console_log_line "printf '\0\0\0\0' >> empty/12712113.map"]
       /\ markers w' = ∅.
Proof.
  destruct sample_empty as [Hlayers Hblock].
  assert (Hlength : length (markerData sample_readFile "empty/12712113.map") = 0)
    by (rewrite Hblock; reflexivity).
  split; [exact Hlayers|]. split; [exact Hlength|].
  destruct (C1_empty_block_reported sample_icons sample_idToXyz sample_basename
              sample_readFile "empty/12712113.map" sample_world Hlayers Hlength)
    as (Hany & w' & Hdraw & Hconsole & Hmarkers & _).
  split; [exact (Hany true)|].
  exists w'. split; [exact Hdraw|]. split; [exact Hconsole | exact Hmarkers].
Defined.

Lemma sample_tile_green :
  sample_idToXyz (sample_basename "green/12712113.map" ".map")
  = {| coord_x := 127; coord_y := 121; coord_z := 13 |}.
Proof. vm_compute. reflexivity. Qed.

Lemma C2_witness :
  exists w',
    sample_draw "green/12712113.map" false sample_world = Returned tt w'
    /\ exists byte color,
         sample_readFile "green/12712113.map" !! Z.to_nat 1 = Some byte
         /\ byByte !! byteVal byte = Some color
         /\ cpixel (G_mapCanvas w') 0 1 = Pixel (r color) (g color) (b color) 255.
Proof.
  eexists. split; [apply drawMapSection_off, sample_green|].
  refine (C2_column_major sample_icons sample_idToXyz sample_basename
            sample_readFile "green/12712113.map" false sample_world _ 1
            (drawMapSection_off _ _ _ _ _ _ (proj1 sample_green)) _ _ _).
  - lia.
  - rewrite sample_tile_green. change (0 <= 0 < 256)%Z. lia.
  - rewrite sample_tile_green. change (0 <= 1 < 256)%Z. lia.
Defined.

(** Byte 1 of the sample tile is dark green; the pixel in column 1 of
    row 0 shows byte 256, which is black, and byte 1 is shown in
    column 0 of row 1. *)
Lemma C2_counterexample :
  exists w',
    sample_draw "green/12712113.map" false sample_world = Returned tt w'
    /\ sample_readFile "green/12712113.map" !! 1 = Some x0c
    /\ byByte !! byteVal x0c = Some (RGB 0 102 0)
    /\ cpixel (G_mapCanvas w')
         ((127 - xMin sample_bounds) * 256 + 1 mod 256)
         ((121 - yMin sample_bounds) * 256 + 1 / 256)
       = Pixel 0 0 0 255
    /\ cpixel (G_mapCanvas w')
         ((127 - xMin sample_bounds) * 256 + 1 mod 256)
         ((121 - yMin sample_bounds) * 256 + 1 / 256)
       <> Pixel 0 102 0 255.
Proof.
  eexists. split; [apply drawMapSection_off, sample_green|].
  split; [reflexivity|]. split; [reflexivity|].
  assert (Hpixel :
    cpixel (G_mapCanvas
              (warned sample_readFile "green/12712113.map"
                 (drawnLayers sample_idToXyz sample_basename sample_readFile
                    "green/12712113.map" sample_world))) 1 0
    = Pixel 0 0 0 255).
  { destruct (drawMapSection_pixel sample_icons sample_idToXyz sample_basename
                sample_readFile "green/12712113.map" false sample_world _ 256
                (drawMapSection_off _ _ _ _ _ _ (proj1 sample_green)) ltac:(lia))
      as (byte & color & Hbyte & Hcolor & Hpix).
    - unfold tileOffsetX, tileCoordinates, tileId. rewrite sample_tile_green.
      change (0 <= 1 < 256)%Z. lia.
    - unfold tileOffsetY, tileCoordinates, tileId. rewrite sample_tile_green.
      change (0 <= 0 < 256)%Z. lia.
    - assert (Hzero : byte = x00).
      { change (sample_readFile "green/12712113.map")
          with (([x00; x0c] ++ zeros 0xFFFE) ++ zeros 0x10000 ++ [x00; x00; x00; x00])
          in Hbyte.
        rewrite lookup_app_l in Hbyte
          by (rewrite length_app, length_zeros; cbn [length]; lia).
        rewrite lookup_app_r in Hbyte by (cbn [length]; lia).
        rewrite lookup_zeros in Hbyte by (cbn [length]; lia).
        congruence. }
      subst byte. change (byByte !! byteVal x00) with (Some (RGB 0 0 0)) in Hcolor.
      injection Hcolor as <-.
      unfold tileOffsetX, tileOffsetY, tileCoordinates, tileId in Hpix.
      rewrite sample_tile_green in Hpix. exact Hpix. }
  split; [exact Hpixel|]. intros H.
  change (cpixel
            (G_mapCanvas
               (warned sample_readFile "green/12712113.map"
                  (drawnLayers sample_idToXyz sample_basename sample_readFile
                     "green/12712113.map" sample_world))) 1 0
          = Pixel 0 102 0 255) in H.
  rewrite Hpixel in H. discriminate.
Qed.

Lemma sample_unknown_first :
  bufferAt (mapData sample_readFile "unknown/12712113.map") 0 = Some x01.
Proof.
  unfold mapData.
  change (sample_readFile "unknown/12712113.map")
    with (([x01] ++ zeros 0xFFFF) ++ zeros 0x10000 ++ [x00; x00; x00; x00]).
  rewrite (proj1 (tile_layout ([x01] ++ zeros 0xFFFF) (zeros 0x10000) _
                    ltac:(rewrite length_app, length_zeros; cbn [length]; lia)
                    (length_zeros _))).
  reflexivity.
Qed.

Lemma C7_witness :
  bufferAt (mapData sample_readFile "unknown/12712113.map") 0 = Some x01
  /\ byByte !! byteVal x01 = None
  /\ sample_draw "unknown/12712113.map" true sample_world
     = Thrown TypeError
         (set_console [console_assert_line "Unknown color ID: 1"] sample_world).
Proof.
  split; [exact sample_unknown_first|]. split; [reflexivity|].
  refine (proj1 (proj2 (C7_unknown_byte_raises sample_icons sample_idToXyz
                          sample_basename sample_readFile "unknown/12712113.map"
                          true [] sample_world 0 x01 _ sample_unknown_first
                          eq_refl _))).
  - lia.
  - intros i Hi. lia.
Defined.

(** The floor of the sample tile with an unknown byte, followed by a
    tile without flaw: the run stops at the first byte of the first
    tile and hands nothing over. *)
Lemma C7_counterexample :
  floorFiles sample_glob "13" "unknown"
  = ["unknown/12712113.map"; "zeros/12712113.map"]
  /\ exists w',
       sample_floor "13" "unknown" "data" false sample_world = Thrown TypeError w'
       /\ written w' = []
       /\ console w' = [console_log_line "Rendering floor 13…";
                        console_assert_line "Unknown color ID: 1"].
Proof.
  split; [reflexivity|].
  eexists. split.
  - apply (renderFloor_thrown sample_icons sample_idToXyz sample_basename
             sample_readFile sample_glob sample_fillStyleColor "13" "unknown" "data"
             false sample_world "unknown/12712113.map" ["zeros/12712113.map"]);
      [reflexivity|].
    apply (drawMapSection_thrown_map sample_icons sample_idToXyz sample_basename
             sample_readFile "unknown/12712113.map" false _ 0); [lia | lia |].
    unfold knownAt. rewrite sample_unknown_first. intros [img Himg].
    discriminate.
  - rewrite sample_unknown_first. split; reflexivity.
Qed.

Lemma sample_cut_short :
  let block := markerData sample_readFile "cut/12712113.map" in
  length block < 4
  \/ exists k, k < markerCountOf block /\ length block < recordStart block k + 14.
Proof.
  cbv zeta. rewrite (proj2 sample_cut). right. exists 1. vm_compute. lia.
Qed.

Lemma C8_witness :
  layersDecode sample_readFile "cut/12712113.map"
  /\ markerData sample_readFile "cut/12712113.map" = cutRecordBlock
  /\ parseMarkerData sample_icons cutRecordBlock 13 sample_world
     = Thrown RangeError sample_world
  /\ exists w',
       sample_draw "cut/12712113.map" true sample_world = Thrown RangeError w'
       /\ markers w' = ∅
       /\ handleSequence ["cut/12712113.map"; "zeros/12712113.map"]
            (fun fileName => sample_draw fileName true) sample_world
          = Thrown RangeError w'.
Proof.
  destruct sample_cut as [Hlayers Hblock].
  split; [exact Hlayers|]. split; [exact Hblock|].
  destruct (C8_short_block_raises sample_icons sample_idToXyz sample_basename
              sample_readFile "cut/12712113.map" ["zeros/12712113.map"]
              sample_world Hlayers sample_cut_short)
    as (Hparse & w' & Hdraw & Hmarkers & Hrun).
  split; [rewrite <- Hblock; apply Hparse|].
  exists w'. split; [exact Hdraw|]. split; [exact Hmarkers | exact Hrun].
Defined.

(** A block that announces one marker with five description bytes and
    holds two of them: no error, the description is cut short. And a
    block that lacks a whole record: the run over the floor stops, the
    tile that follows is not handled. *)
Lemma C8_counterexample :
  markerCountOf cutDescriptionBlock = 1
  /\ descriptionLengthAt cutDescriptionBlock 4 = 5
  /\ length cutDescriptionBlock = 4 + 14 + 2
  /\ parseMarkerData sample_icons cutDescriptionBlock 13 sample_world
     = Returned
         [ {| description := lit "Ab"; icon := Some (lit "checkmark");
              x := 10; y := 20; z := 13 |} ]
         sample_world
  /\ floorFiles sample_glob "13" "cut"
     = ["cut/12712113.map"; "zeros/12712113.map"]
  /\ exists w',
       sample_floor "13" "cut" "data" true sample_world = Thrown RangeError w'
       /\ written w' = [].
Proof.
  split; [reflexivity|]. split; [reflexivity|]. split; [reflexivity|].
  split; [vm_compute; reflexivity|]. split; [reflexivity|].
  eexists. split.
  - apply (renderFloor_thrown sample_icons sample_idToXyz sample_basename
             sample_readFile sample_glob sample_fillStyleColor "13" "cut" "data"
             true sample_world "cut/12712113.map" ["zeros/12712113.map"]);
      [reflexivity|].
    apply drawMapSection_thrown_markers; [apply sample_cut|].
    rewrite (proj2 sample_cut). intros [_ Hfit].
    specialize (Hfit 1 ltac:(vm_compute; lia)). vm_compute in Hfit. lia.
  - apply (written_drawn sample_idToXyz sample_basename sample_readFile _ []).
Qed.

Lemma sample_marked_files :
  Forall (fun fileName =>
            layersDecode sample_readFile fileName
            /\ (true = true -> decodable (markerData sample_readFile fileName)))
         (floorFiles sample_glob "13" "marked").
Proof.
  change (floorFiles sample_glob "13" "marked")
    with ["marked/12712113.map"; "zeros/12712113.map"].
  assert (Hmarked : layersDecode sample_readFile "marked/12712113.map"
                    /\ (true = true ->
                        decodable (markerData sample_readFile "marked/12712113.map"))).
  { split; [apply sample_marked|]. intros _. rewrite (proj2 sample_marked).
    exact duplicateBlock_decodable. }
  assert (Hzeros : layersDecode sample_readFile "zeros/12712113.map"
                   /\ (true = true ->
                       decodable (markerData sample_readFile "zeros/12712113.map"))).
  { split; [apply sample_zeros|]. intros _. rewrite (proj2 sample_zeros).
    split; [cbn [length]; lia|]. intros k Hk.
    change (markerCountOf [x00; x00; x00; x00]) with 0 in Hk. lia. }
  apply Forall_cons. split; [exact Hmarked|].
  apply Forall_cons. split; [exact Hzeros | constructor].
Qed.

Lemma C9_witness :
  markers (finalWorld (sample_floor "13" "empty" "data" false sample_world)) = ∅
  /\ exists wOn wOff mapRaster pathRaster found,
       sample_floor "13" "marked" "data" true sample_world = Returned tt wOn
       /\ sample_floor "13" "marked" "data" false sample_world = Returned tt wOff
       /\ written wOn = [ PNG "data/floor-13-map.png" mapRaster;
                          PNG "data/floor-13-path.png" pathRaster;
                          JSON "data/floor-13-markers.json" found ]
       /\ written wOff = [ PNG "data/floor-13-map.png" mapRaster;
                           PNG "data/floor-13-path.png" pathRaster;
                           JSON "data/floor-13-markers.json" ∅ ]
       /\ markers wOff = ∅.
Proof.
  split.
  - exact (proj1 (C9_flag_only_markers sample_icons sample_idToXyz sample_basename
                    sample_readFile sample_glob sample_fillStyleColor "13" "empty"
                    "data" sample_world)).
  - destruct (renderFloor_returns sample_icons sample_idToXyz sample_basename
                sample_readFile sample_glob sample_fillStyleColor "13" "marked" "data"
                true sample_world sample_marked_files) as [wOn Hon].
    destruct (proj2 (proj2 (proj2
                (C9_flag_only_markers sample_icons sample_idToXyz sample_basename
                   sample_readFile sample_glob sample_fillStyleColor "13" "marked"
                   "data" sample_world))) wOn Hon)
      as (wOff & mapRaster & pathRaster & found & Hoff & HwOn & HwOff & Hmarkers & _).
    exists wOn, wOff, mapRaster, pathRaster, found.
    split; [exact Hon|]. split; [exact Hoff|].
    split; [exact HwOn|]. split; [exact HwOff | exact Hmarkers].
Defined.

Lemma sample_empty_undecodable :
  ~ decodable (markerData sample_readFile "empty/12712113.map").
Proof. rewrite (proj2 sample_empty). intros [H4 _]. cbn [length] in H4. lia. Qed.

(** The floor of the sample tile without marker bytes: with the flag
    off the run resolves and hands the rasters over; with the flag on
    it ends in a [RangeError] and hands nothing over. *)
Lemma C9_counterexample :
  (exists wOff mapRaster pathRaster,
     sample_floor "13" "empty" "data" false sample_world = Returned tt wOff
     /\ written wOff = [ PNG "data/floor-13-map.png" mapRaster;
                         PNG "data/floor-13-path.png" pathRaster;
                         JSON "data/floor-13-markers.json" ∅ ])
  /\ exists wOn,
       sample_floor "13" "empty" "data" true sample_world = Thrown RangeError wOn
       /\ written wOn = [].
Proof.
  split.
  - assert (Hfiles :
      Forall (fun fileName =>
                layersDecode sample_readFile fileName
                /\ (false = true -> decodable (markerData sample_readFile fileName)))
             (floorFiles sample_glob "13" "empty")).
    { change (floorFiles sample_glob "13" "empty") with ["empty/12712113.map"].
      assert (Hempty : layersDecode sample_readFile "empty/12712113.map"
                       /\ (false = true ->
                           decodable (markerData sample_readFile "empty/12712113.map")))
        by (split; [apply sample_empty | discriminate]).
      apply Forall_cons. split; [exact Hempty | constructor]. }
    destruct (handleSequence_returns sample_icons sample_idToXyz sample_basename
                sample_readFile false _ Hfiles
                (floorStart sample_fillStyleColor "13" sample_world)) as [w1 Hrun].
    pose proof (handleSequence_written sample_icons sample_idToXyz sample_basename
                  sample_readFile false _ _ _ Hrun) as Hwritten.
    exists (set_written (written w1 ++ floorOutput "13" "data" false w1) w1),
      (G_mapCanvas w1), (G_pathCanvas w1).
    split; [rewrite renderFloor_steps, Hrun; reflexivity|].
    cbn [written set_written]. rewrite Hwritten. reflexivity.
  - eexists. split.
    + apply (renderFloor_thrown sample_icons sample_idToXyz sample_basename
               sample_readFile sample_glob sample_fillStyleColor "13" "empty" "data"
               true sample_world "empty/12712113.map" []); [reflexivity|].
      apply drawMapSection_thrown_markers;
        [apply sample_empty | exact sample_empty_undecodable].
    + apply (written_drawn sample_idToXyz sample_basename sample_readFile _ []).
Qed.

(** The sample tile without marker bytes, in a run with markers: the
    decoder does not return the empty list but raises a [RangeError],
    which ends the run over the floor once the warning is printed. *)
Lemma C1_counterexample :
  length (markerData sample_readFile "empty/12712113.map") = 0
  /\ parseMarkerData sample_icons (markerData sample_readFile "empty/12712113.map")
       13 sample_world
     = Thrown RangeError sample_world
  /\ (exists w',
        sample_draw "empty/12712113.map" true sample_world = Thrown RangeError w')
  /\ exists w1,
       sample_floor "13" "empty" "data" true sample_world = Thrown RangeError w1
       /\ written w1 = []
       /\ console w1
          = [ console_log_line "Rendering floor 13…";
              console_warn_line
                "File with invalid marker data: empty/12712113.map. Fix:";
              console_log_line "printf '\0\0\0\0' >> empty/12712113.map" ].
Proof.
  split; [rewrite (proj2 sample_empty); reflexivity|].
  split; [apply parseMarkerData_undecodable, sample_empty_undecodable|].
  split.
  - eexists. apply drawMapSection_thrown_markers;
      [apply sample_empty | exact sample_empty_undecodable].
  - eexists. split; [|split].
    + apply (renderFloor_thrown sample_icons sample_idToXyz sample_basename
               sample_readFile sample_glob sample_fillStyleColor "13" "empty" "data"
               true sample_world "empty/12712113.map" []); [reflexivity|].
      apply drawMapSection_thrown_markers;
        [apply sample_empty | exact sample_empty_undecodable].
    + apply (written_drawn sample_idToXyz sample_basename sample_readFile _ []).
    + unfold warned. rewrite (proj2 sample_empty).
      rewrite bool_decide_eq_true_2 by reflexivity. reflexivity.
Qed.

(** * Further properties of the code *)

(** ** The reverse color table *)

Lemma byByte_entries k color :
  byByte !! k = Some color <->
  (k, color) ∈ [ (0x00, RGB 0 0 0); (0x0C, RGB 0 102 0); (0x18, RGB 0 204 0);
                 (0x33, RGB 51 102 153); (0x56, RGB 102 102 102);
                 (0x72, RGB 153 51 0); (0x79, RGB 153 102 51);
                 (0x81, RGB 153 153 153); (0x8C, RGB 153 255 102);
                 (0xB3, RGB 204 255 255); (0xBA, RGB 255 51 0);
                 (0xC0, RGB 255 102 0); (0xCF, RGB 255 204 153);
                 (0xD2, RGB 255 255 0); (0xD7, RGB 255 255 255) ]%Z.
Proof.
  unfold byByte. rewrite <- elem_of_list_to_map; [reflexivity|].
  apply (bool_decide_unpack _). vm_compute. reflexivity.
Qed.

Lemma reverseTable_lookup (f : Z -> string) (keys : list Z) (start : gmap string Z) id k :
  foldl (fun table key => <[f key := key]> table) start keys !! id = Some k ->
  (k ∈ keys /\ id = f k) \/ start !! id = Some k.
Proof.
  revert start. induction keys as [|key keys IH]; intros start H; cbn [foldl] in H.
  - right. exact H.
  - apply IH in H as [[Hin ->]|H].
    + left. split; [right; exact Hin | reflexivity].
    + apply lookup_insert_Some in H as [[<- <-]|[_ H]].
      * left. split; [left | reflexivity].
      * right. exact H.
Qed.

Lemma Object_keys_byByte :
  Object_keys byByte
  = [0x00; 0x0C; 0x18; 0x33; 0x56; 0x72; 0x79; 0x81; 0x8C;
     0xB3; 0xBA; 0xC0; 0xCF; 0xD2; 0xD7]%Z.
Proof. vm_compute. reflexivity. Qed.

(** X1. [byColor] is the inverse of [byByte]: the color of a byte is
    filed under that byte, and every entry of [byColor] is the color
    text of the byte it holds. No two bytes share a color, so that no
    store of the loop overwrites an earlier one. *)
Theorem X1_byColor_inverts_byByte :
  (forall k color, byByte !! k = Some color -> byColor !! colorId color = Some k)
  /\ (forall id k, byColor !! id = Some k ->
        exists color, byByte !! k = Some color /\ id = colorId color)
  /\ size byColor = size byByte.
Proof.
  split; [|split].
  - intros k color H. apply byByte_entries in H.
    repeat (apply elem_of_cons in H as [H|H];
            [injection H as -> ->; vm_compute; reflexivity|]).
    inversion H.
  - intros id k H. unfold byColor in H.
    apply reverseTable_lookup in H as [[Hin ->]|H]; [|rewrite lookup_empty in H; discriminate].
    exists (byByte !!! k). split; [|reflexivity].
    rewrite Object_keys_byByte in Hin.
    repeat (apply elem_of_cons in Hin as [->|Hin]; [vm_compute; reflexivity|]).
    inversion Hin.
  - vm_compute. reflexivity.
Qed.

(** ** The two renderers *)

Local Opaque N.to_nat Z.to_nat renderedImage.

Lemma bufferAt_is_Some (buffer : Buffer) i :
  is_Some (bufferAt buffer i) <-> (0 <= i < Z.of_nat (length buffer))%Z.
Proof.
  unfold bufferAt. destruct (Z.ltb_spec i 0) as [Hneg|Hpos].
  - split; [intros [? ?]; discriminate | lia].
  - rewrite lookup_lt_is_Some. lia.
Qed.

Lemma bufferAt_lookup (buffer : Buffer) i :
  (0 <= i)%Z -> bufferAt buffer i = buffer !! Z.to_nat i.
Proof.
  intros Hi. unfold bufferAt. destruct (Z.ltb_spec i 0); [lia | reflexivity].
Qed.

Lemma colourAt_path buffer i byte :
  bufferAt buffer i = Some byte ->
  colourAt pathPixelPalette buffer i = pathPixel byte.
Proof.
  intros H. unfold colourAt, paletteAt. rewrite H, pathPixelPalette_lookup.
  destruct byte; reflexivity.
Qed.

Lemma colourAt_map_lookup buffer i byte color :
  bufferAt buffer i = Some byte -> byByte !! byteVal byte = Some color ->
  colourAt mapPixelPalette buffer i = opaque color.
Proof.
  intros Hbyte Hcolor.
  destruct (colourAt_map buffer i) as (byte' & color' & Hbyte' & Hcolor' & ->).
  - unfold knownAt, paletteAt, mapPixelPalette. rewrite Hbyte, lookup_fmap, Hcolor.
    eauto.
  - unfold opaque. congruence.
Qed.

Lemma knownAt_map buffer i :
  knownAt mapPixelPalette buffer i
  <-> exists byte, bufferAt buffer i = Some byte /\ is_Some (byByte !! byteVal byte).
Proof.
  unfold knownAt, paletteAt, mapPixelPalette.
  destruct (bufferAt buffer i) as [byte|].
  - rewrite lookup_fmap, fmap_is_Some. split.
    + intros H. exists byte. split; [reflexivity | exact H].
    + intros (byte' & [= <-] & H). exact H.
  - split; [intros [? ?]; discriminate | intros (? & ? & _); discriminate].
Qed.

(** X2. [renderMap] returns exactly when each of the 65536 positions
    of the layer holds a byte of [byByte]. It then prints nothing, and
    the pixel at column [col], row [row] is the opaque palette color
    of the byte at offset [col * 256 + row]. *)
Theorem X2_renderMap_returns_iff buffer w :
  ((exists img w', renderMap buffer w = Returned img w')
   <-> (forall i, 0 <= i < 65536 ->
          exists byte, bufferAt buffer i = Some byte
                       /\ is_Some (byByte !! byteVal byte))%Z)
  /\ forall img w', renderMap buffer w = Returned img w' ->
       w' = w /\ iwidth img = 256%Z /\ iheight img = 256%Z
       /\ forall col row byte color,
            (0 <= col < 256)%Z -> (0 <= row < 256)%Z ->
            bufferAt buffer (col * 256 + row) = Some byte ->
            byByte !! byteVal byte = Some color ->
            idata img col row = opaque color.
Proof.
  rewrite renderMap_renderWith. split; [split|].
  - intros (img & w' & H) i Hi.
    apply renderWith_inv in H as (_ & _ & Hknown); [|apply unitPalette_map].
    apply knownAt_map, Hknown, Hi.
  - intros Hall. exists (renderedImage mapPixelPalette buffer), w.
    apply renderWith_returned; [apply unitPalette_map|].
    intros i Hi. apply knownAt_map, Hall, Hi.
  - intros img w' H.
    apply renderWith_inv in H as (-> & -> & Hknown); [|apply unitPalette_map].
    destruct (renderedImage_size mapPixelPalette buffer) as [Hw Hh].
    split; [reflexivity|]. split; [exact Hw|]. split; [exact Hh|].
    intros col row byte color Hcol Hrow Hbyte Hcolor.
    destruct (renderWith_returned true mapPixelPalette buffer w unitPalette_map Hknown)
      as [_ Hpixel].
    rewrite Hpixel by assumption.
    apply colourAt_map_lookup with byte; assumption.
Qed.

(** X3. [renderPath] rejects no byte value: a layer of at least 65536
    bytes is always rendered, nothing is printed, and the pixel at
    column [col], row [row] is the opaque color that
    [pathPixelPalette] holds for the byte at offset [col * 256 + row].
    A shorter layer ends in a [TypeError] at the first missing byte,
    without any output on the console. *)
Theorem X3_renderPath_total buffer w :
  ((65536 <= Z.of_nat (length buffer))%Z ->
   exists img,
     renderPath buffer w = Returned img w
     /\ iwidth img = 256%Z /\ iheight img = 256%Z
     /\ forall col row, (0 <= col < 256)%Z -> (0 <= row < 256)%Z ->
          exists byte,
            buffer !! Z.to_nat (col * 256 + row) = Some byte
            /\ pathPixelPalette !! byteVal byte
               = Some (pixelImage (spec_pathColor (byteVal byte)))
            /\ idata img col row = pathPixel byte)
  /\ ((Z.of_nat (length buffer) < 65536)%Z ->
      renderPath buffer w = Thrown TypeError w).
Proof.
  rewrite renderPath_renderWith. split.
  - intros Hlen.
    assert (Hknown : forall i, (0 <= i < 65536)%Z -> knownAt pathPixelPalette buffer i).
    { intros i Hi. apply knownAt_path, bufferAt_is_Some. lia. }
    destruct (renderWith_returned false pathPixelPalette buffer w unitPalette_path Hknown)
      as [Hrun Hpixel].
    destruct (renderedImage_size pathPixelPalette buffer) as [Hw Hh].
    exists (renderedImage pathPixelPalette buffer).
    split; [exact Hrun|]. split; [exact Hw|]. split; [exact Hh|].
    intros col row Hcol Hrow.
    destruct (proj2 (bufferAt_is_Some buffer (col * 256 + row))) as [byte Hbyte]; [lia|].
    exists byte. split; [rewrite <- bufferAt_lookup by lia; exact Hbyte|].
    split; [apply pathPixelPalette_lookup|].
    rewrite Hpixel by assumption. apply colourAt_path, Hbyte.
  - intros Hlen.
    rewrite (renderWith_thrown false pathPixelPalette buffer w (Z.of_nat (length buffer)));
      [reflexivity | apply unitPalette_path | lia | |].
    + intros i Hi. apply knownAt_path, bufferAt_is_Some. lia.
    + rewrite knownAt_path, bufferAt_is_Some. lia.
Qed.

(** No two bytes of [byByte] share a color. *)
Lemma byByte_injective k1 k2 color :
  byByte !! k1 = Some color -> byByte !! k2 = Some color -> k1 = k2.
Proof.
  intros H1 H2. apply byByte_entries in H1. apply byByte_entries in H2.
  repeat (apply elem_of_cons in H1 as [H1|H1];
          [injection H1 as -> ->;
           repeat (apply elem_of_cons in H2 as [H2|H2];
                   [injection H2 as ->; reflexivity || discriminate|]);
           inversion H2|]).
  inversion H1.
Qed.

Lemma byteVal_injective b1 b2 : byteVal b1 = byteVal b2 -> b1 = b2.
Proof.
  intros H. apply (f_equal Z.to_N) in H. unfold byteVal in H.
  rewrite !N2Z.id in H. apply (f_equal Byte.of_N) in H.
  rewrite !Byte.of_to_N in H. congruence.
Qed.

Lemma pathPixel_injective b1 b2 : pathPixel b1 = pathPixel b2 -> b1 = b2.
Proof.
  intros H. apply byteVal_injective.
  pose proof (byteVal_range b1). pose proof (byteVal_range b2).
  unfold pathPixel, spec_pathColor in H.
  destruct (Z.eqb_spec (byteVal b1) 0xFA), (Z.eqb_spec (byteVal b1) 0xFF),
           (Z.eqb_spec (byteVal b2) 0xFA), (Z.eqb_spec (byteVal b2) 0xFF);
    cbn in H; first [lia | injection H; intros; lia].
Qed.

(** X4. The raster of [renderMap] determines the layer: two layers
    whose rasters agree on the 256 by 256 pixels hold the same byte at
    each of the 65536 offsets. *)
Theorem X4_renderMap_lossless buffer1 buffer2 w1 w2 img1 img2 w1' w2' :
  renderMap buffer1 w1 = Returned img1 w1' ->
  renderMap buffer2 w2 = Returned img2 w2' ->
  (forall col row, (0 <= col < 256)%Z -> (0 <= row < 256)%Z ->
     idata img1 col row = idata img2 col row) ->
  forall i, (0 <= i < 65536)%Z -> bufferAt buffer1 i = bufferAt buffer2 i.
Proof.
  rewrite (renderMap_renderWith buffer1), (renderMap_renderWith buffer2).
  intros H1 H2 Hsame i Hi.
  apply renderWith_inv in H1 as (_ & -> & Hknown1); [|apply unitPalette_map].
  apply renderWith_inv in H2 as (_ & -> & Hknown2); [|apply unitPalette_map].
  destruct (renderWith_returned true _ _ w1 unitPalette_map Hknown1) as [_ Hpixel1].
  destruct (renderWith_returned true _ _ w2 unitPalette_map Hknown2) as [_ Hpixel2].
  assert (Hcol : (0 <= i / 256 < 256)%Z)
    by (split; [apply Z.div_pos; lia | apply Z.div_lt_upper_bound; lia]).
  assert (Hrow : (0 <= i mod 256 < 256)%Z) by (apply Z.mod_pos_bound; lia).
  specialize (Hsame _ _ Hcol Hrow).
  rewrite Hpixel1, Hpixel2 in Hsame by assumption.
  replace (i / 256 * 256 + i mod 256)%Z with i in Hsame
    by (rewrite (Z.div_mod i 256) at 1; lia).
  destruct (colourAt_map buffer1 i (Hknown1 i Hi)) as (b1 & c1 & Hb1 & Hc1 & Hp1).
  destruct (colourAt_map buffer2 i (Hknown2 i Hi)) as (b2 & c2 & Hb2 & Hc2 & Hp2).
  rewrite Hb1, Hb2. f_equal. apply byteVal_injective.
  rewrite Hp1, Hp2 in Hsame.
  assert (c1 = c2) as <- by (destruct c1, c2; cbn in Hsame; congruence).
  exact (byByte_injective _ _ _ Hc1 Hc2).
Qed.

(** X5. The raster of [renderPath] determines the layer as well: the
    256 colors of [pathPixelPalette] are pairwise distinct. *)
Theorem X5_renderPath_lossless buffer1 buffer2 w1 w2 img1 img2 w1' w2' :
  renderPath buffer1 w1 = Returned img1 w1' ->
  renderPath buffer2 w2 = Returned img2 w2' ->
  (forall col row, (0 <= col < 256)%Z -> (0 <= row < 256)%Z ->
     idata img1 col row = idata img2 col row) ->
  forall i, (0 <= i < 65536)%Z -> bufferAt buffer1 i = bufferAt buffer2 i.
Proof.
  rewrite (renderPath_renderWith buffer1), (renderPath_renderWith buffer2).
  intros H1 H2 Hsame i Hi.
  apply renderWith_inv in H1 as (_ & -> & Hknown1); [|apply unitPalette_path].
  apply renderWith_inv in H2 as (_ & -> & Hknown2); [|apply unitPalette_path].
  destruct (renderWith_returned false _ _ w1 unitPalette_path Hknown1) as [_ Hpixel1].
  destruct (renderWith_returned false _ _ w2 unitPalette_path Hknown2) as [_ Hpixel2].
  assert (Hcol : (0 <= i / 256 < 256)%Z)
    by (split; [apply Z.div_pos; lia | apply Z.div_lt_upper_bound; lia]).
  assert (Hrow : (0 <= i mod 256 < 256)%Z) by (apply Z.mod_pos_bound; lia).
  specialize (Hsame _ _ Hcol Hrow).
  rewrite Hpixel1, Hpixel2 in Hsame by assumption.
  replace (i / 256 * 256 + i mod 256)%Z with i in Hsame
    by (rewrite (Z.div_mod i 256) at 1; lia).
  destruct (proj1 (knownAt_path buffer1 i) (Hknown1 i Hi)) as [b1 Hb1].
  destruct (proj1 (knownAt_path buffer2 i) (Hknown2 i Hi)) as [b2 Hb2].
  rewrite (colourAt_path _ _ _ Hb1), (colourAt_path _ _ _ Hb2) in Hsame.
  rewrite Hb1, Hb2. f_equal. apply pathPixel_injective, Hsame.
Qed.

(** ** One tile on the floor canvases *)

Lemma frame_refl w : frame w w.
Proof. repeat split; try reflexivity. exists []. now rewrite app_nil_r. Qed.

Lemma frame_trans w1 w2 w3 : frame w1 w2 -> frame w2 w3 -> frame w1 w3.
Proof.
  intros (Hb & Hw & H1 & H2 & H3 & H4 & l & Hl) (Hb' & Hw' & H1' & H2' & H3' & H4' & l' & Hl').
  repeat split; try congruence.
  exists (l ++ l'). rewrite Hl', Hl. now rewrite app_assoc.
Qed.

Section TileProperties.

Variable icons_byID : Z -> option jsstring.
Variable idToXyz : string -> Coordinates.
Variable path_basename : string -> string -> string.
Variable fs_readFile : string -> Buffer.

Local Abbreviation draw :=
  (drawMapSection icons_byID idToXyz path_basename fs_readFile).
Local Abbreviation layersDecode' := (layersDecode fs_readFile).
Local Abbreviation drawnLayers' := (drawnLayers idToXyz path_basename fs_readFile).
Local Abbreviation warned' := (warned fs_readFile).
Local Abbreviation stored' := (stored path_basename).
Local Abbreviation markerData' := (markerData fs_readFile).
Local Abbreviation decoded :=
  (fun fileName =>
     decodedMarkers icons_byID (markerData fs_readFile fileName)
       (coord_z (tileCoordinates idToXyz path_basename fileName))).
Local Abbreviation offsetX := (tileOffsetX idToXyz path_basename).
Local Abbreviation offsetY := (tileOffsetY idToXyz path_basename).
Local Abbreviation mapLayer' := (mapLayer fs_readFile).
Local Abbreviation pathLayer' := (pathLayer fs_readFile).

Local Abbreviation drawn' := (drawn icons_byID idToXyz path_basename fs_readFile).

Lemma drawMapSection_form fileName includeMarkers w w' :
  draw fileName includeMarkers w = Returned tt w' ->
  layersDecode' fileName
  /\ (includeMarkers = true -> decodable (markerData' fileName))
  /\ w' = drawn' fileName includeMarkers w.
Proof.
  intros H. pose proof (drawMapSection_inv _ _ _ _ _ _ _ _ H) as Hlayers.
  split; [exact Hlayers|]. unfold drawn. destruct includeMarkers.
  - destruct (decide (decodable (markerData' fileName))) as [Hdec|Hdec].
    + rewrite drawMapSection_on in H by assumption.
      apply Returned_inj in H as [_ <-]. split; [intros _; exact Hdec | reflexivity].
    + rewrite drawMapSection_thrown_markers in H by assumption. discriminate.
  - rewrite drawMapSection_off in H by assumption.
    apply Returned_inj in H as [_ <-]. split; [discriminate | reflexivity].
Qed.

Lemma drawn_fields fileName includeMarkers w :
  G_bounds (drawn' fileName includeMarkers w) = G_bounds w
  /\ G_mapCanvas (drawn' fileName includeMarkers w)
     = putPixels (mapLayer' fileName) (offsetX fileName w) (offsetY fileName w)
         (G_mapCanvas w)
  /\ G_pathCanvas (drawn' fileName includeMarkers w)
     = putPixels (pathLayer' fileName) (offsetX fileName w) (offsetY fileName w)
         (G_pathCanvas w)
  /\ written (drawn' fileName includeMarkers w) = written w
  /\ markers (drawn' fileName includeMarkers w)
     = (if includeMarkers
        then if bool_decide (length (decoded fileName) = 0) then markers w
             else <[tileId path_basename fileName := decoded fileName]> (markers w)
        else markers w)
  /\ exists lines, console (drawn' fileName includeMarkers w) = console w ++ lines.
Proof.
  unfold drawn, stored, warned, drawnLayers, mapLayer, pathLayer.
  destruct includeMarkers;
    repeat match goal with |- context [bool_decide ?P] => destruct (bool_decide P) end;
    cbn [G_bounds G_mapCanvas G_pathCanvas written markers console
         set_markers set_console set_mapCanvas set_pathCanvas];
    repeat split; try reflexivity;
    first [ eexists; reflexivity | exists []; symmetry; apply app_nil_r ].
Qed.

Lemma drawn_frame fileName includeMarkers w :
  frame w (drawn' fileName includeMarkers w).
Proof.
  destruct (drawn_fields fileName includeMarkers w)
    as (Hb & Hmap & Hpath & Hw & _ & Hlines).
  unfold frame. rewrite Hb, Hw, Hmap, Hpath. repeat split; try reflexivity.
  exact Hlines.
Qed.

(** However [drawMapSection] ends, it keeps the frame. *)
Lemma drawMapSection_frame fileName includeMarkers w :
  frame w (finalWorld (draw fileName includeMarkers w)).
Proof.
  destruct (layer_cases mapPixelPalette (mapData fs_readFile fileName))
    as [Hmap|(k & Hk & Hbefore & Hun)].
  - destruct (layer_cases pathPixelPalette (pathData fs_readFile fileName))
      as [Hpath|(k & Hk & Hbefore & Hun)].
    + assert (Hlayers : layersDecode' fileName) by (split; assumption).
      destruct includeMarkers.
      * destruct (decide (decodable (markerData' fileName))) as [Hdec|Hdec].
        -- rewrite drawMapSection_on by assumption.
           apply (drawn_frame fileName true w).
        -- rewrite drawMapSection_thrown_markers by assumption.
           apply (drawn_frame fileName false w).
      * rewrite drawMapSection_off by assumption.
        apply (drawn_frame fileName false w).
    + rewrite (drawMapSection_thrown_path _ _ _ _ _ _ _ k) by assumption.
      repeat split; try reflexivity. exists []. symmetry. apply app_nil_r.
  - rewrite (drawMapSection_thrown_map _ _ _ _ _ _ _ k) by assumption.
    repeat split; try reflexivity. eexists. reflexivity.
Qed.

Lemma layer_size :
  (forall fileName, iwidth (mapLayer' fileName) = 256%Z
                    /\ iheight (mapLayer' fileName) = 256%Z)
  /\ (forall fileName, iwidth (pathLayer' fileName) = 256%Z
                       /\ iheight (pathLayer' fileName) = 256%Z).
Proof. split; intros fileName; apply renderedImage_size. Qed.

(** The pixels of the two layers of a file that decodes. *)
Lemma mapLayer_pixel fileName col row :
  layersDecode' fileName -> (0 <= col < 256)%Z -> (0 <= row < 256)%Z ->
  exists byte color,
    fs_readFile fileName !! Z.to_nat (col * 256 + row) = Some byte
    /\ byByte !! byteVal byte = Some color
    /\ idata (mapLayer' fileName) col row = opaque color.
Proof.
  intros [Hknown _] Hcol Hrow.
  assert (Hi : (0 <= col * 256 + row < 65536)%Z) by lia.
  destruct (colourAt_map _ _ (Hknown _ Hi))
    as (byte & color & Hbyte & Hcolor & Hpix).
  exists byte, color. split; [|split; [exact Hcolor|]].
  - rewrite bufferAt_lookup in Hbyte by lia.
    unfold mapData in Hbyte. rewrite slice_take_drop in Hbyte.
    apply lookup_take_Some in Hbyte as [Hbyte _].
    now rewrite lookup_drop in Hbyte.
  - destruct (renderWith_returned true _ _ sample_world unitPalette_map Hknown)
      as [_ Himg].
    unfold mapLayer. rewrite Himg by assumption. exact Hpix.
Qed.

Lemma pathLayer_pixel fileName col row :
  layersDecode' fileName -> (0 <= col < 256)%Z -> (0 <= row < 256)%Z ->
  exists byte,
    fs_readFile fileName !! Z.to_nat (65536 + (col * 256 + row)) = Some byte
    /\ idata (pathLayer' fileName) col row = pathPixel byte.
Proof.
  intros [_ Hknown] Hcol Hrow.
  assert (Hi : (0 <= col * 256 + row < 65536)%Z) by lia.
  destruct (proj1 (knownAt_path _ _) (Hknown _ Hi)) as [byte Hbyte].
  exists byte. split.
  - rewrite bufferAt_lookup in Hbyte by lia.
    unfold pathData in Hbyte. rewrite slice_take_drop in Hbyte.
    apply lookup_take_Some in Hbyte as [Hbyte _].
    rewrite lookup_drop in Hbyte. rewrite <- Hbyte. f_equal.
    change (N.to_nat 0x10000) with (Z.to_nat 65536). lia.
  - destruct (renderWith_returned false _ _ sample_world unitPalette_path Hknown)
      as [_ Himg].
    unfold pathLayer. rewrite Himg by assumption.
    apply colourAt_path, Hbyte.
Qed.

(** X6. A tile touches nothing but its own square and its own entry:
    when [drawMapSection] resolves, the pixels of both floor canvases
    outside the 256 by 256 square of the tile are as before, and so
    are the sizes of the canvases, the bounds, the files handed over
    and the markers kept for every other tile; the console has only
    grown. *)
Theorem X6_tile_frame fileName includeMarkers w w' :
  draw fileName includeMarkers w = Returned tt w' ->
  (forall col row,
     ~ inTile idToXyz path_basename fileName w col row ->
     cpixel (G_mapCanvas w') col row = cpixel (G_mapCanvas w) col row
     /\ cpixel (G_pathCanvas w') col row = cpixel (G_pathCanvas w) col row)
  /\ (forall id, id <> path_basename fileName ".map" ->
        markers w' !! id = markers w !! id)
  /\ (includeMarkers = false -> markers w' = markers w)
  /\ frame w w'.
Proof.
  intros H. apply drawMapSection_form in H as (_ & _ & ->).
  destruct (drawn_fields fileName includeMarkers w)
    as (Hb & Hmap & Hpath & Hw & Hmarkers & Hlines).
  split; [|split; [|split]].
  - intros col row Hout. rewrite Hmap, Hpath.
    unfold mapLayer, pathLayer. cbn [putPixels cpixel].
    destruct (renderedImage_size mapPixelPalette (mapData fs_readFile fileName))
      as [-> ->].
    destruct (renderedImage_size pathPixelPalette (pathData fs_readFile fileName))
      as [-> ->].
    assert (Hin : inRect (offsetX fileName w) (offsetY fileName w) 256 256 col row
                  = false) by (apply inRect_false; exact Hout).
    rewrite Hin. split; reflexivity.
  - intros id Hid. rewrite Hmarkers. destruct includeMarkers; [|reflexivity].
    destruct (bool_decide _); [reflexivity|].
    apply lookup_insert_ne. unfold tileId. congruence.
  - intros ->. exact Hmarkers.
  - apply drawn_frame.
Qed.

(** X7. The pathfinding layer is laid out like the visual one: the
    byte at offset [0x10000 + i] of the file colors the pixel
    [i / 256] columns and [i mod 256] rows into the square of the
    tile on the pathfinding canvas. *)
Theorem X7_path_column_major fileName includeMarkers w w' (i : Z) :
  draw fileName includeMarkers w = Returned tt w' ->
  (0 <= i < 65536)%Z ->
  let col := (offsetX fileName w + i / 256)%Z in
  let row := (offsetY fileName w + i mod 256)%Z in
  (0 <= col < cwidth (G_pathCanvas w))%Z ->
  (0 <= row < cheight (G_pathCanvas w))%Z ->
  exists byte,
    fs_readFile fileName !! Z.to_nat (65536 + i) = Some byte
    /\ cpixel (G_pathCanvas w') col row = pathPixel byte.
Proof.
  intros H Hi col row Hcol Hrow.
  apply drawMapSection_form in H as ([_ Hknown] & _ & ->).
  destruct (drawn_fields fileName includeMarkers w) as (_ & _ & -> & _).
  destruct (proj1 (knownAt_path _ _) (Hknown i Hi)) as [byte Hbyte].
  exists byte. split.
  - rewrite bufferAt_lookup in Hbyte by lia.
    unfold pathData in Hbyte. rewrite slice_take_drop in Hbyte.
    apply lookup_take_Some in Hbyte as [Hbyte _].
    rewrite lookup_drop in Hbyte. rewrite <- Hbyte. f_equal.
    change (N.to_nat 0x10000) with (Z.to_nat 65536). lia.
  - destruct (renderWith_returned false _ _ w unitPalette_path Hknown) as [_ Himg].
    unfold pathLayer. cbn [putPixels cpixel].
    destruct (renderedImage_size pathPixelPalette (pathData fs_readFile fileName))
      as [-> ->].
    assert (Hin1 : inRect (offsetX fileName w) (offsetY fileName w) 256 256 col row
                   = true)
      by (apply inRect_spec; subst col row; zify; Z.div_mod_to_equations; lia).
    assert (Hin2 : inRect 0 0 (cwidth (G_pathCanvas w)) (cheight (G_pathCanvas w))
                     col row = true)
      by (apply inRect_spec; lia).
    rewrite Hin1, Hin2. cbn [andb].
    rewrite Himg by (subst col row; zify; Z.div_mod_to_equations; lia).
    rewrite <- (colourAt_path _ _ _ Hbyte). f_equal.
    subst col row. zify; Z.div_mod_to_equations; lia.
Qed.

(** The bytes of a file behind the two layers. *)
Lemma mapData_at fileName i :
  (0 <= i < 65536)%Z ->
  bufferAt (mapData fs_readFile fileName) i = fs_readFile fileName !! Z.to_nat i.
Proof.
  intros Hi. rewrite bufferAt_lookup by lia. unfold mapData.
  rewrite slice_take_drop, <- !Z_N_nat.
  rewrite lookup_take_lt by lia. rewrite lookup_drop. f_equal; lia.
Qed.

Lemma pathData_at fileName i :
  (0 <= i < 65536)%Z ->
  bufferAt (pathData fs_readFile fileName) i
  = fs_readFile fileName !! Z.to_nat (65536 + i).
Proof.
  intros Hi. rewrite bufferAt_lookup by lia. unfold pathData.
  rewrite slice_take_drop, <- !Z_N_nat.
  rewrite lookup_take_lt by lia. rewrite lookup_drop. f_equal; lia.
Qed.

Lemma layersDecode_bytes fileName :
  layersDecode' fileName
  <-> (131072 <= Z.of_nat (length (fs_readFile fileName)))%Z
      /\ forall i, (0 <= i < 65536)%Z ->
           exists byte, fs_readFile fileName !! Z.to_nat i = Some byte
                        /\ is_Some (byByte !! byteVal byte).
Proof.
  unfold layersDecode. split.
  - intros [Hmap Hpath]. split.
    + assert (Hlast : (0 <= 65535 < 65536)%Z) by lia.
      specialize (Hpath _ Hlast). apply knownAt_path in Hpath.
      rewrite pathData_at in Hpath by lia. apply lookup_lt_is_Some in Hpath. lia.
    + intros i Hi. specialize (Hmap i Hi).
      apply knownAt_map in Hmap as (byte & Hbyte & Hcolor).
      rewrite mapData_at in Hbyte by lia. eauto.
  - intros [Hlen Hmap]. split; intros i Hi.
    + apply knownAt_map. destruct (Hmap i Hi) as (byte & Hbyte & Hcolor).
      exists byte. rewrite mapData_at by lia. auto.
    + apply knownAt_path. rewrite pathData_at by lia. apply lookup_lt_is_Some. lia.
Qed.

Lemma drawMapSection_returns_iff fileName includeMarkers w :
  (exists w', draw fileName includeMarkers w = Returned tt w')
  <-> layersDecode' fileName
      /\ (includeMarkers = true -> decodable (markerData' fileName)).
Proof.
  split.
  - intros [w' H]. apply drawMapSection_form in H as (Hlayers & Hdec & _). auto.
  - intros [Hlayers Hdec]. destruct includeMarkers.
    + eexists. apply drawMapSection_on; auto.
    + eexists. apply drawMapSection_off; auto.
Qed.

(** X20. How [drawMapSection] ends is decided by the file alone. It
    resolves exactly when both layers decode and, with markers
    included, the marker block decodes; it ends in a [TypeError]
    exactly when a layer does not decode, and in a [RangeError]
    exactly when the layers decode, markers are included and the
    block does not decode. The layers decode exactly when the file
    has at least 0x20000 bytes and each of the first 0x10000 is a
    byte of [byByte]. *)
Theorem X20_tile_outcome fileName includeMarkers w :
  ((exists w', draw fileName includeMarkers w = Returned tt w')
   <-> layersDecode' fileName
       /\ (includeMarkers = true -> decodable (markerData' fileName)))
  /\ ((exists w', draw fileName includeMarkers w = Thrown TypeError w')
      <-> ~ layersDecode' fileName)
  /\ ((exists w', draw fileName includeMarkers w = Thrown RangeError w')
      <-> layersDecode' fileName /\ includeMarkers = true
          /\ ~ decodable (markerData' fileName))
  /\ (layersDecode' fileName
      <-> (131072 <= Z.of_nat (length (fs_readFile fileName)))%Z
          /\ forall i, (0 <= i < 65536)%Z ->
               exists byte, fs_readFile fileName !! Z.to_nat i = Some byte
                            /\ is_Some (byByte !! byteVal byte)).
Proof.
  split; [apply drawMapSection_returns_iff|].
  split; [|split; [|apply layersDecode_bytes]].
  - destruct (layersDecode_cases icons_byID idToXyz path_basename fs_readFile
                fileName) as [Hlayers|[Hnot Hthrown]].
    + split; [|intros Hnot; contradiction].
      intros [w' H]. exfalso. destruct includeMarkers.
      * destruct (decide (decodable (markerData' fileName))) as [Hdec|Hdec].
        -- rewrite drawMapSection_on in H by assumption. discriminate.
        -- rewrite drawMapSection_thrown_markers in H by assumption. discriminate.
      * rewrite drawMapSection_off in H by assumption. discriminate.
    + split; [intros _; exact Hnot | intros _; apply Hthrown].
  - destruct (layersDecode_cases icons_byID idToXyz path_basename fs_readFile
                fileName) as [Hlayers|[Hnot Hthrown]].
    + destruct includeMarkers.
      * destruct (decide (decodable (markerData' fileName))) as [Hdec|Hdec].
        -- rewrite drawMapSection_on by assumption.
           split; [intros [w' H]; discriminate | intros (_ & _ & Hn); contradiction].
        -- rewrite drawMapSection_thrown_markers by assumption.
           split; [intros _; auto | intros _; eexists; reflexivity].
      * rewrite drawMapSection_off by assumption.
        split; [intros [w' H]; discriminate | intros (_ & Hn & _); discriminate].
    + split; [|intros (Hlayers & _); contradiction].
      intros [w' H]. destruct (Hthrown includeMarkers w) as [w'' H'].
      rewrite H' in H. discriminate.
Qed.

Lemma drawn_console fileName includeMarkers w :
  console (drawn' fileName includeMarkers w)
  = console w ++ warnLines fs_readFile fileName.
Proof.
  unfold drawn, stored, warned, drawnLayers, warnLines.
  destruct includeMarkers;
    repeat match goal with |- context [bool_decide ?P] => destruct (bool_decide P) end;
    cbn [console set_markers set_console set_mapCanvas set_pathCanvas];
    first [reflexivity | symmetry; apply app_nil_r].
Qed.

End TileProperties.

(** ** The tiles of a floor *)

Lemma sameRaster_refl c : sameRaster c c.
Proof. repeat split. Qed.

Lemma sameRaster_trans c1 c2 c3 :
  sameRaster c1 c2 -> sameRaster c2 c3 -> sameRaster c1 c3.
Proof.
  intros (Hw & Hh & Hp) (Hw' & Hh' & Hp').
  split; [congruence|]. split; [congruence|].
  intros col row. now rewrite Hp.
Qed.

Lemma putPixels_sameRaster img dx dy c c' :
  sameRaster c c' -> sameRaster (putPixels img dx dy c) (putPixels img dx dy c').
Proof.
  intros (Hw & Hh & Hp).
  split; [exact Hw|]. split; [exact Hh|].
  intros col row. cbn [putPixels cwidth cheight cpixel]. now rewrite Hw, Hh, Hp.
Qed.

(** Two images put on disjoint rectangles may be put in either order. *)
Lemma putPixels_swap img1 img2 dx1 dy1 dx2 dy2 c :
  (forall col row,
     inRect dx1 dy1 (iwidth img1) (iheight img1) col row = true ->
     inRect dx2 dy2 (iwidth img2) (iheight img2) col row = true -> False) ->
  sameRaster (putPixels img1 dx1 dy1 (putPixels img2 dx2 dy2 c))
             (putPixels img2 dx2 dy2 (putPixels img1 dx1 dy1 c)).
Proof.
  intros Hdisjoint. split; [reflexivity|]. split; [reflexivity|].
  intros col row. cbn [putPixels cwidth cheight cpixel].
  specialize (Hdisjoint col row).
  destruct (inRect dx1 dy1 _ _ col row), (inRect dx2 dy2 _ _ col row),
           (inRect 0 0 _ _ col row); cbn [andb]; try reflexivity.
  now destruct Hdisjoint.
Qed.

Section FloorProperties.

Variable icons_byID : Z -> option jsstring.
Variable idToXyz : string -> Coordinates.
Variable path_basename : string -> string -> string.
Variable fs_readFile : string -> Buffer.
Variable glob : string -> list string.
Variable fillStyleColor : string -> RGBA.

Local Abbreviation draw :=
  (drawMapSection icons_byID idToXyz path_basename fs_readFile).
Local Abbreviation floor' :=
  (renderFloor icons_byID idToXyz path_basename fs_readFile glob fillStyleColor).
Local Abbreviation convert :=
  (convertFromMaps icons_byID idToXyz path_basename fs_readFile glob fillStyleColor).
Local Abbreviation layersDecode' := (layersDecode fs_readFile).
Local Abbreviation markerData' := (markerData fs_readFile).
Local Abbreviation decoded :=
  (fun fileName =>
     decodedMarkers icons_byID (markerData fs_readFile fileName)
       (coord_z (tileCoordinates idToXyz path_basename fileName))).
Local Abbreviation offsetX := (tileOffsetX idToXyz path_basename).
Local Abbreviation offsetY := (tileOffsetY idToXyz path_basename).
Local Abbreviation inTile' := (inTile idToXyz path_basename).
Local Abbreviation mapLayer' := (mapLayer fs_readFile).
Local Abbreviation pathLayer' := (pathLayer fs_readFile).
Local Abbreviation composite' := (composite idToXyz path_basename).
Local Abbreviation collected' := (collected icons_byID idToXyz path_basename fs_readFile).
Local Abbreviation drawn' := (drawn icons_byID idToXyz path_basename fs_readFile).
Local Abbreviation tilePlace' := (tilePlace idToXyz path_basename).
Local Abbreviation tileId' := (tileId path_basename).

Lemma composite_bounds layer files w1 w :
  G_bounds w1 = G_bounds w ->
  forall c, composite' layer files w1 c = composite' layer files w c.
Proof.
  intros Hb. unfold composite.
  induction files as [|fileName files IH]; intros c; [reflexivity|].
  cbn [foldl]. rewrite IH. unfold tileOffsetX, tileOffsetY. now rewrite Hb.
Qed.

(** The world in which a sequence of tiles resolves. *)
Lemma handleSequence_drawn includeMarkers files :
  forall w w',
  handleSequence files (fun fileName => draw fileName includeMarkers) w
  = Returned tt w' ->
  Forall (fun fileName =>
            layersDecode' fileName
            /\ (includeMarkers = true -> decodable (markerData' fileName))) files
  /\ G_bounds w' = G_bounds w
  /\ G_mapCanvas w' = composite' mapLayer' files w (G_mapCanvas w)
  /\ G_pathCanvas w' = composite' pathLayer' files w (G_pathCanvas w)
  /\ markers w' = (if includeMarkers then collected' files (markers w) else markers w)
  /\ written w' = written w.
Proof.
  induction files as [|fileName files IH]; intros w w' H.
  - apply Returned_inj in H as [_ <-].
    split; [constructor|]. destruct includeMarkers; repeat split.
  - destruct (draw fileName includeMarkers w) as [[] w1|e w1] eqn:Hdraw.
    + rewrite (handleSequence_cons_Returned fileName files
               (fun fileName => draw fileName includeMarkers) w w1 Hdraw) in H.
      apply IH in H as (Hall & Hb & Hmap & Hpath & Hmarkers & Hwritten).
      apply drawMapSection_form in Hdraw as (Hlayers & Hdec & ->).
      destruct (drawn_fields icons_byID idToXyz path_basename fs_readFile
                  fileName includeMarkers w)
        as (Hb1 & Hmap1 & Hpath1 & Hw1 & Hmarkers1 & _).
      split; [constructor; [split; assumption | exact Hall]|].
      rewrite Hb, Hmap, Hpath, Hmarkers, Hwritten.
      rewrite !(composite_bounds _ _ _ w Hb1).
      rewrite Hb1, Hmap1, Hpath1, Hw1, Hmarkers1.
      repeat split. destruct includeMarkers; reflexivity.
    + rewrite (handleSequence_cons_Thrown fileName files
               (fun fileName => draw fileName includeMarkers) w e w1 Hdraw) in H. discriminate.
Qed.

(** However a sequence of tiles ends, it keeps the frame. *)
Lemma handleSequence_frame includeMarkers files :
  forall w,
  frame w (finalWorld (handleSequence files
                         (fun fileName => draw fileName includeMarkers) w)).
Proof.
  induction files as [|fileName files IH]; intros w; [apply frame_refl|].
  pose proof (drawMapSection_frame icons_byID idToXyz path_basename fs_readFile
                fileName includeMarkers w) as Hframe.
  destruct (draw fileName includeMarkers w) as [[] w1|e w1] eqn:Hdraw.
  - rewrite (handleSequence_cons_Returned fileName files
               (fun fileName => draw fileName includeMarkers) w w1 Hdraw).
    exact (frame_trans _ _ _ Hframe (IH w1)).
  - rewrite (handleSequence_cons_Thrown fileName files
               (fun fileName => draw fileName includeMarkers) w e w1 Hdraw). exact Hframe.
Qed.

Lemma composite_size layer files w :
  forall c, cwidth (composite' layer files w c) = cwidth c
            /\ cheight (composite' layer files w c) = cheight c.
Proof.
  unfold composite. induction files as [|fileName files IH]; intros c; [split; reflexivity|].
  cbn [foldl]. destruct (IH (putPixels (layer fileName) (offsetX fileName w)
                               (offsetY fileName w) c)) as [-> ->].
  split; reflexivity.
Qed.

Lemma composite_snoc layer files fileName w c :
  composite' layer (files ++ [fileName]) w c
  = putPixels (layer fileName) (offsetX fileName w) (offsetY fileName w)
      (composite' layer files w c).
Proof. unfold composite. now rewrite foldl_app. Qed.

(** A pixel of the composite depends on the same pixel of the canvas
    underneath only. *)
Lemma composite_pointwise layer files w col row :
  forall c c',
  cwidth c = cwidth c' -> cheight c = cheight c' ->
  cpixel c col row = cpixel c' col row ->
  cpixel (composite' layer files w c) col row
  = cpixel (composite' layer files w c') col row.
Proof.
  unfold composite. induction files as [|fileName files IH]; intros c c' Hw Hh Hp.
  - exact Hp.
  - cbn [foldl]. apply IH; cbn [putPixels cwidth cheight cpixel]; try assumption.
    now rewrite Hw, Hh, Hp.
Qed.

(** Outside the squares of the tiles the canvas underneath shows. *)
Lemma composite_outside layer files w col row :
  (forall fileName, iwidth (layer fileName) = 256%Z /\ iheight (layer fileName) = 256%Z) ->
  (forall fileName, fileName ∈ files -> ~ inTile' fileName w col row) ->
  forall c, cpixel (composite' layer files w c) col row = cpixel c col row.
Proof.
  intros Hsize. induction files as [|fileName files IH] using rev_ind; intros Hout c.
  - reflexivity.
  - rewrite composite_snoc. cbn [putPixels cpixel].
    destruct (Hsize fileName) as [-> ->].
    assert (Hin : inRect (offsetX fileName w) (offsetY fileName w) 256 256 col row
                  = false).
    { apply inRect_false. apply (Hout fileName). apply elem_of_app. right.
      apply list_elem_of_singleton. reflexivity. }
    rewrite Hin. cbn [andb]. apply IH.
    intros f Hf. apply Hout. apply elem_of_app. left. exact Hf.
Qed.

(** Inside the square of some tile, a tile shows. *)
Lemma composite_inside layer files w col row :
  (forall fileName, iwidth (layer fileName) = 256%Z /\ iheight (layer fileName) = 256%Z) ->
  forall c,
  (0 <= col < cwidth c)%Z -> (0 <= row < cheight c)%Z ->
  (exists fileName, fileName ∈ files /\ inTile' fileName w col row) ->
  exists fileName,
    fileName ∈ files /\ inTile' fileName w col row
    /\ cpixel (composite' layer files w c) col row
       = idata (layer fileName) (col - offsetX fileName w) (row - offsetY fileName w).
Proof.
  intros Hsize c Hcol Hrow.
  induction files as [|fileName files IH] using rev_ind; intros (f & Hf & Hin).
  - inversion Hf.
  - rewrite composite_snoc. cbn [putPixels cpixel].
    destruct (Hsize fileName) as [-> ->].
    destruct (composite_size layer files w c) as [-> ->].
    assert (Hcanvas : inRect 0 0 (cwidth c) (cheight c) col row = true)
      by (apply inRect_spec; lia).
    rewrite Hcanvas, andb_true_r.
    destruct (inRect (offsetX fileName w) (offsetY fileName w) 256 256 col row)
      eqn:Hhere.
    + exists fileName. split; [|split; [|reflexivity]].
      * apply elem_of_app. right. apply list_elem_of_singleton. reflexivity.
      * apply inRect_spec in Hhere. exact Hhere.
    + apply elem_of_app in Hf as [Hf|Hf].
      * destruct IH as (f' & Hf' & Hin' & Hpix); [exists f; split; assumption|].
        exists f'. split; [apply elem_of_app; left; exact Hf'|].
        split; [exact Hin' | exact Hpix].
      * apply list_elem_of_singleton in Hf as ->.
        apply inRect_false in Hhere. contradiction.
Qed.

Lemma floorStart_fields floorID w :
  G_bounds (floorStart fillStyleColor floorID w) = G_bounds w
  /\ G_mapCanvas (floorStart fillStyleColor floorID w)
     = fillRect (fillStyleColor (showColor unexploredMap)) 0 0
         (width (G_bounds w)) (height (G_bounds w)) (G_mapCanvas w)
  /\ G_pathCanvas (floorStart fillStyleColor floorID w)
     = fillRect (fillStyleColor (showColor unexploredPath)) 0 0
         (width (G_bounds w)) (height (G_bounds w)) (G_pathCanvas w)
  /\ markers (floorStart fillStyleColor floorID w) = ∅
  /\ written (floorStart fillStyleColor floorID w) = written w.
Proof. repeat split. Qed.

(** The world in which a floor resolves. *)
Lemma renderFloor_form floorID mapDirectory dataDirectory includeMarkers w w' :
  floor' floorID mapDirectory dataDirectory includeMarkers w = Returned tt w' ->
  let files := floorFiles glob floorID mapDirectory in
  Forall (fun fileName =>
            layersDecode' fileName
            /\ (includeMarkers = true -> decodable (markerData' fileName))) files
  /\ G_bounds w' = G_bounds w
  /\ G_mapCanvas w'
     = composite' mapLayer' files w
         (fillRect (fillStyleColor (showColor unexploredMap)) 0 0
            (width (G_bounds w)) (height (G_bounds w)) (G_mapCanvas w))
  /\ G_pathCanvas w'
     = composite' pathLayer' files w
         (fillRect (fillStyleColor (showColor unexploredPath)) 0 0
            (width (G_bounds w)) (height (G_bounds w)) (G_pathCanvas w))
  /\ markers w' = (if includeMarkers then collected' files ∅ else ∅)
  /\ written w'
     = written w
       ++ [ PNG (dataDirectory ++ "/floor-" ++ floorID ++ "-map.png") (G_mapCanvas w');
            PNG (dataDirectory ++ "/floor-" ++ floorID ++ "-path.png") (G_pathCanvas w');
            JSON (dataDirectory ++ "/floor-" ++ floorID ++ "-markers.json")
              (if includeMarkers then markers w' else ∅) ].
Proof.
  rewrite renderFloor_steps. intros H files.
  destruct (handleSequence (floorFiles glob floorID mapDirectory)
              (fun fileName => draw fileName includeMarkers)
              (floorStart fillStyleColor floorID w)) as [[] w1|e w1] eqn:Hseq;
    [|discriminate].
  apply Returned_inj in H as [_ <-].
  apply handleSequence_drawn in Hseq as (Hall & Hb & Hmap & Hpath & Hmarkers & Hwritten).
  destruct (floorStart_fields floorID w) as (Hb0 & Hmap0 & Hpath0 & Hm0 & Hw0).
  rewrite (composite_bounds _ _ _ w Hb0) in Hmap.
  rewrite (composite_bounds _ _ _ w Hb0) in Hpath.
  rewrite Hmap0 in Hmap. rewrite Hpath0 in Hpath. rewrite Hm0 in Hmarkers.
  rewrite Hw0 in Hwritten. rewrite Hb0 in Hb.
  cbn [set_written G_bounds G_mapCanvas G_pathCanvas markers written].
  split; [exact Hall|]. split; [exact Hb|]. split; [exact Hmap|].
  split; [exact Hpath|]. split; [destruct includeMarkers; exact Hmarkers|].
  rewrite Hwritten. reflexivity.
Qed.


(** X9. Inside the tiles, a floor shows the files: each pixel of the
    canvas that lies in the square of a file of the floor shows, on
    the map raster, the palette color of a byte of the visual layer
    of such a file and, on the pathfinding raster, the color of a
    byte of its pathfinding layer, in both cases the byte
    [256 * column + row] of the layer, counted within the square. *)
Theorem X9_floor_tiles floorID mapDirectory dataDirectory includeMarkers w w' col row :
  floor' floorID mapDirectory dataDirectory includeMarkers w = Returned tt w' ->
  (exists fileName,
     fileName ∈ glob (mapDirectory ++ "/*" ++ floorID ++ ".map")
     /\ inTile' fileName w col row) ->
  ((0 <= col < cwidth (G_mapCanvas w))%Z -> (0 <= row < cheight (G_mapCanvas w))%Z ->
   exists fileName byte color,
     fileName ∈ glob (mapDirectory ++ "/*" ++ floorID ++ ".map")
     /\ inTile' fileName w col row
     /\ fs_readFile fileName
        !! Z.to_nat ((col - offsetX fileName w) * 256 + (row - offsetY fileName w))
        = Some byte
     /\ byByte !! byteVal byte = Some color
     /\ cpixel (G_mapCanvas w') col row = opaque color)
  /\ ((0 <= col < cwidth (G_pathCanvas w))%Z -> (0 <= row < cheight (G_pathCanvas w))%Z ->
      exists fileName byte,
        fileName ∈ glob (mapDirectory ++ "/*" ++ floorID ++ ".map")
        /\ inTile' fileName w col row
        /\ fs_readFile fileName
           !! Z.to_nat (65536 + ((col - offsetX fileName w) * 256
                                 + (row - offsetY fileName w)))
           = Some byte
        /\ cpixel (G_pathCanvas w') col row = pathPixel byte).
Proof.
  intros H Hcovered.
  apply renderFloor_form in H as (Hall & _ & Hmap & Hpath & _).
  unfold floorFiles in Hall, Hmap, Hpath.
  destruct (layer_size fs_readFile) as [HsizeMap HsizePath].
  rewrite Forall_forall in Hall.
  split; intros Hcol Hrow.
  - destruct (composite_inside mapLayer' _ w col row HsizeMap
                (fillRect (fillStyleColor (showColor unexploredMap)) 0 0
                   (width (G_bounds w)) (height (G_bounds w)) (G_mapCanvas w))
                Hcol Hrow Hcovered) as (f & Hf & Hin & Hpix).
    destruct (mapLayer_pixel fs_readFile f (col - offsetX f w) (row - offsetY f w))
      as (byte & color & Hbyte & Hcolor & Hlayer);
      [apply (Hall f Hf) | unfold inTile in Hin; lia | unfold inTile in Hin; lia |].
    exists f, byte, color. rewrite Hmap, Hpix, Hlayer. auto.
  - destruct (composite_inside pathLayer' _ w col row HsizePath
                (fillRect (fillStyleColor (showColor unexploredPath)) 0 0
                   (width (G_bounds w)) (height (G_bounds w)) (G_pathCanvas w))
                Hcol Hrow Hcovered) as (f & Hf & Hin & Hpix).
    destruct (pathLayer_pixel fs_readFile f (col - offsetX f w) (row - offsetY f w))
      as (byte & Hbyte & Hlayer);
      [apply (Hall f Hf) | unfold inTile in Hin; lia | unfold inTile in Hin; lia |].
    exists f, byte. rewrite Hpath, Hpix, Hlayer. auto.
Qed.

Lemma composite_sameRaster layer files w :
  forall c c', sameRaster c c' ->
  sameRaster (composite' layer files w c) (composite' layer files w c').
Proof.
  unfold composite. induction files as [|fileName files IH]; intros c c' Hs; [exact Hs|].
  cbn [foldl]. apply IH, putPixels_sameRaster, Hs.
Qed.

(** Tiles at different places have disjoint squares. *)
Lemma tiles_disjoint f1 f2 w col row :
  tilePlace' f1 <> tilePlace' f2 ->
  inRect (offsetX f1 w) (offsetY f1 w) 256 256 col row = true ->
  inRect (offsetX f2 w) (offsetY f2 w) 256 256 col row = true -> False.
Proof.
  intros Hne H1 H2. apply inRect_spec in H1. apply inRect_spec in H2.
  unfold tileOffsetX, tileOffsetY in H1, H2. apply Hne. unfold tilePlace.
  f_equal; lia.
Qed.

Lemma composite_Permutation layer w files files' :
  (forall fileName, iwidth (layer fileName) = 256%Z /\ iheight (layer fileName) = 256%Z) ->
  files ≡ₚ files' ->
  NoDup (tilePlace' <$> files) ->
  forall c c', sameRaster c c' ->
  sameRaster (composite' layer files w c) (composite' layer files' w c').
Proof.
  intros Hsize Hperm.
  induction Hperm as [|f l l' Hperm IH|f1 f2 l|l l' l'' Hperm1 IH1 Hperm2 IH2];
    intros Hnd c c' Hs.
  - exact Hs.
  - apply NoDup_cons in Hnd as [_ Hnd].
    unfold composite. cbn [foldl]. apply (IH Hnd), putPixels_sameRaster, Hs.
  - apply NoDup_cons in Hnd as [Hne _].
    unfold composite. cbn [foldl]. apply composite_sameRaster.
    eapply sameRaster_trans; [|apply putPixels_sameRaster, putPixels_sameRaster, Hs].
    apply putPixels_swap. intros col row.
    destruct (Hsize f1) as [-> ->]. destruct (Hsize f2) as [-> ->].
    apply tiles_disjoint. intros Heq. apply Hne. rewrite Heq. left.
  - eapply sameRaster_trans; [apply (IH1 Hnd c c' Hs)|].
    apply IH2; [|apply sameRaster_refl].
    rewrite <- Hperm1. exact Hnd.
Qed.

Lemma collected_Permutation files files' :
  files ≡ₚ files' ->
  NoDup (tileId' <$> files) ->
  forall found, collected' files found = collected' files' found.
Proof.
  intros Hperm.
  induction Hperm as [|f l l' Hperm IH|f1 f2 l|l l' l'' Hperm1 IH1 Hperm2 IH2];
    intros Hnd found.
  - reflexivity.
  - apply NoDup_cons in Hnd as [_ Hnd]. unfold collected. cbn [foldl]. apply (IH Hnd).
  - apply NoDup_cons in Hnd as [Hne _].
    assert (Hids : tileId' f2 <> tileId' f1)
      by (intros Heq; apply Hne; rewrite Heq; left).
    unfold collected. cbn [foldl]. f_equal.
    destruct (bool_decide (length (decoded f1) = 0)),
             (bool_decide (length (decoded f2) = 0)); try reflexivity.
    apply insert_insert_ne. intros Heq. apply Hids. now rewrite Heq.
  - rewrite (IH1 Hnd). apply IH2. rewrite <- Hperm1. exact Hnd.
Qed.

(** Tiles at different places have different identifiers. *)
Lemma tilePlace_tileId files :
  NoDup (tilePlace' <$> files) -> NoDup (tileId' <$> files).
Proof.
  intros Hnd.
  apply (NoDup_fmap_1 (fun id => (coord_x (idToXyz id), coord_y (idToXyz id)))).
  rewrite <- list_fmap_compose. exact Hnd.
Qed.

(** X10. The order of the files of a floor does not matter: if no two
    of them lie at the same place, handling them in any other order
    resolves as well and yields the same two rasters, pixel for
    pixel, and the same markers. *)
Theorem X10_order_irrelevant includeMarkers files files' w w1 :
  files ≡ₚ files' ->
  NoDup (tilePlace' <$> files) ->
  handleSequence files (fun fileName => draw fileName includeMarkers) w
  = Returned tt w1 ->
  exists w1',
    handleSequence files' (fun fileName => draw fileName includeMarkers) w
    = Returned tt w1'
    /\ sameRaster (G_mapCanvas w1) (G_mapCanvas w1')
    /\ sameRaster (G_pathCanvas w1) (G_pathCanvas w1')
    /\ markers w1 = markers w1'
    /\ written w1 = written w1'.
Proof.
  intros Hperm Hnd H.
  apply handleSequence_drawn in H as (Hall & _ & Hmap & Hpath & Hmarkers & Hwritten).
  assert (Hall' : Forall (fun fileName =>
                    layersDecode' fileName
                    /\ (includeMarkers = true -> decodable (markerData' fileName)))
                    files')
    by (rewrite <- Hperm; exact Hall).
  destruct (handleSequence_returns icons_byID idToXyz path_basename fs_readFile
              includeMarkers files' Hall' w) as [w1' H'].
  exists w1'. split; [exact H'|].
  apply handleSequence_drawn in H' as (_ & _ & Hmap' & Hpath' & Hmarkers' & Hwritten').
  destruct (layer_size fs_readFile) as [HsizeMap HsizePath].
  rewrite Hmap, Hmap', Hpath, Hpath', Hmarkers, Hmarkers', Hwritten, Hwritten'.
  split; [apply composite_Permutation; auto using sameRaster_refl|].
  split; [apply composite_Permutation; auto using sameRaster_refl|].
  split; [|reflexivity].
  destruct includeMarkers; [|reflexivity].
  apply collected_Permutation; [exact Hperm | apply tilePlace_tileId, Hnd].
Qed.

Lemma collected_snoc files fileName found :
  collected' (files ++ [fileName]) found
  = (if bool_decide (length (decoded fileName) = 0) then collected' files found
     else <[tileId' fileName := decoded fileName]> (collected' files found)).
Proof. unfold collected. now rewrite foldl_app. Qed.

(** Where the entries of the accumulator come from. *)
Lemma collected_lookup files found id results :
  collected' files found !! id = Some results ->
  (results <> []
   /\ exists fileName, fileName ∈ files /\ id = tileId' fileName
                       /\ results = decoded fileName)
  \/ found !! id = Some results.
Proof.
  induction files as [|fileName files IH] using rev_ind; intros H.
  - right. exact H.
  - rewrite collected_snoc in H.
    destruct (bool_decide (length (decoded fileName) = 0)) eqn:Hempty.
    + apply IH in H as [(Hne & f & Hf & Hid & Hres)|H]; [left|right; exact H].
      split; [exact Hne|]. exists f. split; [apply elem_of_app; left; exact Hf|].
      split; assumption.
    + apply lookup_insert_Some in H as [[<- <-]|[_ H]].
      * left. apply bool_decide_eq_false in Hempty. split.
        -- intros Heq. apply Hempty. now rewrite Heq.
        -- exists fileName. split; [|split; reflexivity].
           apply elem_of_app. right. apply list_elem_of_singleton. reflexivity.
      * apply IH in H as [(Hne & f & Hf & Hid & Hres)|H]; [left|right; exact H].
        split; [exact Hne|]. exists f. split; [apply elem_of_app; left; exact Hf|].
        split; assumption.
Qed.

(** Every file with markers has an entry. *)
Lemma collected_has files found fileName :
  fileName ∈ files -> decoded fileName <> [] ->
  is_Some (collected' files found !! tileId' fileName).
Proof.
  induction files as [|f files IH] using rev_ind; intros Hin Hne; [inversion Hin|].
  rewrite collected_snoc.
  apply elem_of_app in Hin as [Hin|Hin].
  - destruct (bool_decide (length (decoded f) = 0)); [apply IH; assumption|].
    destruct (decide (tileId' f = tileId' fileName)) as [->|Hid].
    + rewrite lookup_insert_eq. eauto.
    + rewrite lookup_insert_ne by exact Hid. apply IH; assumption.
  - apply list_elem_of_singleton in Hin as ->.
    rewrite bool_decide_eq_false_2.
    + rewrite lookup_insert_eq. eauto.
    + intros Hlen. apply Hne. now apply nil_length_inv.
Qed.

(** X11. What the markers file of a floor holds: when [renderFloor]
    resolves with markers included, the object handed to [writeJSON]
    has, under each identifier, a list that is not empty and is what
    [parseMarkerData] returns for the marker block of a file of this
    floor with this identifier; every file of the floor whose block
    yields a marker has an entry; the markers that were kept before
    the floor started play no part. *)
Theorem X11_json_content floorID mapDirectory dataDirectory w w' :
  floor' floorID mapDirectory dataDirectory true w = Returned tt w' ->
  exists found,
    last (written w')
    = Some (JSON (dataDirectory ++ "/floor-" ++ floorID ++ "-markers.json") found)
    /\ (forall id results,
          found !! id = Some results ->
          results <> []
          /\ exists fileName,
               fileName ∈ glob (mapDirectory ++ "/*" ++ floorID ++ ".map")
               /\ id = path_basename fileName ".map"
               /\ parseMarkerData icons_byID (sliceFrom (fs_readFile fileName) 0x20000)
                    (coord_z (idToXyz id)) w
                  = Returned results w)
    /\ (forall fileName,
          fileName ∈ glob (mapDirectory ++ "/*" ++ floorID ++ ".map") ->
          decoded fileName <> [] ->
          is_Some (found !! path_basename fileName ".map")).
Proof.
  intros H. apply renderFloor_form in H as (Hall & _ & _ & _ & Hmarkers & Hwritten).
  unfold floorFiles in Hall, Hmarkers. rewrite Forall_forall in Hall.
  exists (markers w'). split; [rewrite Hwritten, last_app; reflexivity|].
  rewrite Hmarkers. split.
  - intros id results Hlookup.
    apply collected_lookup in Hlookup
      as [(Hne & f & Hf & -> & ->)|Hlookup]; [|rewrite lookup_empty in Hlookup; discriminate].
    split; [exact Hne|]. exists f. split; [exact Hf|]. split; [reflexivity|].
    apply parseMarkerData_decodable. apply (Hall f Hf). reflexivity.
  - intros f Hf Hne. apply collected_has; assumption.
Qed.

Lemma renderFloor_sameShape floorID mapDirectory dataDirectory includeMarkers w w' :
  floor' floorID mapDirectory dataDirectory includeMarkers w = Returned tt w' ->
  sameShape w w'.
Proof.
  intros H. apply renderFloor_form in H as (_ & Hb & Hmap & Hpath & _).
  unfold sameShape. rewrite Hb, Hmap, Hpath.
  destruct (composite_size mapLayer' (floorFiles glob floorID mapDirectory) w
              (fillRect (fillStyleColor (showColor unexploredMap)) 0 0
                 (width (G_bounds w)) (height (G_bounds w)) (G_mapCanvas w)))
    as [-> ->].
  destruct (composite_size pathLayer' (floorFiles glob floorID mapDirectory) w
              (fillRect (fillStyleColor (showColor unexploredPath)) 0 0
                 (width (G_bounds w)) (height (G_bounds w)) (G_pathCanvas w)))
    as [-> ->].
  repeat split.
Qed.

(** X12. A floor starts afresh: what [renderFloor] hands over does
    not depend on what the canvases showed or on the markers kept
    when it started. Run from two worlds of the same shape, it
    resolves in both or in none, with the same markers and with
    rasters that agree on every pixel inside the bounds. *)
Theorem X12_floor_starts_afresh floorID mapDirectory dataDirectory includeMarkers
    w1 w2 w1' :
  sameShape w1 w2 ->
  floor' floorID mapDirectory dataDirectory includeMarkers w1 = Returned tt w1' ->
  exists w2' mapRaster1 pathRaster1 mapRaster2 pathRaster2 found,
    floor' floorID mapDirectory dataDirectory includeMarkers w2 = Returned tt w2'
    /\ written w1'
       = written w1
         ++ [ PNG (dataDirectory ++ "/floor-" ++ floorID ++ "-map.png") mapRaster1;
              PNG (dataDirectory ++ "/floor-" ++ floorID ++ "-path.png") pathRaster1;
              JSON (dataDirectory ++ "/floor-" ++ floorID ++ "-markers.json") found ]
    /\ written w2'
       = written w2
         ++ [ PNG (dataDirectory ++ "/floor-" ++ floorID ++ "-map.png") mapRaster2;
              PNG (dataDirectory ++ "/floor-" ++ floorID ++ "-path.png") pathRaster2;
              JSON (dataDirectory ++ "/floor-" ++ floorID ++ "-markers.json") found ]
    /\ forall col row,
         (0 <= col < width (G_bounds w1))%Z -> (0 <= row < height (G_bounds w1))%Z ->
         cpixel mapRaster1 col row = cpixel mapRaster2 col row
         /\ cpixel pathRaster1 col row = cpixel pathRaster2 col row.
Proof.
  intros (Hb & Hmw & Hmh & Hpw & Hph) H.
  apply renderFloor_form in H as (Hall & _ & Hmap & Hpath & Hmarkers & Hwritten).
  destruct (renderFloor_returns icons_byID idToXyz path_basename fs_readFile glob
              fillStyleColor floorID mapDirectory dataDirectory includeMarkers w2 Hall)
    as [w2' H2].
  pose proof H2 as Hform.
  apply renderFloor_form in Hform as (_ & _ & Hmap2 & Hpath2 & Hmarkers2 & Hwritten2).
  rewrite (composite_bounds _ _ _ w1 Hb) in Hmap2.
  rewrite (composite_bounds _ _ _ w1 Hb) in Hpath2.
  rewrite Hb in Hmap2, Hpath2.
  exists w2', (G_mapCanvas w1'), (G_pathCanvas w1'), (G_mapCanvas w2'),
         (G_pathCanvas w2'), (if includeMarkers then markers w1' else ∅).
  split; [exact H2|]. split; [exact Hwritten|].
  split; [rewrite Hwritten2, Hmarkers2, Hmarkers; reflexivity|].
  intros col row Hcol Hrow.
  assert (Hin : inRect 0 0 (width (G_bounds w1)) (height (G_bounds w1)) col row = true)
    by (apply inRect_spec; lia).
  rewrite Hmap, Hmap2, Hpath, Hpath2.
  split; apply composite_pointwise; cbn [fillRect cwidth cheight cpixel];
    try (symmetry; assumption); rewrite Hin; reflexivity.
Qed.

(** ** The floors of a conversion *)

(** How a floor ends. *)
Lemma renderFloor_outcome bounds floorID mapDirectory dataDirectory includeMarkers w :
  sized bounds w ->
  match floor' floorID mapDirectory dataDirectory includeMarkers w with
  | Returned _ w' =>
      sized bounds w'
      /\ exists files,
           floorFilesOf bounds dataDirectory includeMarkers floorID files
           /\ written w' = written w ++ files
  | Thrown _ w' => written w' = written w
  end.
Proof.
  intros (Hb & Hmw & Hmh & Hpw & Hph).
  destruct (floor' floorID mapDirectory dataDirectory includeMarkers w)
    as [[] w'|e w'] eqn:H.
  - pose proof (renderFloor_sameShape _ _ _ _ _ _ H) as (Hb' & Hmw' & Hmh' & Hpw' & Hph').
    apply renderFloor_form in H as (_ & _ & _ & _ & _ & Hwritten).
    split; [unfold sized; repeat split; congruence|].
    eexists. split; [|exact Hwritten].
    eexists _, _, _. split; [reflexivity|].
    repeat split; try congruence. intros ->. reflexivity.
  - rewrite renderFloor_steps in H.
    pose proof (handleSequence_frame includeMarkers
                  (floorFiles glob floorID mapDirectory)
                  (floorStart fillStyleColor floorID w)) as Hframe.
    destruct (handleSequence (floorFiles glob floorID mapDirectory)
                (fun fileName => draw fileName includeMarkers)
                (floorStart fillStyleColor floorID w)) as [[] w1|e1 w1];
      [discriminate|].
    injection H as _ <-. destruct Hframe as (_ & Hwritten & _). exact Hwritten.
Qed.

(** How a sequence of floors ends. *)
Lemma handleSequence_floors bounds mapDirectory dataDirectory includeMarkers floorIDs :
  forall w, sized bounds w ->
  match handleSequence floorIDs
          (fun floorID => floor' floorID mapDirectory dataDirectory includeMarkers) w
  with
  | Returned _ w' =>
      exists files,
        Forall2 (floorFilesOf bounds dataDirectory includeMarkers) floorIDs files
        /\ written w' = written w ++ concat files
  | Thrown _ w' =>
      exists k files,
        k < length floorIDs
        /\ Forall2 (floorFilesOf bounds dataDirectory includeMarkers)
             (take k floorIDs) files
        /\ written w' = written w ++ concat files
  end.
Proof.
  induction floorIDs as [|floorID floorIDs IH]; intros w Hsized.
  - exists []. split; [constructor|]. symmetry. apply app_nil_r.
  - pose proof (renderFloor_outcome bounds floorID mapDirectory dataDirectory
                  includeMarkers w Hsized) as Hfloor.
    destruct (floor' floorID mapDirectory dataDirectory includeMarkers w)
      as [[] w1|e w1] eqn:Hrun.
    + rewrite (handleSequence_cons_Returned floorID floorIDs
                 (fun floorID => floor' floorID mapDirectory dataDirectory includeMarkers)
                 w w1 Hrun).
      destruct Hfloor as (Hsized1 & files1 & Hfiles1 & Hwritten1).
      specialize (IH w1 Hsized1).
      destruct (handleSequence floorIDs _ w1) as [[] w2|e w2].
      * destruct IH as (files & Hfiles & Hwritten).
        exists (files1 :: files). split; [constructor; assumption|].
        rewrite Hwritten, Hwritten1. cbn [concat]. now rewrite app_assoc.
      * destruct IH as (k & files & Hk & Hfiles & Hwritten).
        exists (S k), (files1 :: files). split; [cbn [length]; lia|].
        split; [cbn [take]; constructor; assumption|].
        rewrite Hwritten, Hwritten1. cbn [concat]. now rewrite app_assoc.
    + rewrite (handleSequence_cons_Thrown floorID floorIDs
                 (fun floorID => floor' floorID mapDirectory dataDirectory includeMarkers)
                 w e w1 Hrun).
      exists 0, []. split; [cbn [length]; lia|]. split; [constructor|].
      rewrite Hfloor. symmetry. apply app_nil_r.
Qed.

Lemma convertFromMaps_steps bounds mapDirectory dataDirectory includeMarkers w :
  convert bounds mapDirectory dataDirectory includeMarkers w
  = handleSequence (floorIDs bounds)
      (fun floorID => floor' floorID (mapDirectoryOr mapDirectory)
                        (dataDirectoryOr dataDirectory) includeMarkers)
      (conversionStart bounds w).
Proof. reflexivity. Qed.

Lemma conversionStart_sized bounds w : sized bounds (conversionStart bounds w).
Proof. repeat split. Qed.

(** X13. A conversion that completes has handed over three files for
    each floor of the bounds, floor after floor in the order of
    [floorIDs]: the map raster, the pathfinding raster and the
    markers, named after the floor in the data directory ([data] if
    none is given); both rasters are as large as the bounds, and the
    markers file holds the empty object when markers are excluded. *)
Theorem X13_conversion_output bounds mapDirectory dataDirectory includeMarkers w w' :
  convert bounds mapDirectory dataDirectory includeMarkers w = Returned tt w' ->
  exists files,
    Forall2 (floorFilesOf bounds (dataDirectoryOr dataDirectory) includeMarkers)
      (floorIDs bounds) files
    /\ written w' = written w ++ concat files.
Proof.
  rewrite convertFromMaps_steps. intros H.
  pose proof (handleSequence_floors bounds (mapDirectoryOr mapDirectory)
                (dataDirectoryOr dataDirectory) includeMarkers (floorIDs bounds)
                (conversionStart bounds w) (conversionStart_sized bounds w)) as Hall.
  rewrite H in Hall. exact Hall.
Qed.

(** X14. A conversion that is cut short leaves whole floors behind:
    when a floor ends in an exception, the three files of each floor
    before it have been handed over, and nothing of the failing floor
    or of a later one. *)
Theorem X14_conversion_cut_short bounds mapDirectory dataDirectory includeMarkers
    w e w' :
  convert bounds mapDirectory dataDirectory includeMarkers w = Thrown e w' ->
  exists k files,
    k < length (floorIDs bounds)
    /\ Forall2 (floorFilesOf bounds (dataDirectoryOr dataDirectory) includeMarkers)
         (take k (floorIDs bounds)) files
    /\ written w' = written w ++ concat files.
Proof.
  rewrite convertFromMaps_steps. intros H.
  pose proof (handleSequence_floors bounds (mapDirectoryOr mapDirectory)
                (dataDirectoryOr dataDirectory) includeMarkers (floorIDs bounds)
                (conversionStart bounds w) (conversionStart_sized bounds w)) as Hall.
  rewrite H in Hall. exact Hall.
Qed.

(** ** When a conversion completes, and what it prints *)

Lemma handleSequence_floors_return mapDirectory dataDirectory includeMarkers floorIDs :
  (forall floorID, floorID ∈ floorIDs ->
     Forall (fun fileName =>
               layersDecode' fileName
               /\ (includeMarkers = true -> decodable (markerData' fileName)))
            (floorFiles glob floorID mapDirectory)) ->
  forall w, exists w',
    handleSequence floorIDs
      (fun floorID => floor' floorID mapDirectory dataDirectory includeMarkers) w
    = Returned tt w'.
Proof.
  induction floorIDs as [|floorID floorIDs IH]; intros Hall w.
  - exists w. reflexivity.
  - destruct (renderFloor_returns icons_byID idToXyz path_basename fs_readFile glob
                fillStyleColor floorID mapDirectory dataDirectory includeMarkers w)
      as [w1 H1]; [apply Hall; left|].
    rewrite (handleSequence_cons_Returned floorID floorIDs
               (fun floorID => floor' floorID mapDirectory dataDirectory includeMarkers)
               w w1 H1).
    apply IH. intros id Hid. apply Hall. right. exact Hid.
Qed.

Lemma handleSequence_floors_inv mapDirectory dataDirectory includeMarkers floorIDs :
  forall w w',
  handleSequence floorIDs
    (fun floorID => floor' floorID mapDirectory dataDirectory includeMarkers) w
  = Returned tt w' ->
  forall floorID, floorID ∈ floorIDs ->
    Forall (fun fileName =>
              layersDecode' fileName
              /\ (includeMarkers = true -> decodable (markerData' fileName)))
           (floorFiles glob floorID mapDirectory).
Proof.
  induction floorIDs as [|floorID floorIDs IH]; intros w w' H id Hid; [inversion Hid|].
  destruct (floor' floorID mapDirectory dataDirectory includeMarkers w)
    as [[] w1|e w1] eqn:H1.
  - rewrite (handleSequence_cons_Returned floorID floorIDs
               (fun floorID => floor' floorID mapDirectory dataDirectory includeMarkers)
               w w1 H1) in H.
    apply elem_of_cons in Hid as [->|Hid].
    + apply renderFloor_form in H1 as (Hall & _). exact Hall.
    + exact (IH w1 w' H id Hid).
  - rewrite (handleSequence_cons_Thrown floorID floorIDs
               (fun floorID => floor' floorID mapDirectory dataDirectory includeMarkers)
               w e w1 H1) in H. discriminate.
Qed.

(** X21. A conversion completes exactly when each file would on its
    own: [convertFromMaps] runs through all its floors if and only if
    [drawMapSection] resolves for every file that [glob] lists for a
    floor of the bounds, in the map directory ([Automap] if none is
    given). *)
Theorem X21_conversion_completes bounds mapDirectory dataDirectory includeMarkers w :
  (exists w', convert bounds mapDirectory dataDirectory includeMarkers w
              = Returned tt w')
  <-> forall floorID fileName,
        floorID ∈ floorIDs bounds ->
        fileName ∈ glob (mapDirectoryOr mapDirectory ++ "/*" ++ floorID ++ ".map") ->
        exists w', draw fileName includeMarkers w = Returned tt w'.
Proof.
  rewrite convertFromMaps_steps. split.
  - intros [w' H] floorID fileName Hfloor Hfile.
    pose proof (handleSequence_floors_inv _ _ _ _ _ _ H floorID Hfloor) as Hall.
    rewrite Forall_forall in Hall.
    apply drawMapSection_returns_iff. apply Hall. exact Hfile.
  - intros Hall. apply handleSequence_floors_return.
    intros floorID Hfloor. apply Forall_forall. intros fileName Hfile.
    apply (drawMapSection_returns_iff icons_byID idToXyz path_basename fs_readFile
             fileName includeMarkers w).
    apply (Hall floorID fileName Hfloor Hfile).
Qed.

Lemma handleSequence_console includeMarkers files :
  forall w w',
  handleSequence files (fun fileName => draw fileName includeMarkers) w
  = Returned tt w' ->
  console w' = console w ++ flat_map (warnLines fs_readFile) files.
Proof.
  induction files as [|fileName files IH]; intros w w' H.
  - apply Returned_inj in H as [_ <-]. symmetry. apply app_nil_r.
  - destruct (draw fileName includeMarkers w) as [[] w1|e w1] eqn:Hdraw.
    + rewrite (handleSequence_cons_Returned fileName files
                 (fun fileName => draw fileName includeMarkers) w w1 Hdraw) in H.
      apply IH in H. apply drawMapSection_form in Hdraw as (_ & _ & ->).
      rewrite H, drawn_console. cbn [flat_map]. now rewrite app_assoc.
    + rewrite (handleSequence_cons_Thrown fileName files
                 (fun fileName => draw fileName includeMarkers) w e w1 Hdraw) in H.
      discriminate.
Qed.

Lemma decodable_silent files :
  Forall (fun fileName =>
            layersDecode' fileName
            /\ (true = true -> decodable (markerData' fileName))) files ->
  flat_map (warnLines fs_readFile) files = [].
Proof.
  induction 1 as [|fileName files [_ Hdec] Hall IH]; [reflexivity|].
  cbn [flat_map]. rewrite IH. unfold warnLines.
  destruct (Hdec eq_refl) as [Hlen _].
  rewrite bool_decide_eq_false_2 by lia. reflexivity.
Qed.

(** X22. What a floor prints when it completes: the line that
    announces the floor and then, for each file without marker block
    in the order of the files, the warning and the repair command.
    With markers included there is no such file, as its block would
    not have decoded: a floor that completes has then printed the
    announcement only. *)
Theorem X22_floor_console floorID mapDirectory dataDirectory includeMarkers w w' :
  floor' floorID mapDirectory dataDirectory includeMarkers w = Returned tt w' ->
  console w'
  = console w
    ++ console_log_line ("Rendering floor " ++ floorID ++ "…")
       :: flat_map (warnLines fs_readFile)
            (glob (mapDirectory ++ "/*" ++ floorID ++ ".map"))
  /\ (includeMarkers = true ->
      console w'
      = console w ++ [console_log_line ("Rendering floor " ++ floorID ++ "…")]).
Proof.
  intros H. pose proof H as Hform.
  apply renderFloor_form in Hform as (Hall & _).
  rewrite renderFloor_steps in H.
  destruct (handleSequence (floorFiles glob floorID mapDirectory)
              (fun fileName => draw fileName includeMarkers)
              (floorStart fillStyleColor floorID w)) as [[] w1|e w1] eqn:Hseq;
    [|discriminate].
  apply Returned_inj in H as [_ <-]. apply handleSequence_console in Hseq.
  cbn [set_written console]. rewrite Hseq. unfold floorFiles in *.
  assert (Hlines : console (floorStart fillStyleColor floorID w)
                   = console w
                     ++ [console_log_line ("Rendering floor " ++ floorID ++ "…")])
    by reflexivity.
  rewrite Hlines, <- app_assoc. split; [reflexivity|].
  intros ->. now rewrite (decodable_silent _ Hall).
Qed.

End FloorProperties.

(** ** The markers of a block *)

Lemma leValue_bound bytes : (leValue bytes < 256 ^ Z.of_nat (length bytes))%Z.
Proof.
  induction bytes as [|b bytes IH]; [reflexivity|].
  cbn [leValue length]. rewrite Nat2Z.inj_succ, Z.pow_succ_r by lia.
  pose proof (byteVal_range b). lia.
Qed.

Lemma byteZ_range buffer i : (0 <= byteZ buffer i <= 255)%Z.
Proof.
  unfold byteZ. destruct (buffer !! i) as [b|]; cbn [from_option]; [|lia].
  pose proof (byteVal_range b). lia.
Qed.

Lemma descriptionLengthAt_bound buffer index :
  (Z.of_nat (descriptionLengthAt buffer index) <= 65535)%Z.
Proof.
  unfold descriptionLengthAt.
  pose proof (leValue_bound (take 2 (drop (index + 12) buffer))) as H.
  pose proof (leValue_nonneg (take 2 (drop (index + 12) buffer))) as H0.
  assert (Hlen : length (take 2 (drop (index + 12) buffer)) <= 2)
    by (rewrite length_take; lia).
  assert (Hpow : (256 ^ Z.of_nat (length (take 2 (drop (index + 12) buffer)))
                  <= 256 ^ 2)%Z) by (apply Z.pow_le_mono_r; lia).
  change (256 ^ 2)%Z with 65536%Z in Hpow. lia.
Qed.

Lemma StronglySorted_weaken {A} (R R' : A -> A -> Prop) (P : A -> Prop) l :
  StronglySorted R l -> Forall P l ->
  (forall a b, P a -> P b -> R a b -> R' a b) ->
  StronglySorted R' l.
Proof.
  intros Hsorted Hall Himpl. induction Hsorted as [|a l Hsorted IH Hfirst].
  - constructor.
  - apply Forall_cons in Hall as [Ha Hall]. constructor; [apply IH, Hall|].
    rewrite Forall_forall in Hfirst, Hall. apply Forall_forall.
    intros b Hb. apply Himpl; auto.
Qed.

Lemma filterUnique_head a l : exists rest, filterUnique ∅ (a :: l) = a :: rest.
Proof.
  cbn [filterUnique]. rewrite bool_decide_eq_false_2 by apply not_elem_of_empty.
  cbn [negb]. eauto.
Qed.

(** A sorted array is left as it is. *)
Lemma arraySort_sorted_id l :
  StronglySorted (fun m1 m2 => sortKey m1 <= sortKey m2)%Z l ->
  arraySort compareMarkers l = l.
Proof.
  intros Hsorted. induction Hsorted as [|a l Hsorted IH Hfirst]; [reflexivity|].
  unfold arraySort in *. cbn [foldr]. rewrite IH.
  destruct l as [|b rest]; [reflexivity|].
  cbn [sortInsert]. apply Forall_cons in Hfirst as [Hab _].
  apply compareMarkers_sortKey in Hab.
  destruct (Z.leb_spec (compareMarkers a b) 0); [reflexivity | lia].
Qed.

Section MarkerProperties.

Variable icons_byID : Z -> option jsstring.

(** Each marker of the result stands for one record of the block. *)
Lemma decodedMarkers_record buffer floor m :
  m ∈ decodedMarkers icons_byID buffer floor ->
  exists k, k < markerCountOf buffer
            /\ m = markerAt icons_byID buffer floor (recordStart buffer k).
Proof.
  intros Hm. apply decodedMarkers_elem_of in Hm.
  apply list_elem_of_lookup in Hm as [k Hk].
  assert (Hlt : k < markerCountOf buffer).
  { apply lookup_lt_Some in Hk. now rewrite markersFrom_length in Hk. }
  rewrite markersFrom_lookup in Hk by exact Hlt.
  exists k. split; [exact Hlt|]. unfold recordStart. congruence.
Qed.

Lemma markerAt_place buffer floor index :
  let m := markerAt icons_byID buffer floor index in
  (0 <= x m <= 65535 /\ 0 <= y m <= 65535)%Z.
Proof.
  cbn [markerAt x y].
  pose proof (byteZ_range buffer index). pose proof (byteZ_range buffer (index + 1)).
  pose proof (byteZ_range buffer (index + 4)). pose proof (byteZ_range buffer (index + 5)).
  lia.
Qed.

(** X15. What a returned marker can hold: [x] and [y] are numbers of
    sixteen bits, [z] is the floor that was passed in, and the
    description has at most 65535 code units. *)
Theorem X15_marker_fields buffer floor w out w' m :
  parseMarkerData icons_byID buffer floor w = Returned out w' ->
  m ∈ out ->
  (0 <= x m <= 65535)%Z /\ (0 <= y m <= 65535)%Z /\ z m = floor
  /\ (Z.of_nat (length (description m)) <= 65535)%Z.
Proof.
  intros H Hm. apply parseMarkerData_inv in H as (_ & _ & ->).
  apply decodedMarkers_record in Hm as (k & _ & ->).
  destruct (markerAt_place buffer floor (recordStart buffer k)) as [Hx Hy].
  split; [exact Hx|]. split; [exact Hy|]. split; [reflexivity|].
  cbn [markerAt description]. unfold windows1252_decode.
  rewrite length_map, length_take.
  pose proof (descriptionLengthAt_bound buffer (recordStart buffer k)). lia.
Qed.

(** X16. A description that runs past the end of the block is cut,
    not rejected: each returned marker stands for one of the records
    that the count announces, and its description has one code unit
    for each byte between the end of the fixed part of the record and
    the end of the block, up to the length that the record
    declares. *)
Theorem X16_description_cut buffer floor w out w' m :
  parseMarkerData icons_byID buffer floor w = Returned out w' ->
  m ∈ out ->
  exists k,
    k < markerCountOf buffer
    /\ recordStart buffer k + 14 <= length buffer
    /\ x m = (byteZ buffer (recordStart buffer k + 1) * 256
              + byteZ buffer (recordStart buffer k))%Z
    /\ y m = (byteZ buffer (recordStart buffer k + 5) * 256
              + byteZ buffer (recordStart buffer k + 4))%Z
    /\ length (description m)
       = descriptionLengthAt buffer (recordStart buffer k)
         `min` (length buffer - (recordStart buffer k + 14)).
Proof.
  intros H Hm. apply parseMarkerData_inv in H as ([_ Hfit] & _ & ->).
  apply decodedMarkers_record in Hm as (k & Hk & ->).
  exists k. split; [exact Hk|]. split; [apply (Hfit k Hk)|].
  split; [reflexivity|]. split; [reflexivity|].
  cbn [markerAt description]. unfold windows1252_decode.
  now rewrite length_map, length_take, length_drop.
Qed.

(** X17. The result is ordered by [x] first and by [y] second: the
    key [x * 100000 + y] of the comparator orders places
    lexicographically, as no [y] reaches 100000. *)
Theorem X17_markers_by_place buffer floor w out w' :
  parseMarkerData icons_byID buffer floor w = Returned out w' ->
  StronglySorted byPlace out.
Proof.
  intros H. apply parseMarkerData_inv in H as (_ & _ & ->).
  apply (StronglySorted_weaken
           (fun m1 m2 => sortKey m1 <= sortKey m2)%Z byPlace
           (fun m => 0 <= y m <= 65535)%Z).
  - apply decodedMarkers_sorted.
  - apply Forall_forall. intros m Hm.
    apply decodedMarkers_record in Hm as (k & _ & ->).
    apply (markerAt_place buffer floor (recordStart buffer k)).
  - intros a b Ha Hb Hkey. unfold sortKey in Hkey. unfold byPlace. lia.
Qed.

Lemma decodedMarkers_length buffer floor :
  length (decodedMarkers icons_byID buffer floor) <= markerCountOf buffer.
Proof.
  unfold decodedMarkers.
  pose proof (arraySort_Permutation compareMarkers
                (markersFrom icons_byID buffer floor 4 (markerCountOf buffer)))
    as Hperm.
  apply Permutation_length in Hperm. rewrite markersFrom_length in Hperm.
  etransitivity; [apply filterUnique_length|]. lia.
Qed.

Lemma decodedMarkers_nil buffer floor :
  decodedMarkers icons_byID buffer floor = [] <-> markerCountOf buffer = 0.
Proof.
  unfold decodedMarkers.
  pose proof (arraySort_Permutation compareMarkers
                (markersFrom icons_byID buffer floor 4 (markerCountOf buffer)))
    as Hperm.
  apply Permutation_length in Hperm. rewrite markersFrom_length in Hperm.
  destruct (arraySort compareMarkers
              (markersFrom icons_byID buffer floor 4 (markerCountOf buffer)))
    as [|a l].
  - cbn [length] in Hperm. split; [intros _; lia | reflexivity].
  - cbn [length] in Hperm. destruct (filterUnique_head a l) as [rest ->].
    split; [discriminate | lia].
Qed.

(** X18. The count bounds the result: [parseMarkerData] returns at
    most as many markers as the first four bytes announce, and it
    returns none only if they announce none. *)
Theorem X18_marker_count buffer floor w out w' :
  parseMarkerData icons_byID buffer floor w = Returned out w' ->
  length out <= markerCountOf buffer
  /\ (out = [] <-> leValue (take 4 buffer) = 0%Z).
Proof.
  intros H. apply parseMarkerData_inv in H as (_ & _ & ->).
  split; [apply decodedMarkers_length|].
  rewrite decodedMarkers_nil.
  pose proof (leValue_nonneg (take 4 buffer)) as Hnonneg.
  unfold markerCountOf. lia.
Qed.

(** X19. The result is in normal form: sorting it and removing its
    duplicates once more, as [parseMarkerData] does, gives it back
    unchanged. *)
Theorem X19_result_normal buffer floor w out w' :
  parseMarkerData icons_byID buffer floor w = Returned out w' ->
  filterUnique ∅ (arraySort compareMarkers out) = out.
Proof.
  intros H. apply parseMarkerData_inv in H as (_ & _ & ->).
  rewrite arraySort_sorted_id by apply decodedMarkers_sorted.
  apply filterUnique_all.
  - intros m _. apply not_elem_of_empty.
  - apply filterUnique_NoDup.
Qed.

End MarkerProperties.

(** * The further properties on sample inputs *)

Lemma zeros_bufferAt n i :
  (0 <= i < Z.of_N n)%Z -> bufferAt (zeros n) i = Some x00.
Proof.
  intros Hi. rewrite bufferAt_lookup by lia. apply lookup_zeros. lia.
Qed.

Lemma X1_witness :
  byByte !! 0x0C%Z = Some (RGB 0 102 0)
  /\ byColor !! "0,102,0" = Some 0x0C%Z.
Proof.
  split; [reflexivity|].
  exact (proj1 X1_byColor_inverts_byByte 0x0C%Z (RGB 0 102 0) eq_refl).
Defined.

Lemma X2_witness :
  exists img,
    renderMap (zeros 0x10000) sample_world = Returned img sample_world
    /\ idata img 3 5 = Pixel 0 0 0 255.
Proof.
  destruct (proj2 (proj1 (X2_renderMap_returns_iff (zeros 0x10000) sample_world)))
    as (img & w' & H).
  { intros i Hi. exists x00.
    split; [apply zeros_bufferAt; lia | eexists; reflexivity]. }
  destruct (proj2 (X2_renderMap_returns_iff (zeros 0x10000) sample_world) img w' H)
    as (Hw & _ & _ & Hpix).
  rewrite Hw in H. exists img. split; [exact H|].
  apply (Hpix 3 5 x00 (RGB 0 0 0))%Z; [lia | lia | apply zeros_bufferAt; lia | reflexivity].
Defined.

Lemma X3_witness :
  (exists img,
     renderPath (zeros 0x10000) sample_world = Returned img sample_world
     /\ idata img 3 5 = Pixel 0 0 0 255)
  /\ renderPath (zeros 0xFFFF) sample_world = Thrown TypeError sample_world.
Proof.
  split.
  - destruct (proj1 (X3_renderPath_total (zeros 0x10000) sample_world))
      as (img & H & _ & _ & Hpix).
    { rewrite length_zeros. lia. }
    exists img. split; [exact H|].
    destruct (Hpix 3 5)%Z as (byte & Hbyte & _ & Hcolor); [lia | lia |].
    rewrite lookup_zeros in Hbyte by lia. injection Hbyte as <-. exact Hcolor.
  - apply (proj2 (X3_renderPath_total (zeros 0xFFFF) sample_world)).
    rewrite length_zeros. lia.
Defined.

(** A layer of zero bytes, and the same layer followed by one more
    byte. *)
Lemma zeros_longer_known palette :
  is_Some (palette !! byteVal x00) ->
  forall i, (0 <= i < 65536)%Z -> knownAt palette (zeros 0x10000 ++ [x01]) i.
Proof.
  intros Hzero i Hi. unfold knownAt, paletteAt.
  rewrite bufferAt_lookup by lia.
  rewrite lookup_app_l by (rewrite length_zeros; lia).
  rewrite lookup_zeros by lia. exact Hzero.
Qed.

Lemma zeros_layer_known palette :
  is_Some (palette !! byteVal x00) ->
  forall i, (0 <= i < 65536)%Z -> knownAt palette (zeros 0x10000) i.
Proof.
  intros Hzero i Hi. unfold knownAt, paletteAt.
  rewrite zeros_bufferAt by lia. exact Hzero.
Qed.

Lemma zeros_longer_differs : zeros 0x10000 <> zeros 0x10000 ++ [x01].
Proof.
  intros H. apply (f_equal length) in H.
  rewrite length_app, length_zeros in H. cbn [length] in H. lia.
Qed.

Lemma zeros_longer_colour palette i :
  (0 <= i < 65536)%Z ->
  colourAt palette (zeros 0x10000 ++ [x01]) i = colourAt palette (zeros 0x10000) i.
Proof.
  intros Hi. unfold colourAt. rewrite !bufferAt_lookup by lia.
  rewrite lookup_app_l by (rewrite length_zeros; lia). reflexivity.
Qed.

Lemma X4_witness :
  zeros 0x10000 <> zeros 0x10000 ++ [x01]
  /\ forall i, (0 <= i < 65536)%Z ->
       bufferAt (zeros 0x10000) i = bufferAt (zeros 0x10000 ++ [x01]) i.
Proof.
  split; [exact zeros_longer_differs|].
  assert (Hzero : is_Some (mapPixelPalette !! byteVal x00)) by (eexists; reflexivity).
  destruct (renderWith_returned true mapPixelPalette _ sample_world unitPalette_map
              (zeros_layer_known _ Hzero)) as [H1 Hpix1].
  destruct (renderWith_returned true mapPixelPalette _ sample_world unitPalette_map
              (zeros_longer_known _ Hzero)) as [H2 Hpix2].
  rewrite <- renderMap_renderWith in H1, H2.
  apply (X4_renderMap_lossless _ _ _ _ _ _ _ _ H1 H2).
  intros col row Hcol Hrow. rewrite Hpix1, Hpix2 by assumption.
  symmetry. apply zeros_longer_colour. lia.
Defined.

Lemma X5_witness :
  zeros 0x10000 <> zeros 0x10000 ++ [x01]
  /\ forall i, (0 <= i < 65536)%Z ->
       bufferAt (zeros 0x10000) i = bufferAt (zeros 0x10000 ++ [x01]) i.
Proof.
  split; [exact zeros_longer_differs|].
  assert (Hzero : is_Some (pathPixelPalette !! byteVal x00))
    by (rewrite pathPixelPalette_lookup; eauto).
  destruct (renderWith_returned false pathPixelPalette _ sample_world unitPalette_path
              (zeros_layer_known _ Hzero)) as [H1 Hpix1].
  destruct (renderWith_returned false pathPixelPalette _ sample_world unitPalette_path
              (zeros_longer_known _ Hzero)) as [H2 Hpix2].
  rewrite <- renderPath_renderWith in H1, H2.
  apply (X5_renderPath_lossless _ _ _ _ _ _ _ _ H1 H2).
  intros col row Hcol Hrow. rewrite Hpix1, Hpix2 by assumption.
  symmetry. apply zeros_longer_colour. lia.
Defined.

Lemma sample_green_resolves includeMarkers w :
  exists w', sample_draw "green/12712113.map" includeMarkers w = Returned tt w'.
Proof.
  apply drawMapSection_returns_iff. split; [apply sample_green|].
  intros _. rewrite (proj2 sample_green).
  split; [cbn [length]; lia|]. intros k Hk.
  change (markerCountOf [x00; x00; x00; x00]) with 0 in Hk. lia.
Qed.

Lemma X6_witness :
  exists w',
    sample_draw "green/12712113.map" false painted_world = Returned tt w'
    /\ cpixel (G_mapCanvas painted_world) 300 5 = Pixel 1 2 3 255
    /\ cpixel (G_mapCanvas w') 300 5 = Pixel 1 2 3 255
    /\ markers w' = markers painted_world
    /\ written w' = written painted_world.
Proof.
  destruct (sample_green_resolves false painted_world) as [w' H].
  destruct (X6_tile_frame sample_icons sample_idToXyz sample_basename sample_readFile
              "green/12712113.map" false painted_world w' H)
    as (Hpixels & _ & Hmarkers & (_ & Hwritten & _)).
  exists w'. split; [exact H|]. split; [reflexivity|].
  split; [|split; [exact (Hmarkers eq_refl) | exact Hwritten]].
  refine (proj1 (Hpixels 300%Z 5%Z _)).
  unfold inTile, tileOffsetX, tileOffsetY, tileCoordinates, tileId.
  rewrite sample_tile_green.
  cbn [coord_x coord_y G_bounds painted_world pair_world set_markers set_mapCanvas
       xMin yMin pair_bounds]. lia.
Defined.

Lemma X7_witness :
  exists w' byte,
    sample_draw "green/12712113.map" false sample_world = Returned tt w'
    /\ sample_readFile "green/12712113.map" !! Z.to_nat (65536 + 1) = Some byte
    /\ cpixel (G_pathCanvas w') 0 1 = pathPixel byte.
Proof.
  destruct (sample_green_resolves false sample_world) as [w' H].
  destruct (X7_path_column_major sample_icons sample_idToXyz sample_basename
              sample_readFile "green/12712113.map" false sample_world w' 1 H)
    as (byte & Hbyte & Hpixel).
  - lia.
  - unfold tileOffsetX, tileCoordinates, tileId. rewrite sample_tile_green.
    change (0 <= 0 < 256)%Z. lia.
  - unfold tileOffsetY, tileCoordinates, tileId. rewrite sample_tile_green.
    change (0 <= 1 < 256)%Z. lia.
  - exists w', byte. split; [exact H|]. split; [exact Hbyte|].
    unfold tileOffsetX, tileOffsetY, tileCoordinates, tileId in Hpixel.
    rewrite sample_tile_green in Hpixel. exact Hpixel.
Defined.

(** The floors of the sample directories. *)
Lemma sample_zeros_accepted includeMarkers :
  layersDecode sample_readFile "zeros/12712113.map"
  /\ (includeMarkers = true ->
      decodable (markerData sample_readFile "zeros/12712113.map")).
Proof.
  split; [apply sample_zeros|]. intros _. rewrite (proj2 sample_zeros).
  split; [cbn [length]; lia|]. intros k Hk.
  change (markerCountOf [x00; x00; x00; x00]) with 0 in Hk. lia.
Qed.

Lemma sample_zeros_files includeMarkers :
  Forall (fun fileName =>
            layersDecode sample_readFile fileName
            /\ (includeMarkers = true ->
                decodable (markerData sample_readFile fileName)))
         (floorFiles sample_glob "13" "zeros").
Proof.
  change (floorFiles sample_glob "13" "zeros") with ["zeros/12712113.map"].
  apply Forall_cons. split; [apply sample_zeros_accepted | constructor].
Qed.

Lemma sample_tile_zeros :
  sample_idToXyz (sample_basename "zeros/12712113.map" ".map")
  = {| coord_x := 127; coord_y := 121; coord_z := 13 |}.
Proof. vm_compute. reflexivity. Qed.


Lemma X9_witness :
  exists w' fileName byte color,
    sample_floor "13" "zeros" "data" false sample_world = Returned tt w'
    /\ fileName ∈ sample_glob "zeros/*13.map"
    /\ sample_readFile fileName
       !! Z.to_nat ((3 - tileOffsetX sample_idToXyz sample_basename fileName
                          sample_world) * 256
                    + (5 - tileOffsetY sample_idToXyz sample_basename fileName
                             sample_world))
       = Some byte
    /\ byByte !! byteVal byte = Some color
    /\ cpixel (G_mapCanvas w') 3 5 = opaque color.
Proof.
  destruct (renderFloor_returns sample_icons sample_idToXyz sample_basename
              sample_readFile sample_glob sample_fillStyleColor "13" "zeros" "data"
              false sample_world (sample_zeros_files false)) as [w' H].
  assert (Hcovered : exists fileName,
            fileName ∈ sample_glob ("zeros" ++ "/*" ++ "13" ++ ".map")
            /\ inTile sample_idToXyz sample_basename fileName sample_world 3 5).
  { exists "zeros/12712113.map". split; [left|].
    unfold inTile, tileOffsetX, tileOffsetY, tileCoordinates, tileId.
    rewrite sample_tile_zeros.
    cbn [coord_x coord_y G_bounds sample_world xMin yMin sample_bounds]. lia. }
  destruct (proj1 (X9_floor_tiles sample_icons sample_idToXyz sample_basename
                     sample_readFile sample_glob sample_fillStyleColor "13" "zeros"
                     "data" false sample_world w' 3 5 H Hcovered))
    as (fileName & byte & color & Hin & _ & Hbyte & Hcolor & Hpixel).
  - change (0 <= 3 < 256)%Z. lia.
  - change (0 <= 5 < 256)%Z. lia.
  - exists w', fileName, byte, color. auto.
Defined.

(** The two tiles of the second file system, in either order. *)
Lemma pair_files includeMarkers files :
  files ⊆ ["zeros/12712113.map"; "pair/12812113.map"] ->
  Forall (fun fileName =>
            layersDecode pair_readFile fileName
            /\ (includeMarkers = true ->
                decodable (markerData pair_readFile fileName))) files.
Proof.
  intros Hsub. apply Forall_forall. intros fileName Hin. apply Hsub in Hin.
  assert (Hcount : decodable [x00; x00; x00; x00]).
  { split; [cbn [length]; lia|]. intros k Hk.
    change (markerCountOf [x00; x00; x00; x00]) with 0 in Hk. lia. }
  apply elem_of_cons in Hin as [->|Hin];
    [|apply list_elem_of_singleton in Hin as ->].
  - destruct (layersDecode_intro pair_readFile "zeros/12712113.map"
                (zeros 0x10000) (zeros 0x10000) [x00; x00; x00; x00])
      as [Hlayers Hblock];
      [reflexivity | apply length_zeros | apply length_zeros | apply zeros_known |].
    split; [exact Hlayers|]. intros _. rewrite Hblock. exact Hcount.
  - destruct (layersDecode_intro pair_readFile "pair/12812113.map"
                (zeros 0x10000) (zeros 0x10000) [x00; x00; x00; x00])
      as [Hlayers Hblock];
      [reflexivity | apply length_zeros | apply length_zeros | apply zeros_known |].
    split; [exact Hlayers|]. intros _. rewrite Hblock. exact Hcount.
Qed.

Lemma X10_witness :
  exists w1 w1',
    handleSequence ["zeros/12712113.map"; "pair/12812113.map"]
      (fun fileName =>
         drawMapSection sample_icons sample_idToXyz sample_basename pair_readFile
           fileName true) pair_world
    = Returned tt w1
    /\ handleSequence ["pair/12812113.map"; "zeros/12712113.map"]
         (fun fileName =>
            drawMapSection sample_icons sample_idToXyz sample_basename pair_readFile
              fileName true) pair_world
       = Returned tt w1'
    /\ sameRaster (G_mapCanvas w1) (G_mapCanvas w1')
    /\ sameRaster (G_pathCanvas w1) (G_pathCanvas w1')
    /\ markers w1 = markers w1'.
Proof.
  destruct (handleSequence_returns sample_icons sample_idToXyz sample_basename
              pair_readFile true ["zeros/12712113.map"; "pair/12812113.map"]
              (pair_files true _ (reflexivity _)) pair_world) as [w1 H].
  destruct (X10_order_irrelevant sample_icons sample_idToXyz sample_basename
              pair_readFile true
              ["zeros/12712113.map"; "pair/12812113.map"]
              ["pair/12812113.map"; "zeros/12712113.map"] pair_world w1
              (perm_swap _ _ _)
              ltac:(apply (bool_decide_unpack _); vm_compute; reflexivity) H)
    as (w1' & H' & Hmap & Hpath & Hmarkers & _).
  exists w1, w1'. auto.
Defined.

Lemma duplicateBlock_count : markerCountOf duplicateBlock = 3.
Proof. vm_compute. reflexivity. Qed.

Lemma X11_witness :
  exists w' found,
    sample_floor "13" "marked" "data" true sample_world = Returned tt w'
    /\ last (written w') = Some (JSON "data/floor-13-markers.json" found)
    /\ is_Some (found !! "12712113").
Proof.
  destruct (renderFloor_returns sample_icons sample_idToXyz sample_basename
              sample_readFile sample_glob sample_fillStyleColor "13" "marked" "data"
              true sample_world sample_marked_files) as [w' H].
  destruct (X11_json_content sample_icons sample_idToXyz sample_basename
              sample_readFile sample_glob sample_fillStyleColor "13" "marked" "data"
              sample_world w' H) as (found & Hlast & _ & Hhas).
  exists w', found. split; [exact H|]. split; [exact Hlast|].
  apply (Hhas "marked/12712113.map"); [left|].
  change (markerData sample_readFile "marked/12712113.map")
    with (sliceFrom (sample_readFile "marked/12712113.map") 0x20000).
  fold (markerData sample_readFile "marked/12712113.map").
  rewrite (proj2 sample_marked). intros Hnil.
  apply decodedMarkers_nil in Hnil. rewrite duplicateBlock_count in Hnil.
  discriminate.
Defined.

Lemma X12_witness :
  exists w1' w2' mapRaster1 pathRaster1 mapRaster2 pathRaster2 found,
    sample_floor "13" "zeros" "data" true sample_world = Returned tt w1'
    /\ sample_floor "13" "zeros" "data" true used_world = Returned tt w2'
    /\ written w1' = [ PNG "data/floor-13-map.png" mapRaster1;
                       PNG "data/floor-13-path.png" pathRaster1;
                       JSON "data/floor-13-markers.json" found ]
    /\ written w2' = [ PNG "data/floor-13-map.png" mapRaster2;
                       PNG "data/floor-13-path.png" pathRaster2;
                       JSON "data/floor-13-markers.json" found ]
    /\ cpixel mapRaster1 3 5 = cpixel mapRaster2 3 5.
Proof.
  destruct (renderFloor_returns sample_icons sample_idToXyz sample_basename
              sample_readFile sample_glob sample_fillStyleColor "13" "zeros" "data"
              true sample_world (sample_zeros_files true)) as [w1' H].
  destruct (X12_floor_starts_afresh sample_icons sample_idToXyz sample_basename
              sample_readFile sample_glob sample_fillStyleColor "13" "zeros" "data"
              true sample_world used_world w1'
              ltac:(repeat split) H)
    as (w2' & m1 & p1 & m2 & p2 & found & H2 & Hw1 & Hw2 & Hpixels).
  exists w1', w2', m1, p1, m2, p2, found.
  split; [exact H|]. split; [exact H2|]. split; [exact Hw1|]. split; [exact Hw2|].
  refine (proj1 (Hpixels 3%Z 5%Z _ _)).
  - change (0 <= 3 < 256)%Z. lia.
  - change (0 <= 5 < 256)%Z. lia.
Defined.

Lemma sample_conversion includeMarkers w :
  exists w',
    convertFromMaps sample_icons sample_idToXyz sample_basename sample_readFile
      sample_glob sample_fillStyleColor sample_bounds "zeros" "" includeMarkers w
    = Returned tt w'.
Proof.
  rewrite convertFromMaps_steps. apply handleSequence_floors_return.
  intros floorID Hin. apply list_elem_of_singleton in Hin as ->.
  apply sample_zeros_files.
Qed.

Lemma X13_witness :
  exists w' files,
    convertFromMaps sample_icons sample_idToXyz sample_basename sample_readFile
      sample_glob sample_fillStyleColor sample_bounds "zeros" "" false sample_world
    = Returned tt w'
    /\ Forall2 (floorFilesOf sample_bounds "data" false) ["13"] files
    /\ written w' = concat files.
Proof.
  destruct (sample_conversion false sample_world) as [w' H].
  destruct (X13_conversion_output sample_icons sample_idToXyz sample_basename
              sample_readFile sample_glob sample_fillStyleColor sample_bounds
              "zeros" "" false sample_world w' H) as (files & Hfiles & Hwritten).
  exists w', files. split; [exact H|]. split; [exact Hfiles | exact Hwritten].
Defined.

(** The two floors of [floors_bounds]: the first resolves, the second
    stops at the first byte of its tile. *)
Lemma floors_first_files :
  Forall (fun fileName =>
            layersDecode floors_readFile fileName
            /\ (false = true -> decodable (markerData floors_readFile fileName)))
         (floorFiles floors_glob "13" "floors").
Proof.
  change (floorFiles floors_glob "13" "floors") with ["floors/12712113.map"].
  apply Forall_cons. split; [|constructor]. split; [|discriminate].
  apply (layersDecode_intro floors_readFile "floors/12712113.map"
           (zeros 0x10000) (zeros 0x10000) [x00; x00; x00; x00]);
    [reflexivity | apply length_zeros | apply length_zeros | apply zeros_known].
Qed.

Lemma floors_second_unknown :
  bufferAt (mapData floors_readFile "floors/12712114.map") 0 = Some x01.
Proof.
  unfold mapData.
  change (floors_readFile "floors/12712114.map")
    with (([x01] ++ zeros 0xFFFF) ++ zeros 0x10000 ++ [x00; x00; x00; x00]).
  rewrite (proj1 (tile_layout ([x01] ++ zeros 0xFFFF) (zeros 0x10000) _
                    ltac:(rewrite length_app, length_zeros; cbn [length]; lia)
                    (length_zeros _))).
  reflexivity.
Qed.

Lemma floors_second_thrown w :
  exists w',
    renderFloor sample_icons sample_idToXyz sample_basename floors_readFile
      floors_glob sample_fillStyleColor "14" "floors" "data" false w
    = Thrown TypeError w'.
Proof.
  eexists.
  apply (renderFloor_thrown sample_icons sample_idToXyz sample_basename
           floors_readFile floors_glob sample_fillStyleColor "14" "floors" "data"
           false w "floors/12712114.map" []);
    [reflexivity|].
  apply (drawMapSection_thrown_map sample_icons sample_idToXyz sample_basename
           floors_readFile "floors/12712114.map" false _ 0); [lia | lia |].
  unfold knownAt. rewrite floors_second_unknown. intros [img Himg]. discriminate.
Qed.

Lemma floors_conversion :
  exists w',
    convertFromMaps sample_icons sample_idToXyz sample_basename floors_readFile
      floors_glob sample_fillStyleColor floors_bounds "floors" "data" false
      sample_world
    = Thrown TypeError w'
    /\ length (written w') = 3.
Proof.
  pose (start := conversionStart floors_bounds sample_world).
  destruct (renderFloor_returns sample_icons sample_idToXyz sample_basename
              floors_readFile floors_glob sample_fillStyleColor "13" "floors" "data"
              false start floors_first_files) as [w1 H1].
  destruct (floors_second_thrown w1) as [w' H2].
  exists w'. split.
  - rewrite convertFromMaps_steps.
    change (handleSequence ["13"; "14"]
              (fun floorID =>
                 renderFloor sample_icons sample_idToXyz sample_basename
                   floors_readFile floors_glob sample_fillStyleColor floorID
                   "floors" "data" false) start
            = Thrown TypeError w').
    rewrite (handleSequence_cons_Returned "13" ["14"]
               (fun floorID =>
                  renderFloor sample_icons sample_idToXyz sample_basename
                    floors_readFile floors_glob sample_fillStyleColor floorID
                    "floors" "data" false) start w1 H1).
    exact (handleSequence_cons_Thrown "14" []
             (fun floorID =>
                renderFloor sample_icons sample_idToXyz sample_basename
                  floors_readFile floors_glob sample_fillStyleColor floorID
                  "floors" "data" false) w1 TypeError w' H2).
  - pose proof (renderFloor_outcome sample_icons sample_idToXyz sample_basename
                  floors_readFile floors_glob sample_fillStyleColor floors_bounds
                  "13" "floors" "data" false start
                  (conversionStart_sized floors_bounds sample_world)) as Hfirst.
    rewrite H1 in Hfirst.
    destruct Hfirst as (Hsized & files & (m & p & found & -> & _) & Hwritten).
    pose proof (renderFloor_outcome sample_icons sample_idToXyz sample_basename
                  floors_readFile floors_glob sample_fillStyleColor floors_bounds
                  "14" "floors" "data" false w1 Hsized) as Hsecond.
    rewrite H2 in Hsecond. rewrite Hsecond, Hwritten. reflexivity.
Qed.

Lemma X14_witness :
  exists w' k files,
    convertFromMaps sample_icons sample_idToXyz sample_basename floors_readFile
      floors_glob sample_fillStyleColor floors_bounds "floors" "data" false
      sample_world
    = Thrown TypeError w'
    /\ length (written w') = 3
    /\ k < 2
    /\ Forall2 (floorFilesOf floors_bounds "data" false) (take k ["13"; "14"]) files
    /\ written w' = concat files.
Proof.
  destruct floors_conversion as (w' & H & Hlength).
  destruct (X14_conversion_cut_short sample_icons sample_idToXyz sample_basename
              floors_readFile floors_glob sample_fillStyleColor floors_bounds
              "floors" "data" false sample_world TypeError w' H)
    as (k & files & Hk & Hfiles & Hwritten).
  exists w', k, files. auto.
Defined.

Lemma duplicateBlock_first :
  {| description := []; icon := Some (lit "checkmark"); x := 5; y := 5; z := 13 |}
  ∈ decodedMarkers sample_icons duplicateBlock 13.
Proof. apply (list_elem_of_lookup_2 _ 0). vm_compute. reflexivity. Qed.

Lemma X15_witness :
  let m := {| description := []; icon := Some (lit "checkmark");
              x := 5; y := 5; z := 13 |} in
  parseMarkerData sample_icons duplicateBlock 13 sample_world
  = Returned (decodedMarkers sample_icons duplicateBlock 13) sample_world
  /\ m ∈ decodedMarkers sample_icons duplicateBlock 13
  /\ (0 <= x m <= 65535)%Z /\ (0 <= y m <= 65535)%Z /\ z m = 13%Z
  /\ (Z.of_nat (length (description m)) <= 65535)%Z.
Proof.
  intros m.
  pose proof (parseMarkerData_decodable sample_icons duplicateBlock 13 sample_world
                duplicateBlock_decodable) as Hparse.
  split; [exact Hparse|]. split; [exact duplicateBlock_first|].
  exact (X15_marker_fields sample_icons duplicateBlock 13 sample_world _ sample_world
           m Hparse duplicateBlock_first).
Defined.

Lemma cutDescriptionBlock_decodable : decodable cutDescriptionBlock.
Proof.
  split; [vm_compute; lia|]. intros k Hk.
  change (markerCountOf cutDescriptionBlock) with 1 in Hk.
  assert (k = 0) as -> by lia. vm_compute. lia.
Qed.

Lemma cutDescriptionBlock_first :
  {| description := lit "Ab"; icon := Some (lit "checkmark");
     x := 10; y := 20; z := 13 |}
  ∈ decodedMarkers sample_icons cutDescriptionBlock 13.
Proof. apply (list_elem_of_lookup_2 _ 0). vm_compute. reflexivity. Qed.

Lemma X16_witness :
  let m := {| description := lit "Ab"; icon := Some (lit "checkmark");
              x := 10; y := 20; z := 13 |} in
  parseMarkerData sample_icons cutDescriptionBlock 13 sample_world
  = Returned (decodedMarkers sample_icons cutDescriptionBlock 13) sample_world
  /\ descriptionLengthAt cutDescriptionBlock 4 = 5
  /\ exists k,
       k < markerCountOf cutDescriptionBlock
       /\ recordStart cutDescriptionBlock k + 14 <= length cutDescriptionBlock
       /\ x m = (byteZ cutDescriptionBlock (recordStart cutDescriptionBlock k + 1) * 256
                 + byteZ cutDescriptionBlock (recordStart cutDescriptionBlock k))%Z
       /\ y m = (byteZ cutDescriptionBlock (recordStart cutDescriptionBlock k + 5) * 256
                 + byteZ cutDescriptionBlock (recordStart cutDescriptionBlock k + 4))%Z
       /\ length (description m)
          = descriptionLengthAt cutDescriptionBlock (recordStart cutDescriptionBlock k)
            `min` (length cutDescriptionBlock
                   - (recordStart cutDescriptionBlock k + 14)).
Proof.
  intros m.
  pose proof (parseMarkerData_decodable sample_icons cutDescriptionBlock 13
                sample_world cutDescriptionBlock_decodable) as Hparse.
  split; [exact Hparse|]. split; [vm_compute; reflexivity|].
  exact (X16_description_cut sample_icons cutDescriptionBlock 13 sample_world _
           sample_world m Hparse cutDescriptionBlock_first).
Defined.

Lemma X17_witness :
  parseMarkerData sample_icons orderBlock 13 sample_world
  = Returned (decodedMarkers sample_icons orderBlock 13) sample_world
  /\ StronglySorted byPlace (decodedMarkers sample_icons orderBlock 13).
Proof.
  assert (Hdec : decodable orderBlock).
  { split; [vm_compute; lia|]. apply fixedPartsFit_whole. vm_compute. lia. }
  pose proof (parseMarkerData_decodable sample_icons orderBlock 13 sample_world Hdec)
    as Hparse.
  split; [exact Hparse|].
  exact (X17_markers_by_place sample_icons orderBlock 13 sample_world _ sample_world
           Hparse).
Defined.

Lemma X18_witness :
  parseMarkerData sample_icons duplicateBlock 13 sample_world
  = Returned (decodedMarkers sample_icons duplicateBlock 13) sample_world
  /\ length (decodedMarkers sample_icons duplicateBlock 13)
     <= markerCountOf duplicateBlock
  /\ (decodedMarkers sample_icons duplicateBlock 13 = []
      <-> leValue (take 4 duplicateBlock) = 0%Z).
Proof.
  pose proof (parseMarkerData_decodable sample_icons duplicateBlock 13 sample_world
                duplicateBlock_decodable) as Hparse.
  split; [exact Hparse|].
  exact (X18_marker_count sample_icons duplicateBlock 13 sample_world _ sample_world
           Hparse).
Defined.

Lemma X19_witness :
  parseMarkerData sample_icons duplicateBlock 13 sample_world
  = Returned (decodedMarkers sample_icons duplicateBlock 13) sample_world
  /\ filterUnique ∅ (arraySort compareMarkers
                       (decodedMarkers sample_icons duplicateBlock 13))
     = decodedMarkers sample_icons duplicateBlock 13.
Proof.
  pose proof (parseMarkerData_decodable sample_icons duplicateBlock 13 sample_world
                duplicateBlock_decodable) as Hparse.
  split; [exact Hparse|].
  exact (X19_result_normal sample_icons duplicateBlock 13 sample_world _ sample_world
           Hparse).
Defined.

Lemma X20_witness :
  (exists w', sample_draw "zeros/12712113.map" true sample_world = Returned tt w')
  /\ (131072 <= Z.of_nat (length (sample_readFile "zeros/12712113.map")))%Z.
Proof.
  destruct (X20_tile_outcome sample_icons sample_idToXyz sample_basename
              sample_readFile "zeros/12712113.map" true sample_world)
    as (Hreturns & _ & _ & Hbytes).
  split.
  - apply Hreturns. apply sample_zeros_accepted.
  - apply Hbytes. apply sample_zeros.
Defined.

Lemma X21_witness :
  exists w',
    convertFromMaps sample_icons sample_idToXyz sample_basename sample_readFile
      sample_glob sample_fillStyleColor sample_bounds "zeros" "data" true
      sample_world
    = Returned tt w'.
Proof.
  apply (proj2 (X21_conversion_completes sample_icons sample_idToXyz sample_basename
                  sample_readFile sample_glob sample_fillStyleColor sample_bounds
                  "zeros" "data" true sample_world)).
  intros floorID fileName Hfloor Hfile.
  apply list_elem_of_singleton in Hfloor as ->.
  apply list_elem_of_singleton in Hfile as ->.
  apply drawMapSection_returns_iff. apply sample_zeros_accepted.
Defined.

Lemma sample_empty_files :
  Forall (fun fileName =>
            layersDecode sample_readFile fileName
            /\ (false = true -> decodable (markerData sample_readFile fileName)))
         (floorFiles sample_glob "13" "empty").
Proof.
  change (floorFiles sample_glob "13" "empty") with ["empty/12712113.map"].
  apply Forall_cons. split; [|constructor].
  split; [apply sample_empty | discriminate].
Qed.

Lemma X22_witness :
  exists w',
    sample_floor "13" "empty" "data" false sample_world = Returned tt w'
    /\ console w'
       = [ console_log_line "Rendering floor 13…";
           console_warn_line
             "File with invalid marker data: empty/12712113.map. Fix:";
           console_log_line "printf '\0\0\0\0' >> empty/12712113.map" ].
Proof.
  destruct (renderFloor_returns sample_icons sample_idToXyz sample_basename
              sample_readFile sample_glob sample_fillStyleColor "13" "empty" "data"
              false sample_world sample_empty_files) as [w' H].
  destruct (X22_floor_console sample_icons sample_idToXyz sample_basename
              sample_readFile sample_glob sample_fillStyleColor "13" "empty" "data"
              false sample_world w' H) as [Hconsole _].
  exists w'. split; [exact H|]. rewrite Hconsole.
  change (sample_glob ("empty" ++ "/*" ++ "13" ++ ".map"))
    with ["empty/12712113.map"].
  cbn [flat_map]. unfold warnLines. rewrite (proj2 sample_empty). reflexivity.
Defined.
